(** * Deforestation dashboard: the data-shaping core of [main.py]

    A shallow embedding of the four transforms of [main.py] that shape data
    for display, and the properties of them that the specification states:

    - [plot_loss_trend]           (temporal aggregation of loss samples),
    - [filter_points_in_polygon]  (spatial filter against a drawn polygon),
    - [apply_smoothing]           (binning and Gaussian smoothing of scores),
    - the risk-level selection of the Classifier tab.

    Conventions of the embedding.
    - A [float64] is an exact rational ([Q]); equality of computed floats is
      [Qeq] ([==]).  Rounding, infinities and NaN are outside the model,
      except where a definition says that it tracks an undefined quotient.
      So [np.linspace] and the Gaussian filter are modelled in exact
      arithmetic, and what is stated of their results is what rounding
      leaves as it is: the order and the ends of the edges, the cell of a
      sample between given edges, signs, exact zeros and counts.
    - An integer column is an [int64] column: its entries are integers of
      the int64 range, and sums over it wrap around as they do in numpy.
    - An exception is the name of its Python class.
    - A pandas frame is the list of its rows, a row a record of its columns.
      The frame handed to [filter_points_in_polygon] is an object in a store,
      because that function assigns a column of it in place. *)

From Stdlib Require Import String List ZArith QArith Qminmax Qround Lia Lqa Bool.
From Stdlib Require Import Permutation Sorted Arith PeanoNat.
Import ListNotations.

Local Open Scope string_scope.
Local Open Scope list_scope.
Local Open Scope Z_scope.
Local Open Scope Q_scope.

(** ** Outcomes of a call *)

Definition exn := string.

Inductive result (A : Type) : Type :=
| Ok (a : A)
| Raise (e : exn).
Arguments Ok {A} a.
Arguments Raise {A} e.

(** ** Floats: comparisons, sums, counts *)

Definition Qltb (a b : Q) : bool := negb (Qle_bool b a).
Definition Qgeb (a b : Q) : bool := Qle_bool b a.

Definition Qsum (l : list Q) : Q := fold_right Qplus 0 l.

(** A count, as a float. *)
Definition Qn (k : nat) : Q := inject_Z (Z.of_nat k).

(** The width of one of the [n - 1] bins that [n] evenly spaced edges cut
    in the interval from [lo] to [hi]. *)
Definition width (lo hi : Q) (n : nat) : Q := (hi - lo) / Qn (n - 1).

(** [df[mask]]: the rows whose entry of the boolean mask is [True]. *)
Definition getitem_mask {A : Type} (l : list A) (mask : list bool) : list A :=
  map fst (filter snd (combine l mask)).

(** ** Integers of 64 bits

    The arithmetic of an [int64] column: a sum that leaves the range wraps
    around, without an exception. *)

Module Int64.

Definition modulus : Z := 18446744073709551616.
Definition min_int : Z := -9223372036854775808.
Definition max_int : Z := 9223372036854775807.

Definition in_range (z : Z) : Prop := (min_int <= z <= max_int)%Z.

(** The value of the int64 range that differs from [z] by a multiple of
    [2 ^ 64]. *)
Definition wrap (z : Z) : Z := ((z - min_int) mod modulus + min_int)%Z.

Definition add (a b : Z) : Z := wrap (a + b).

End Int64.

(** ** The historical loss table and its yearly trend *)

Module Loss.

(** A row of [loss_df], as [loadHistoricalData] leaves it:
    [df[["lat", "lon", "label", "count"]]]. *)
Record Row := { lat : Q; lon : Q; label : Z; count : Z }.

(** The two integer columns hold int64 values. *)
Definition int64 (r : Row) : Prop :=
  Int64.in_range (label r) /\ Int64.in_range (count r).

End Loss.

Module Trend.

Record Row := { lossyear : Z; loss_pixels : Z; year : Z }.

(** [groupby("label")["count"].sum()]: the groups are kept in ascending
    order of their key while the rows are read; a row joins the group of its
    key, whose int64 total it is added to, or opens a new one. *)
Fixpoint group_add (k v : Z) (groups : list (Z * Z)) : list (Z * Z) :=
  match groups with
  | [] => [(k, v)]
  | (k', v') :: rest =>
      if (k <? k')%Z then (k, v) :: groups
      else if (k =? k')%Z then (k', Int64.add v' v) :: rest
      else (k', v') :: group_add k v rest
  end.

Definition groupby_sum (keyed : list (Z * Z)) : list (Z * Z) :=
  fold_left (fun groups kv => group_add (fst kv) (snd kv) groups) keyed [].

(** [sort_values("year")]. *)
Fixpoint insert_by_year (r : Row) (l : list Row) : list Row :=
  match l with
  | [] => [r]
  | r' :: l' =>
      if (year r <=? year r')%Z then r :: l else r' :: insert_by_year r l'
  end.

Definition sort_values_year (l : list Row) : list Row :=
  fold_right insert_by_year [] l.

(** The columns ["label"] and ["count"] of the frame, row by row. *)
Definition keyed (df : list Loss.Row) : list (Z * Z) :=
  map (fun r => (Loss.label r, Loss.count r)) df.

(** [reset_index], the renaming of the two columns, and
    [trend_df["year"] = trend_df["lossyear"] + 2000], an int64 sum. *)
Definition with_year (summed : list (Z * Z)) : list Row :=
  map (fun kv => {| lossyear := fst kv; loss_pixels := snd kv;
                     year := Int64.add (fst kv) 2000 |}) summed.

(** Lines 49 to 56 of [plot_loss_trend]. *)
Definition trend_df (filtered_df : list Loss.Row) : list Row :=
  sort_values_year (with_year (groupby_sum (keyed filtered_df))).

(** What the function shows: a warning, or the line plot of
    [loss_pixels] against [year]. *)
Inductive shown :=
| st_warning (body : string)
| st_pyplot (xs ys : list Z).

Definition plot_loss_trend (filtered_df : list Loss.Row) : shown :=
  match filtered_df with
  | [] => st_warning "No forest loss points found inside the selected area."
  | _ => let t := trend_df filtered_df in
         st_pyplot (map year t) (map loss_pixels t)
  end.

(** The total held under the key [k] in a list of groups, if any. *)
Fixpoint lookup (k : Z) (groups : list (Z * Z)) : option Z :=
  match groups with
  | [] => None
  | (k', v) :: rest => if (k' =? k)%Z then Some v else lookup k rest
  end.

(** The entries of [count] in the rows labelled [k], in their order. *)
Definition counts_of (k : Z) (filtered_df : list Loss.Row) : list Z :=
  map Loss.count (filter (fun r => (Loss.label r =? k)%Z) filtered_df).

(** The total of [count] over the rows labelled [k], as an integer. *)
Definition total_of (k : Z) (filtered_df : list Loss.Row) : Z :=
  fold_right Z.add 0%Z (counts_of k filtered_df).

(** A row adds its count to the total of its key, or opens the total. *)
Definition joined (total : option Z) (v : Z) : option Z :=
  Some match total with
       | Some t => Int64.add t v
       | None => v
       end.

(** The int64 total of a column: the first entry, and each further entry
    added to it in turn. *)
Definition sum64 (column : list Z) : option Z :=
  match column with
  | [] => None
  | v :: rest => Some (fold_left Int64.add rest v)
  end.

End Trend.

(** ** Geometry, as the shapely calls of the filter use it

    [shape] on a GeoJSON polygon of one ring, and [Polygon.contains] on a
    point.  A ring is closed by shapely when it is not closed already (and
    whenever it has exactly three coordinates) and needs four coordinates
    once closed; no coordinates at all give the empty polygon.  [contains]
    is interior containment: a point of the boundary is not contained. *)

Module Geo.

Record Point := { x : Q; y : Q }.

Definition coord : Type := Q * Q.

Inductive Polygon :=
| Empty
| Shell (ring : list coord).

Definition same_coord (a b : coord) : bool :=
  Qeq_bool (fst a) (fst b) && Qeq_bool (snd a) (snd b).

Definition LinearRing (coordinates : list coord) : result (list coord) :=
  match coordinates with
  | [] => Ok []
  | first :: _ =>
      let ring_closure :=
        (length coordinates =? 3)%nat
        || negb (same_coord first (last coordinates first)) in
      if (length coordinates + (if ring_closure then 1 else 0) <? 4)%nat
      then Raise "ValueError"
      else Ok (if ring_closure then coordinates ++ [first] else coordinates)
  end.

Definition shape (coordinates : list coord) : result Polygon :=
  match coordinates with
  | [] => Ok Empty
  | _ => match LinearRing coordinates with
         | Ok ring => Ok (Shell ring)
         | Raise e => Raise e
         end
  end.

Definition edges (ring : list coord) : list (coord * coord) :=
  combine ring (tl ring).

Definition between (a b v : Q) : bool :=
  (Qle_bool a v && Qle_bool v b) || (Qle_bool b v && Qle_bool v a).

(** The point lies on the segment. *)
Definition on_segment (p : Point) (e : coord * coord) : bool :=
  let '((ax, ay), (bx, by_)) := e in
  Qeq_bool ((bx - ax) * (y p - ay)) ((by_ - ay) * (x p - ax))
  && between ax bx (x p) && between ay by_ (y p).

(** The segment meets the horizontal ray that leaves the point eastwards. *)
Definition crosses (p : Point) (e : coord * coord) : bool :=
  let '((ax, ay), (bx, by_)) := e in
  negb (Bool.eqb (Qltb (y p) ay) (Qltb (y p) by_))
  && Qltb (x p) (ax + (y p - ay) * (bx - ax) / (by_ - ay)).

Definition contains (polygon : Polygon) (p : Point) : bool :=
  match polygon with
  | Empty => false
  | Shell ring =>
      negb (existsb (on_segment p) (edges ring))
      && Nat.odd (length (filter (crosses p) (edges ring)))
  end.

End Geo.

(** ** The spatial filter and the frame it is handed

    [filter_points_in_polygon] assigns [df["point"]] on the frame it
    receives, so the frame is an object of a store and the function a
    computation over the store.  A frame is modelled with the columns of
    the loader: on a frame without rows pandas takes the empty mask for a
    list of column labels and returns a frame without columns, where the
    model returns the columns without rows; the rows agree. *)

Module Frames.

(** A frame of loss rows, with the column ["point"] once it has been
    assigned. *)
Record DataFrame := {
  rows : list Loss.Row;
  point : option (list Geo.Point)
}.

Definition columns (df : DataFrame) : list string :=
  ["lat"; "lon"; "label"; "count"]
  ++ match point df with Some _ => ["point"] | None => [] end.

Definition ref := nat.
Definition store := list DataFrame.

(** A computation: it ends in a value or an exception, and leaves a store. *)
Definition M (A : Type) : Type := store -> result A * store.

Definition ret {A} (a : A) : M A := fun s => (Ok a, s).
Definition raise {A} (e : exn) : M A := fun s => (Raise e, s).
Definition bind {A B} (m : M A) (k : A -> M B) : M B :=
  fun s => match m s with
           | (Ok a, s') => k a s'
           | (Raise e, s') => (Raise e, s')
           end.
Definition lift {A} (r : result A) : M A := fun s => (r, s).

Notation "x <- m ;; k" := (bind m (fun x => k))
  (at level 61, m at next level, right associativity).
Notation "m ;;; k" := (bind m (fun _ => k))
  (at level 61, right associativity).

(** The object a reference denotes.  Python has no reference without an
    object; the model fails on one. *)
Definition deref (r : ref) : M DataFrame :=
  fun s => match nth_error s r with
           | Some df => (Ok df, s)
           | None => (Raise "ReferenceError", s)
           end.

Fixpoint update (s : store) (r : ref) (df : DataFrame) : store :=
  match s, r with
  | [], _ => []
  | _ :: s', O => df :: s'
  | d :: s', S r' => d :: update s' r' df
  end.

(** [df["point"] = values], in place. *)
Definition setitem_point (r : ref) (values : list Geo.Point) : M unit :=
  df <- deref r ;;
  fun s => (Ok tt, update s r {| rows := rows df; point := Some values |}).

(** [df["point"]]. *)
Definition getitem_point (df : DataFrame) : result (list Geo.Point) :=
  match point df with
  | Some values => Ok values
  | None => Raise "KeyError"
  end.

(** A new object at the next free address: what [df[mask].copy()]
    returns. *)
Definition alloc (df : DataFrame) : M ref :=
  fun s => (Ok (List.length s), s ++ [df]).

(** [Point(row["lon"], row["lat"])]. *)
Definition point_of (row : Loss.Row) : Geo.Point :=
  {| Geo.x := Loss.lon row; Geo.y := Loss.lat row |}.

Definition filter_points_in_polygon (df : ref) (geojson_polygon : list Geo.coord)
  : M ref :=
  polygon <- lift (Geo.shape geojson_polygon) ;;
  d <- deref df ;;
  setitem_point df (map point_of (rows d)) ;;;
  d' <- deref df ;;
  points <- lift (getitem_point d') ;;
  let mask := map (Geo.contains polygon) points in
  alloc {| rows := getitem_mask (rows d') mask;
           point := Some (getitem_mask points mask) |}.

(** The row lies inside the polygon: its point is contained. *)
Definition inside (polygon : Geo.Polygon) (row : Loss.Row) : bool :=
  Geo.contains polygon (point_of row).

(** The polygons the specification calls degenerate: fewer than three
    vertices, or a ring whose last vertex is not its first. *)
Definition degenerate (ring : list Geo.coord) : bool :=
  (List.length ring <? 3)%nat
  || match ring with
     | [] => false
     | first :: _ => negb (Geo.same_coord first (last ring first))
     end.

End Frames.

(** ** The numpy calls of [apply_smoothing] *)

Definition bind_result {A B} (r : result A) (k : A -> result B) : result B :=
  match r with
  | Ok a => k a
  | Raise e => Raise e
  end.

Notation "'let!' x ':=' r 'in' k" := (bind_result r (fun x => k))
  (at level 10, x name, r at level 100, k at level 200).

Definition grid := list (list Q).

(** [g[i, j]]. *)
Definition get (g : grid) (i j : nat) : Q := nth j (nth i g []) 0.

(** The array of [n] rows and [m] columns whose entry [(i, j)] is [f i j]. *)
Definition tabulate {A} (n m : nat) (f : nat -> nat -> A) : list (list A) :=
  map (fun i => map (fun j => f i j) (seq 0 m)) (seq 0 n).

Definition map2 {A B C} (f : A -> B -> C) (l1 : list A) (l2 : list B)
  : list C :=
  map (fun ab => f (fst ab) (snd ab)) (combine l1 l2).

Module Np.

(** The least and the greatest entry of an array that has one. *)
Definition least (a : list Q) : Q := fold_left Qmin (tl a) (hd 0 a).
Definition greatest (a : list Q) : Q := fold_left Qmax (tl a) (hd 0 a).

(** [a.min()] and [a.max()]; an empty array has neither. *)
Definition amin (a : list Q) : result Q :=
  match a with
  | [] => Raise "ValueError"
  | _ => Ok (least a)
  end.

Definition amax (a : list Q) : result Q :=
  match a with
  | [] => Raise "ValueError"
  | _ => Ok (greatest a)
  end.

(** [np.linspace(start, stop, num)]: [arange(num) * step + start] with
    [step = (stop - start) / (num - 1)], the last entry set to [stop]. *)
Definition linspace (start stop : Q) (num : nat) : list Q :=
  match num with
  | O => []
  | S O => [start]
  | S div =>
      let step := (stop - start) / inject_Z (Z.of_nat div) in
      map (fun i => inject_Z (Z.of_nat i) * step + start) (seq 0 div)
      ++ [stop]
  end.

(** [np.searchsorted(a, v, side="right")] on a sorted array: the number of
    leading entries that are at most [v]. *)
Fixpoint searchsorted_right (a : list Q) (v : Q) : nat :=
  match a with
  | [] => O
  | e :: a' => if Qle_bool e v then S (searchsorted_right a' v) else O
  end.

(** The bin number [histogramdd] gives a value: [0] is the outlier bin on
    the left, [len(edges)] the one on the right, and a value equal to the
    last edge is shifted one bin to the left. *)
Definition bin_number (edges : list Q) (v : Q) : nat :=
  let n := searchsorted_right edges v in
  if Qeq_bool v (last edges 0) then (n - 1)%nat else n.

Definition monotonic (edges : list Q) : bool :=
  forallb (fun ab => Qle_bool (fst ab) (snd ab)) (combine edges (tl edges)).

(** What the binning needs of the edges [np.linspace(lo, hi, n)] returns,
    however the edges in between are rounded: there are [n] of them, they
    do not descend, the first is [lo] and the last is [hi]. *)
Definition spans (edges : list Q) (lo hi : Q) (n : nat) : Prop :=
  List.length edges = n
  /\ monotonic edges = true
  /\ nth 0 edges 0 == lo
  /\ last edges 0 == hi.

(** The sample lies in the cell [(i, j)] of the histogram, outliers removed. *)
Definition in_cell (xedges yedges : list Q) (i j : nat) (xy : Q * Q) : bool :=
  (bin_number xedges (fst xy) =? S i)%nat
  && (bin_number yedges (snd xy) =? S j)%nat.

(** [np.histogram2d(x, y, bins=[xedges, yedges], weights=weights)[0]]. *)
Definition histogram2d (x y : list Q) (xedges yedges : list Q)
  (weights : option (list Q)) : result grid :=
  if negb (monotonic xedges && monotonic yedges) then Raise "ValueError"
  else match xedges, yedges with
  | [], _ | _, [] => Raise "IndexError"
  | _, _ =>
      let w := match weights with
               | Some w => w
               | None => map (fun _ => 1) x
               end in
      Ok (tabulate (List.length xedges - 1) (List.length yedges - 1)
            (fun i j =>
               Qsum (map snd
                 (filter (fun s => in_cell xedges yedges i j (fst s))
                         (combine (combine x y) w)))))
  end.

Definition zeros_like (g : grid) : grid := map (map (fun _ => 0)) g.

(** [g != 0]. *)
Definition not_equal_zero (g : grid) : list (list bool) :=
  map (map (fun c => negb (Qeq_bool c 0))) g.

(** [np.divide(x1, x2, out=out, where=where)]: the quotient where the mask
    holds, the entry of [out] elsewhere. *)
Definition divide (x1 x2 out : grid) (where_ : list (list bool)) : grid :=
  map2 (map2 (fun (ab : Q * Q) (ow : Q * bool) =>
                if snd ow then fst ab / snd ab else fst ow))
       (map2 (@combine Q Q) x1 x2) (map2 (@combine Q bool) out where_).


End Np.

(** ** [scipy.ndimage.gaussian_filter]

    One pass of [correlate1d] along each axis, axis 0 first, with the
    reversed Gaussian kernel and the boundary mode ["reflect"]
    ([d c b a | a b c d | d c b a]).  The kernel itself is made of
    exponentials; it is a parameter here. *)

Module Ndimage.

Definition reflect (n : nat) (i : Z) : nat :=
  let m := (i mod (2 * Z.of_nat n))%Z in
  if (m <? Z.of_nat n)%Z then Z.to_nat m
  else Z.to_nat (2 * Z.of_nat n - 1 - m).

Definition correlate1d (input : list Q) (weights : list Q) : list Q :=
  let n := List.length input in
  let size1 := Z.of_nat (List.length weights / 2) in
  map (fun i =>
         Qsum (map (fun jw =>
                      snd jw
                      * nth (reflect n (Z.of_nat i + Z.of_nat (fst jw) - size1)%Z)
                            input 0)
                   (combine (seq 0 (List.length weights)) weights)))
      (seq 0 n).

Definition transpose (ncols : nat) (g : grid) : grid :=
  map (fun j => map (fun row => nth j row 0) g) (seq 0 ncols).

Definition correlate1d_axis0 (input : grid) (weights : list Q) : grid :=
  let nrows := List.length input in
  let ncols := List.length (hd [] input) in
  transpose nrows
    (map (fun line => correlate1d line weights) (transpose ncols input)).

Definition correlate1d_axis1 (input : grid) (weights : list Q) : grid :=
  map (fun line => correlate1d line weights) input.

Definition truncate : Q := 4.

Definition gaussian_filter (gaussian_kernel1d : Q -> nat -> list Q)
  (input : grid) (sigma : Q) : grid :=
  let radius := Z.to_nat (Qfloor (truncate * sigma + (1 # 2))) in
  let weights := rev (gaussian_kernel1d sigma radius) in
  correlate1d_axis1 (correlate1d_axis0 input weights) weights.

End Ndimage.

(** ** The classifier scores and [apply_smoothing] *)

Module Scored.

(** A row of numeric [lat], [lon], [prob]: a coerced sample, and a row of
    the frame [apply_smoothing] returns. *)
Record Row := { lat : Q; lon : Q; prob : Q }.

End Scored.

Module Smooth.

(** A cell of the frame read from the predictions file. *)
Inductive cell :=
| Number (q : Q)
| Text (s : string)
| Missing.

Record Raw := { lat : cell; lon : cell; prob : cell }.

Section Libraries.

(** How [pd.to_numeric] reads a string, [None] when it cannot. *)
Variable parse_float : string -> option Q.

(** [scipy.ndimage._filters._gaussian_kernel1d(sigma, 0, radius)]. *)
Variable gaussian_kernel1d : Q -> nat -> list Q.

(** [pd.to_numeric(_, errors="coerce")] on one cell; [None] is NaN. *)
Definition to_numeric (c : cell) : option Q :=
  match c with
  | Number q => Some q
  | Text s => parse_float s
  | Missing => None
  end.

(** Lines 195 to 199: the rows that have a number in each of the three
    columns once coerced. *)
Definition dropna_to_numeric (df : list Raw) : list Scored.Row :=
  flat_map (fun r =>
    match to_numeric (lat r), to_numeric (lon r), to_numeric (prob r) with
    | Some a, Some b, Some c =>
        [{| Scored.lat := a; Scored.lon := b; Scored.prob := c |}]
    | _, _, _ => []
    end) df.

(** [(bins[:-1] + bins[1:]) / 2]. *)
Definition centers (bins : list Q) : list Q :=
  map2 (fun a b => (a + b) / 2) (removelast bins) (tl bins).

(** The two loops over the cells, row-major. *)
Definition smoothed_points (resolution : nat) (lat_centers lon_centers : list Q)
  (smoothed_probs : grid) : list Scored.Row :=
  flat_map (fun i =>
    flat_map (fun j =>
      let prob := get smoothed_probs i j in
      if Qltb 0 prob
      then [{| Scored.lat := nth i lat_centers 0;
               Scored.lon := nth j lon_centers 0;
               Scored.prob := prob |}]
      else [])
      (seq 0 (resolution - 1)))
    (seq 0 (resolution - 1)).

Definition avg_probs_of (heatmap_grid counts : grid) : grid :=
  Np.divide heatmap_grid counts (Np.zeros_like heatmap_grid)
            (Np.not_equal_zero counts).

Definition apply_smoothing (df : list Raw) (resolution : nat)
  : result (list Scored.Row) :=
  let df := dropna_to_numeric df in
  let lats := map Scored.lat df in
  let lons := map Scored.lon df in
  let probs := map Scored.prob df in
  let! lat_min := Np.amin lats in
  let! lat_max := Np.amax lats in
  let lat_bins := Np.linspace lat_min lat_max resolution in
  let! lon_min := Np.amin lons in
  let! lon_max := Np.amax lons in
  let lon_bins := Np.linspace lon_min lon_max resolution in
  let! heatmap_grid :=
    Np.histogram2d lats lons lat_bins lon_bins (Some probs) in
  let! counts := Np.histogram2d lats lons lat_bins lon_bins None in
  let avg_probs := avg_probs_of heatmap_grid counts in
  let smoothed_probs :=
    Ndimage.gaussian_filter gaussian_kernel1d avg_probs (3 # 2) in
  let lat_centers := centers lat_bins in
  let lon_centers := centers lon_bins in
  Ok (smoothed_points resolution lat_centers lon_centers smoothed_probs).

(** *** The intermediate arrays, for a frame of coerced samples *)

Definition lat_bins (samples : list Scored.Row) (resolution : nat) : list Q :=
  Np.linspace (Np.least (map Scored.lat samples))
              (Np.greatest (map Scored.lat samples)) resolution.

Definition lon_bins (samples : list Scored.Row) (resolution : nat) : list Q :=
  Np.linspace (Np.least (map Scored.lon samples))
              (Np.greatest (map Scored.lon samples)) resolution.

(** The samples that the histogram puts in the cell [(i, j)]. *)
Definition cell_samples (samples : list Scored.Row) (resolution i j : nat)
  : list Scored.Row :=
  filter (fun s => Np.in_cell (lat_bins samples resolution)
                              (lon_bins samples resolution) i j
                              (Scored.lat s, Scored.lon s))
         samples.

(** The entries [(i, j)] of [heatmap_grid], of [counts] and of [avg_probs]. *)
Definition heat_cell (samples : list Scored.Row) (resolution i j : nat) : Q :=
  Qsum (map Scored.prob (cell_samples samples resolution i j)).

Definition count_cell (samples : list Scored.Row) (resolution i j : nat) : Q :=
  Qsum (map (fun _ => 1) (cell_samples samples resolution i j)).

Definition avg_cell (samples : list Scored.Row) (resolution i j : nat) : Q :=
  if negb (Qeq_bool (count_cell samples resolution i j) 0)
  then heat_cell samples resolution i j / count_cell samples resolution i j
  else 0.

Definition heatmap_grid (samples : list Scored.Row) (resolution : nat) : grid :=
  tabulate (resolution - 1) (resolution - 1) (heat_cell samples resolution).

Definition counts (samples : list Scored.Row) (resolution : nat) : grid :=
  tabulate (resolution - 1) (resolution - 1) (count_cell samples resolution).

Definition avg_probs (samples : list Scored.Row) (resolution : nat) : grid :=
  tabulate (resolution - 1) (resolution - 1) (avg_cell samples resolution).

Definition smoothed_probs (samples : list Scored.Row) (resolution : nat)
  : grid :=
  Ndimage.gaussian_filter gaussian_kernel1d (avg_probs samples resolution)
                          (3 # 2).

(** The cells in the order of the two loops, and the point a cell emits. *)
Definition cells (resolution : nat) : list (nat * nat) :=
  list_prod (seq 0 (resolution - 1)) (seq 0 (resolution - 1)).

Definition cell_point (lat_centers lon_centers : list Q) (smoothed : grid)
  (c : nat * nat) : Scored.Row :=
  {| Scored.lat := nth (fst c) lat_centers 0;
     Scored.lon := nth (snd c) lon_centers 0;
     Scored.prob := get smoothed (fst c) (snd c) |}.

End Libraries.

(** A kernel of rationals to run the model with: the thirteen weights
    [exp(-k^2 / 4.5)], [k = -6 .. 6], rounded to six decimals and divided
    by their total. *)
Definition rational_kernel (sigma : Q) (radius : nat) : list Q :=
  map (fun a => inject_Z a / 3759902)
    [335; 3866; 28566; 135335; 411112; 800737; 1000000;
     800737; 411112; 135335; 28566; 3866; 335]%Z.

(** A reader of strings that takes none of them for a number. *)
Definition no_parse (s : string) : option Q := None.

End Smooth.

(** ** Risk levels of the Classifier tab

    [LOW, MED, HIGH = 0.04, 0.19, 0.29] and the chain of [if]/[elif] on the
    selected radio option that follows it. *)

Module Risk.

Definition LOW : Q := 4 # 100.
Definition MED : Q := 19 # 100.
Definition HIGH : Q := 29 # 100.

Definition select (risk_level : string) (classifier_df : list Scored.Row)
  : list Scored.Row :=
  if String.eqb risk_level "High" then
    filter (fun r => Qgeb (Scored.prob r) HIGH) classifier_df
  else if String.eqb risk_level "Medium" then
    filter (fun r => Qgeb (Scored.prob r) MED && Qltb (Scored.prob r) HIGH)
           classifier_df
  else if String.eqb risk_level "Low" then
    filter (fun r => Qgeb (Scored.prob r) LOW && Qltb (Scored.prob r) MED)
           classifier_df
  else
    filter (fun r => Qgeb (Scored.prob r) LOW) classifier_df.

(** [get_color]: the colour of a displayed row. *)
Definition get_color (prob : Q) : list Z :=
  if Qgeb prob HIGH then [139; 0; 0]%Z
  else if Qgeb prob MED then [255; 69; 0]%Z
  else [255; 165; 0]%Z.

End Risk.

(** ** The rest of the Classifier tab and its loader *)

Module Classifier.

(** [df.dropna()] on the frame read from the predictions file. *)
Definition isna (c : Smooth.cell) : bool :=
  match c with
  | Smooth.Missing => true
  | _ => false
  end.

Definition dropna (df : list Smooth.Raw) : list Smooth.Raw :=
  filter (fun r => negb (isna (Smooth.lat r) || isna (Smooth.lon r)
                         || isna (Smooth.prob r))) df.

(** [loadClassifierPredictions]; the file is [None] when the path does not
    exist, and [st.stop()] then ends the script. *)
Definition loadClassifierPredictions (parse_float : string -> option Q)
  (gaussian_kernel1d : Q -> nat -> list Q) (file : option (list Smooth.Raw))
  : result (list Scored.Row) :=
  match file with
  | None => Raise "StopException"
  | Some df =>
      Smooth.apply_smoothing parse_float gaussian_kernel1d (dropna df) 300
  end.

(** The columns of [pd.DataFrame(smoothed_points)]: those of its records,
    none when there is no record. *)
Definition columns (classifier_df : list Scored.Row) : list string :=
  match classifier_df with
  | [] => []
  | _ => ["lat"; "lon"; "prob"]
  end.

(** Lines 446 to 469: the rows of the selected level, each with its
    colour; [filtered_df["prob"]] needs the column. *)
Definition view (risk_level : string) (classifier_df : list Scored.Row)
  : result (list (Scored.Row * list Z)) :=
  if existsb (String.eqb "prob") (columns classifier_df)
  then Ok (map (fun r => (r, Risk.get_color (Scored.prob r)))
               (Risk.select risk_level classifier_df))
  else Raise "KeyError".

(** The total of the entries of a grid. *)
Definition grid_total (g : grid) : Q := Qsum (map Qsum g).

End Classifier.

(** ** The geometry column of the loss table

    [parse_geo] of [loadHistoricalData], on the value that [json.loads]
    returns, and [df[".geo"].apply(parse_geo)]. *)

Module Json.

Local Unset Elimination Schemes.

Inductive value :=
| Null
| Bool (b : bool)
| Number (q : Q)
| Str (s : string)
| Arr (items : list value)
| Obj (members : list (string * value)).

Local Set Elimination Schemes.

(** [d[key]] with a string key. *)
Definition getitem (d : value) (key : string) : result value :=
  match d with
  | Obj members =>
      match find (fun kv => String.eqb (fst kv) key) members with
      | Some kv => Ok (snd kv)
      | None => Raise "KeyError"
      end
  | _ => Raise "TypeError"
  end.

(** What a value yields when it is iterated: the items of an array, the
    characters of a string, the keys of an object. *)
Definition iterate (v : value) : result (list value) :=
  match v with
  | Arr items => Ok items
  | Str s => Ok (map (fun c => Str (String c EmptyString))
                     (list_ascii_of_string s))
  | Obj members => Ok (map (fun kv => Str (fst kv)) members)
  | _ => Raise "TypeError"
  end.

(** [a, b = v]. *)
Definition unpack2 (v : value) : result (value * value) :=
  let! items := iterate v in
  match items with
  | [a; b] => Ok (a, b)
  | _ => Raise "ValueError"
  end.

End Json.

Module Geometry.

Section Loads.

(** [json.loads]. *)
Variable json_loads : string -> result Json.value.

(** The pair is [pd.Series([lat, lon])]. *)
Definition parse_geo (geo_str : string) : result (Json.value * Json.value) :=
  let! geo_dict := json_loads geo_str in
  let! coordinates := Json.getitem geo_dict "coordinates" in
  let! lon_lat := Json.unpack2 coordinates in
  Ok (snd lon_lat, fst lon_lat).

(** [series.apply(f)]: [f] on each entry in turn; the first exception ends
    the call. *)
Fixpoint apply {A B} (f : A -> result B) (series : list A) : result (list B) :=
  match series with
  | [] => Ok []
  | a :: rest =>
      let! b := f a in
      let! bs := apply f rest in
      Ok (b :: bs)
  end.

(** [df[["lat", "lon"]] = df[".geo"].apply(parse_geo)]: the two columns
    that the assignment stores, row by row.  On a column without entries
    [apply] returns an empty series, not a frame of two columns, and the
    assignment to the two keys raises ValueError. *)
Definition parse_column (geo : list string)
  : result (list (Json.value * Json.value)) :=
  let! parsed := apply parse_geo geo in
  match parsed with
  | [] => Raise "ValueError"
  | _ :: _ => Ok parsed
  end.

End Loads.

(** The loss row of a parsed pair of numbers, with its label and count. *)
Definition loss_row (lat_lon : Json.value * Json.value) (label count : Z)
  : option Loss.Row :=
  match lat_lon with
  | (Json.Number la, Json.Number lo) =>
      Some {| Loss.lat := la; Loss.lon := lo;
              Loss.label := label; Loss.count := count |}
  | _ => None
  end.

End Geometry.

(** ** The forecast table and the LSTM tab *)

Module Lstm.

(** A row of the file, [None] for a missing value. *)
Record Raw := {
  raw_year : option Q;
  raw_predicted_loss : option Q;
  raw_lat : option Q;
  raw_lon : option Q
}.

Record Row := { year : Z; predicted_loss : Z; lat : Q; lon : Q }.

(** [astype(int)] on a float: the fraction is cut off. *)
Definition astype_int (q : Q) : Z :=
  if Qle_bool 0 q then Qfloor q else Qceiling q.

(** A float whose integer part is an int64.  On any other float the
    result of [astype(int)] is not defined: it depends on the machine. *)
Definition fits_int64 (q : Q) : Prop :=
  inject_Z Int64.min_int - 1 < q /\ q < inject_Z Int64.max_int + 1.

(** A row with a missing value. *)
Definition isna (r : Raw) : bool :=
  match raw_year r, raw_predicted_loss r, raw_lat r, raw_lon r with
  | Some _, Some _, Some _, Some _ => false
  | _, _, _, _ => true
  end.

(** The row of the file that holds the four values, and the row of the
    table that they make. *)
Definition complete (v : Q * Q * Q * Q) : Raw :=
  let '(y, p, la, lo) := v in
  {| raw_year := Some y; raw_predicted_loss := Some p;
     raw_lat := Some la; raw_lon := Some lo |}.

Definition cut (v : Q * Q * Q * Q) : Row :=
  let '(y, p, la, lo) := v in
  {| year := astype_int y; predicted_loss := astype_int p;
     lat := la; lon := lo |}.

(** [df.dropna()] and the two [astype(int)]. *)
Definition dropna_astype (df : list Raw) : list Row :=
  flat_map (fun r =>
    match raw_year r, raw_predicted_loss r, raw_lat r, raw_lon r with
    | Some y, Some p, Some la, Some lo =>
        [{| year := astype_int y; predicted_loss := astype_int p;
            lat := la; lon := lo |}]
    | _, _, _, _ => []
    end) df.

Definition loadLSTMPredictions (file : option (list Raw)) : result (list Row) :=
  match file with
  | None => Raise "StopException"
  | Some df => Ok (dropna_astype df)
  end.

(** [series.unique()]: the values in the order of their first occurrence. *)
Fixpoint unique (l : list Z) : list Z :=
  match l with
  | [] => []
  | v :: l' => v :: filter (fun w => negb (w =? v)%Z) (unique l')
  end.

(** [sorted(_)]. *)
Fixpoint insert (v : Z) (l : list Z) : list Z :=
  match l with
  | [] => [v]
  | w :: l' => if (v <=? w)%Z then v :: l else w :: insert v l'
  end.

Definition sorted (l : list Z) : list Z := fold_right insert [] l.

(** [years = sorted(lstm_df["year"].unique())]. *)
Definition years (lstm_df : list Row) : list Z :=
  sorted (unique (map year lstm_df)).

(** Line 577; the radio gives [None] when it has no option. *)
Definition df_year (lstm_df : list Row) (selected_year : option Z) : list Row :=
  filter (fun r =>
            match selected_year with
            | Some y => (year r =? y)%Z
            | None => false
            end
            && (predicted_loss r =? 1)%Z) lstm_df.

Inductive shown :=
| heatmap (data : list Row)
| st_warning (body : string).

(** Lines 579 to 601. *)
Definition tab (lstm_df : list Row) (selected_year : option Z) : shown :=
  match df_year lstm_df selected_year with
  | [] => st_warning "No predicted deforestation points for the selected year."
  | data => heatmap data
  end.

End Lstm.

(** ** The gauges *)

Module Gauge.

Record Figure := {
  x : list Q;
  colors : list string;
  label : string;
  percent : Q
}.

(** [plot_circular_metric]; [ax.pie] refuses a negative wedge. *)
Definition plot_circular_metric (label : string) (value : Q) : result Figure :=
  let color :=
    if Qgeb value 75 then "#2bd47d"
    else if Qgeb value 50 then "#f9c74f"
    else "#e63946" in
  let x := [value; 100 - value] in
  if existsb (fun v => Qltb v 0) x then Raise "ValueError"
  else Ok {| x := x; colors := [color; "#333333"];
             label := label; percent := value |}.

End Gauge.

(** ** The drawn polygon in the session, and the Historical Trends section *)

Module Drawing.

(** The two keys of [st.session_state] that [draw_polygon_map] writes;
    [None] for a key that is absent. *)
Record State := {
  polygon : option (list Geo.coord);
  polygon_updated : option bool
}.

Definition initial : State := {| polygon := None; polygon_updated := None |}.

(** Lines 134 to 145, on what [st_folium] returned: [None] for a value
    that is false ([None] or an empty dict), else the entry
    ["all_drawings"], itself [None] when absent or null. *)
Definition handle (returned : option (option (list (list Geo.coord))))
  (st : State) : State :=
  match returned with
  | None => st
  | Some all_drawings =>
      match all_drawings with
      | Some (first :: _) =>
          {| polygon := Some first; polygon_updated := Some true |}
      | _ =>
          match polygon st with
          | Some _ => {| polygon := None; polygon_updated := Some false |}
          | None => st
          end
      end
  end.

Inductive item :=
| found (points : nat)
| trend (t : Trend.shown)
| caption
| info.

(** Lines 395 to 402. *)
Definition historical_trends (st : State) (loss_df : Frames.ref)
  : Frames.M (list item) :=
  match polygon st with
  | Some geojson_polygon =>
      Frames.bind (Frames.filter_points_in_polygon loss_df geojson_polygon)
        (fun filtered_df =>
           Frames.bind (Frames.deref filtered_df)
             (fun d =>
                Frames.ret [found (List.length (Frames.rows d));
                            trend (Trend.plot_loss_trend (Frames.rows d));
                            caption]))
  | None => Frames.ret [info]
  end.

End Drawing.

(** ** Navigation between the sections *)

Module Nav.




Inductive page :=
| Introduction
| HistoricalTrends
| Models
| Insights
| About.


Inductive outcome :=
| rerun
| rendered (p : page).



End Nav.

(** ** Concrete inputs

    The inputs of the examples of the specification, and small inputs on
    which the functions above are run. *)

Module Data.

(** A scored row of the given probability. *)
Definition row (p : Q) : Scored.Row :=
  {| Scored.lat := 0; Scored.lon := 0; Scored.prob := p |}.

Definition loss (la lo : Q) (l c : Z) : Loss.Row :=
  {| Loss.lat := la; Loss.lon := lo; Loss.label := l; Loss.count := c |}.

(** The three samples of the aggregation example: [lossYear] 1 with
    counts 10 and 5, [lossYear] 2 with count 3. *)
Definition three_samples : list Loss.Row :=
  [loss 0 0 1 10; loss 0 0 1 5; loss 0 0 2 3].

(** Two samples of the year 2001 whose counts are [2 ^ 62] each. *)
Definition two_large_counts : list Loss.Row :=
  [loss 0 0 1 4611686018427387904; loss 0 0 1 4611686018427387904].

(** A loss sample at the given longitude and latitude. *)
Definition at_ (lo la : Q) : Loss.Row := loss la lo 1 1.

(** The square and the three samples of the containment example; a
    vertex is written (lon, lat). *)
Definition square : list Geo.coord := [(0, 0); (0, 10); (10, 10); (10, 0)].

Definition square_samples : list Loss.Row :=
  [at_ 5 5; at_ 15 15; at_ (-1) 5].

(** A frame as the loader returns it, without the column ["point"]. *)
Definition loss_df (l : list Loss.Row) : Frames.DataFrame :=
  {| Frames.rows := l; Frames.point := None |}.

(** A ring of three vertices whose last vertex is not its first, and a
    ring of two vertices. *)
Definition open_triangle : list Geo.coord := [(0, 0); (10, 0); (0, 10)].
Definition two_vertices : list Geo.coord := [(0, 0); (10, 0)].

(** Frames of scores: one without rows, one whose only row has no
    probability, one of a single sample, one of three samples. *)
Definition scored (la lo p : Q) : Smooth.Raw :=
  {| Smooth.lat := Smooth.Number la; Smooth.lon := Smooth.Number lo;
     Smooth.prob := Smooth.Number p |}.

Definition no_rows : list Smooth.Raw := [].

Definition row_without_prob : list Smooth.Raw :=
  [ {| Smooth.lat := Smooth.Number 5; Smooth.lon := Smooth.Number 7;
       Smooth.prob := Smooth.Missing |} ].

Definition one_sample : list Smooth.Raw := [scored 5 7 (1 # 2)].

(** Two samples whose latitudes, 50 and [50 + 2 ^ -47], are neighbours
    among the binary64 numbers. *)
Definition two_close_scores : list Smooth.Raw :=
  [scored 50 0 (1 # 2);
   scored (7036874417766401 # 140737488355328) 3 (1 # 2)].

(** Four edges from 50 to [50 + 2 ^ -47] as binary64 rounds them: the two
    edges in between are no binary64 numbers, and the nearest ones are
    the two ends. *)
Definition close_lat_edges : list Q :=
  [50; 50; 7036874417766401 # 140737488355328;
   7036874417766401 # 140737488355328].

Definition three_scores : list Smooth.Raw :=
  [scored 0 0 (1 # 2); scored 2 4 (1 # 4); scored 1 2 1].

(** Three rows of a forecast file: the second has no longitude. *)
Definition forecast_rows : list Lstm.Raw :=
  [ {| Lstm.raw_year := Some 2024; Lstm.raw_predicted_loss := Some (17 # 10);
       Lstm.raw_lat := Some 53; Lstm.raw_lon := Some (-115) |};
    {| Lstm.raw_year := Some 2024; Lstm.raw_predicted_loss := Some 1;
       Lstm.raw_lat := Some 54; Lstm.raw_lon := None |};
    {| Lstm.raw_year := Some 2025; Lstm.raw_predicted_loss := Some 0;
       Lstm.raw_lat := Some 55; Lstm.raw_lon := Some (-114) |} ].

End Data.

(** * Properties *)

(** ** Comparisons *)

Lemma Qltb_lt (a b : Q) : Qltb a b = true <-> a < b.
Proof.
  unfold Qltb. rewrite negb_true_iff, <- not_true_iff_false, Qle_bool_iff.
  split; [apply Qnot_le_lt | apply Qlt_not_le].
Qed.

Lemma Qltb_ge (a b : Q) : Qltb a b = false <-> b <= a.
Proof.
  unfold Qltb. rewrite negb_false_iff. apply Qle_bool_iff.
Qed.

Lemma Qgeb_le (a b : Q) : Qgeb a b = true <-> b <= a.
Proof. apply Qle_bool_iff. Qed.

Lemma Qgeb_lt (a b : Q) : Qgeb a b = false <-> a < b.
Proof.
  unfold Qgeb. rewrite <- not_true_iff_false, Qle_bool_iff.
  split; [apply Qnot_le_lt | apply Qlt_not_le].
Qed.

Lemma Qle_bool_false (a b : Q) : Qle_bool a b = false <-> b < a.
Proof. exact (Qgeb_lt b a). Qed.

Lemma Qeq_bool_false (a b : Q) : Qeq_bool a b = false <-> ~ a == b.
Proof.
  rewrite <- not_true_iff_false, Qeq_bool_iff. reflexivity.
Qed.

(** ** Risk levels *)

Module RiskFacts.
Import Risk Data.

Lemma select_high df r :
  In r (select "High" df) <-> In r df /\ HIGH <= Scored.prob r.
Proof.
  unfold select; simpl. rewrite filter_In, Qgeb_le. reflexivity.
Qed.

Lemma select_medium df r :
  In r (select "Medium" df)
  <-> In r df /\ MED <= Scored.prob r /\ Scored.prob r < HIGH.
Proof.
  unfold select; simpl.
  rewrite filter_In, andb_true_iff, Qgeb_le, Qltb_lt. reflexivity.
Qed.

Lemma select_low df r :
  In r (select "Low" df)
  <-> In r df /\ LOW <= Scored.prob r /\ Scored.prob r < MED.
Proof.
  unfold select; simpl.
  rewrite filter_In, andb_true_iff, Qgeb_le, Qltb_lt. reflexivity.
Qed.

Lemma select_all df r :
  In r (select "All" df) <-> In r df /\ LOW <= Scored.prob r.
Proof.
  unfold select; simpl. rewrite filter_In, Qgeb_le. reflexivity.
Qed.

(** The colour of a row follows the same thresholds. *)
Lemma get_color_by_level p :
  (HIGH <= p -> get_color p = [139; 0; 0]%Z)
  /\ (MED <= p -> p < HIGH -> get_color p = [255; 69; 0]%Z)
  /\ (p < MED -> get_color p = [255; 165; 0]%Z).
Proof.
  unfold get_color. repeat split.
  - intros H. rewrite (proj2 (Qgeb_le p HIGH)) by exact H. reflexivity.
  - intros H1 H2. rewrite (proj2 (Qgeb_lt p HIGH)) by exact H2.
    rewrite (proj2 (Qgeb_le p MED)) by exact H1. reflexivity.
  - intros H. assert (p < HIGH) by (unfold HIGH, MED in *; lra).
    rewrite (proj2 (Qgeb_lt p HIGH)) by assumption.
    rewrite (proj2 (Qgeb_lt p MED)) by exact H. reflexivity.
Qed.

(** C8.  The thresholds are 0.04, 0.19 and 0.29.  A row is kept under "Low"
    exactly when its probability lies in [LOW, MED), under "Medium" exactly
    when it lies in [MED, HIGH), under "High" exactly when it is at least
    HIGH, and under "All" exactly when it is at least LOW; so a probability
    below LOW is kept under no selection.  A row of probability 0.19 is kept
    under "Medium" only, one of 0.29 under "High" only, one of 0.03 under
    none of the three, nor under "All". *)
Theorem risk_levels_half_open :
  (LOW == 4 # 100 /\ MED == 19 # 100 /\ HIGH == 29 # 100)
  /\ (forall df r,
        (In r (select "Low" df)
         <-> In r df /\ LOW <= Scored.prob r /\ Scored.prob r < MED)
        /\ (In r (select "Medium" df)
            <-> In r df /\ MED <= Scored.prob r /\ Scored.prob r < HIGH)
        /\ (In r (select "High" df) <-> In r df /\ HIGH <= Scored.prob r)
        /\ (In r (select "All" df) <-> In r df /\ LOW <= Scored.prob r))
  /\ (select "Low" [row (19 # 100)] = []
      /\ select "Medium" [row (19 # 100)] = [row (19 # 100)]
      /\ select "High" [row (19 # 100)] = [])
  /\ (select "Low" [row (29 # 100)] = []
      /\ select "Medium" [row (29 # 100)] = []
      /\ select "High" [row (29 # 100)] = [row (29 # 100)])
  /\ (select "Low" [row (3 # 100)] = []
      /\ select "Medium" [row (3 # 100)] = []
      /\ select "High" [row (3 # 100)] = []
      /\ select "All" [row (3 # 100)] = []).
Proof.
  split; [repeat split; reflexivity |].
  split.
  { intros df r.
    split; [apply select_low |].
    split; [apply select_medium |].
    split; [apply select_high | apply select_all]. }
  repeat split; reflexivity.
Qed.

End RiskFacts.

(** ** The yearly trend *)

Module TrendFacts.
Import Trend.

(** *** Sums that wrap *)

Lemma wrap_spec z :
  exists q, Int64.wrap z = (z + q * 18446744073709551616)%Z
            /\ (-9223372036854775808 <= Int64.wrap z
                <= 9223372036854775807)%Z.
Proof.
  exists (- ((z - Int64.min_int) / Int64.modulus))%Z.
  unfold Int64.wrap, Int64.min_int, Int64.modulus.
  Z.div_mod_to_equations. lia.
Qed.

Ltac in_range H :=
  unfold Int64.in_range, Int64.min_int, Int64.max_int in H.

Lemma wrap_in_range z : Int64.in_range z -> Int64.wrap z = z.
Proof.
  intros H. in_range H. destruct (wrap_spec z) as (q & E & R). lia.
Qed.

Lemma wrap_range z : Int64.in_range (Int64.wrap z).
Proof.
  unfold Int64.in_range, Int64.min_int, Int64.max_int.
  destruct (wrap_spec z) as (q & E & R). exact R.
Qed.

Lemma wrap_add_l a b : Int64.wrap (Int64.wrap a + b) = Int64.wrap (a + b).
Proof.
  destruct (wrap_spec a) as (q & E & R).
  destruct (wrap_spec (Int64.wrap a + b)) as (q1 & E1 & R1).
  destruct (wrap_spec (a + b)) as (q2 & E2 & R2). lia.
Qed.

Lemma wrap_add_r a b : Int64.wrap (a + Int64.wrap b) = Int64.wrap (a + b).
Proof.
  destruct (wrap_spec b) as (q & E & R).
  destruct (wrap_spec (a + Int64.wrap b)) as (q1 & E1 & R1).
  destruct (wrap_spec (a + b)) as (q2 & E2 & R2). lia.
Qed.

Lemma add_2000_inj a b :
  Int64.in_range a -> Int64.in_range b ->
  Int64.add a 2000 = Int64.add b 2000 -> a = b.
Proof.
  intros Ha Hb H. in_range Ha. in_range Hb. unfold Int64.add in H.
  destruct (wrap_spec (a + 2000)) as (q1 & E1 & R1).
  destruct (wrap_spec (b + 2000)) as (q2 & E2 & R2). lia.
Qed.

(** The int64 total of a column with more than one entry is the total of
    its entries, wrapped once. *)
Lemma fold_add_wrap l : forall t,
  l <> [] ->
  fold_left Int64.add l t = Int64.wrap (t + fold_right Z.add 0%Z l).
Proof.
  induction l as [|v l IH]; intros t Hne; [congruence|].
  simpl. destruct l as [|w l].
  - simpl. unfold Int64.add. f_equal. lia.
  - rewrite IH by discriminate. unfold Int64.add.
    rewrite wrap_add_l. f_equal. simpl. lia.
Qed.

Lemma sum64_in_range l v :
  Forall Int64.in_range l -> sum64 l = Some v ->
  v = Int64.wrap (fold_right Z.add 0%Z l).
Proof.
  destruct l as [|a l]; [discriminate|]. intros Hl H.
  injection H as <-. inversion Hl; subst.
  destruct l as [|b l].
  - simpl. rewrite Z.add_0_r. symmetry. apply wrap_in_range. assumption.
  - rewrite fold_add_wrap by discriminate. reflexivity.
Qed.

Lemma sum64_Permutation l l' : Permutation l l' -> sum64 l = sum64 l'.
Proof.
  intros Hp.
  assert (Hsum : forall a b : list Z, Permutation a b ->
            fold_right Z.add 0%Z a = fold_right Z.add 0%Z b).
  { induction 1; simpl; lia. }
  destruct l as [|a [|b l]].
  - apply Permutation_nil in Hp. subst. reflexivity.
  - apply Permutation_length_1_inv in Hp. subst. reflexivity.
  - destruct l' as [|a' [|b' l']].
    + apply Permutation_sym, Permutation_nil in Hp. discriminate.
    + apply Permutation_length in Hp. discriminate.
    + unfold sum64. rewrite !fold_add_wrap by discriminate.
      do 2 f_equal. apply (Hsum _ _ Hp).
Qed.

(** *** The groups *)

Lemma keys_group_add k k' v g :
  In k (map fst (group_add k' v g)) <-> k = k' \/ In k (map fst g).
Proof.
  induction g as [|[k0 v0] g IH]; simpl.
  - intuition.
  - destruct (k' <? k0)%Z; [simpl; intuition|].
    destruct (k' =? k0)%Z eqn:Heq.
    + apply Z.eqb_eq in Heq; subst; simpl; intuition.
    + simpl. rewrite IH. intuition.
Qed.

Lemma sorted_group_add k v g :
  StronglySorted Z.lt (map fst g) ->
  StronglySorted Z.lt (map fst (group_add k v g)).
Proof.
  induction g as [|[k0 v0] g IH]; simpl; intros Hs.
  - repeat constructor.
  - inversion Hs as [|? ? Hs' Hall]; subst.
    destruct (k <? k0)%Z eqn:Hlt.
    + apply Z.ltb_lt in Hlt. simpl. constructor; [exact Hs|].
      constructor; [exact Hlt|].
      eapply Forall_impl; [|exact Hall]. simpl; intros; lia.
    + destruct (k =? k0)%Z eqn:Heq; [simpl; exact Hs|].
      apply Z.ltb_ge in Hlt. apply Z.eqb_neq in Heq.
      simpl. constructor; [apply IH; exact Hs'|].
      apply Forall_forall. intros z Hz.
      apply keys_group_add in Hz. destruct Hz as [->|Hz]; [lia|].
      rewrite Forall_forall in Hall. apply Hall, Hz.
Qed.

Lemma lookup_fresh k g : ~ In k (map fst g) -> lookup k g = None.
Proof.
  induction g as [|[k0 v0] g IH]; simpl; intros Hn; [reflexivity|].
  destruct (k0 =? k)%Z eqn:Heq.
  - apply Z.eqb_eq in Heq. exfalso; apply Hn; left; exact Heq.
  - apply IH. intros H; apply Hn; right; exact H.
Qed.

Lemma lookup_key k g : In k (map fst g) <-> lookup k g <> None.
Proof.
  induction g as [|[k0 v0] g IH]; simpl; [intuition congruence|].
  destruct (k0 =? k)%Z eqn:Heq.
  - apply Z.eqb_eq in Heq. split; [discriminate | auto].
  - apply Z.eqb_neq in Heq. rewrite <- IH. intuition.
Qed.

Lemma lookup_entry k v g :
  StronglySorted Z.lt (map fst g) -> In (k, v) g -> lookup k g = Some v.
Proof.
  induction g as [|[k0 v0] g IH]; simpl; intros Hs Hin; [contradiction|].
  inversion Hs as [|? ? Hs' Hall]; subst.
  rewrite Forall_forall in Hall.
  destruct Hin as [Heq|Hin].
  - inversion Heq; subst. rewrite Z.eqb_refl. reflexivity.
  - assert (Hk : (k0 < k)%Z) by (apply Hall, (in_map fst _ _ Hin)).
    destruct (k0 =? k)%Z eqn:Heq; [apply Z.eqb_eq in Heq; lia|].
    apply IH; assumption.
Qed.

Lemma lookup_group_add k k' v g :
  StronglySorted Z.lt (map fst g) ->
  lookup k (group_add k' v g)
  = if (k' =? k)%Z then joined (lookup k g) v else lookup k g.
Proof.
  induction g as [|[k0 v0] g IH]; intros Hs.
  - simpl. destruct (k' =? k)%Z; reflexivity.
  - simpl in Hs. inversion Hs as [|? ? Hs' Hall]; subst.
    rewrite Forall_forall in Hall. simpl group_add.
    destruct (k' <? k0)%Z eqn:Hlt.
    + apply Z.ltb_lt in Hlt. simpl lookup at 1.
      destruct (k' =? k)%Z eqn:Hk; [|reflexivity].
      apply Z.eqb_eq in Hk. subst k'.
      rewrite (lookup_fresh k ((k0, v0) :: g)); [reflexivity|].
      simpl. intros [E|E]; [lia|]. apply Hall in E. lia.
    + apply Z.ltb_ge in Hlt. destruct (k' =? k0)%Z eqn:Heq.
      * apply Z.eqb_eq in Heq. subst k0. simpl.
        destruct (k' =? k)%Z; reflexivity.
      * apply Z.eqb_neq in Heq. simpl.
        destruct (k0 =? k)%Z eqn:Hk0.
        -- apply Z.eqb_eq in Hk0. subst k0.
           destruct (k' =? k)%Z eqn:Hk; [apply Z.eqb_eq in Hk; lia|].
           reflexivity.
        -- apply IH, Hs'.
Qed.

Lemma counts_of_cons r df k :
  counts_of k (r :: df)
  = if (Loss.label r =? k)%Z then Loss.count r :: counts_of k df
    else counts_of k df.
Proof.
  unfold counts_of; simpl. destruct (Loss.label r =? k)%Z; reflexivity.
Qed.

Lemma total_of_cons r df k :
  total_of k (r :: df)
  = ((if (Loss.label r =? k)%Z then Loss.count r else 0) + total_of k df)%Z.
Proof.
  unfold total_of. rewrite counts_of_cons.
  destruct (Loss.label r =? k)%Z; simpl; lia.
Qed.

Lemma groups_fold df : forall acc,
  let g := fold_left (fun groups kv => group_add (fst kv) (snd kv) groups)
                     (keyed df) acc in
  StronglySorted Z.lt (map fst acc) ->
  StronglySorted Z.lt (map fst g)
  /\ (forall k, lookup k g = fold_left joined (counts_of k df) (lookup k acc))
  /\ (forall k, In k (map fst g)
                <-> In k (map fst acc) \/ In k (map Loss.label df)).
Proof.
  induction df as [|r df IH]; intros acc; simpl; intros Hacc.
  - split; [exact Hacc|]. split; [reflexivity|]. intuition.
  - destruct (IH (group_add (Loss.label r) (Loss.count r) acc)
                (sorted_group_add _ _ _ Hacc)) as (Hs & Hv & Hk).
    split; [exact Hs|]. split.
    + intros k. rewrite Hv, lookup_group_add, counts_of_cons by exact Hacc.
      destruct (Loss.label r =? k)%Z; reflexivity.
    + intros k. rewrite Hk, keys_group_add. intuition.
Qed.

Lemma fold_joined l : forall t,
  fold_left joined l (Some t) = Some (fold_left Int64.add l t).
Proof.
  induction l as [|v l IH]; intros t; simpl; [reflexivity|]. apply IH.
Qed.

Lemma fold_joined_sum64 l : fold_left joined l None = sum64 l.
Proof.
  destruct l as [|v l]; [reflexivity|]. simpl. apply fold_joined.
Qed.

(** What [groupby_sum] returns: the keys in ascending order, each label
    of the frame once, each with the int64 total of its rows. *)
Lemma groupby_sum_spec df :
  StronglySorted Z.lt (map fst (groupby_sum (keyed df)))
  /\ (forall k, lookup k (groupby_sum (keyed df)) = sum64 (counts_of k df))
  /\ (forall k, In k (map fst (groupby_sum (keyed df)))
                <-> In k (map Loss.label df)).
Proof.
  destruct (groups_fold df [] (SSorted_nil _)) as (Hs & Hv & Hk).
  split; [exact Hs|]. split.
  - intros k. unfold groupby_sum. rewrite Hv. apply fold_joined_sum64.
  - intros k. unfold groupby_sum. rewrite Hk. simpl. tauto.
Qed.

Lemma counts_of_in_range df k :
  Forall Loss.int64 df -> Forall Int64.in_range (counts_of k df).
Proof.
  intros H. unfold counts_of. apply Forall_forall. intros v Hv.
  apply in_map_iff in Hv. destruct Hv as (r & <- & Hr).
  apply filter_In in Hr. rewrite Forall_forall in H.
  apply (H r), Hr.
Qed.

(** *** The order of the years *)

Lemma insert_by_year_Permutation r l : Permutation (insert_by_year r l) (r :: l).
Proof.
  induction l as [|r' l IH]; simpl; [reflexivity|].
  destruct (year r <=? year r')%Z; [reflexivity|].
  rewrite IH. apply perm_swap.
Qed.

Lemma sort_values_year_Permutation l : Permutation (sort_values_year l) l.
Proof.
  induction l as [|r l IH]; simpl; [reflexivity|].
  rewrite insert_by_year_Permutation. constructor. exact IH.
Qed.

Lemma insert_by_year_sorted r l :
  StronglySorted Z.le (map year l) ->
  StronglySorted Z.le (map year (insert_by_year r l)).
Proof.
  induction l as [|r' l IH]; simpl; intros Hs; [repeat constructor|].
  inversion Hs as [|? ? Hs' Hall]; subst.
  destruct (year r <=? year r')%Z eqn:Hle.
  - apply Z.leb_le in Hle. simpl. constructor; [exact Hs|].
    constructor; [exact Hle|].
    eapply Forall_impl; [|exact Hall]. simpl; intros; lia.
  - apply Z.leb_gt in Hle. simpl. constructor; [apply IH, Hs'|].
    apply Forall_forall. intros z Hz.
    apply (Permutation_in z
             (Permutation_map year (insert_by_year_Permutation r l))) in Hz.
    simpl in Hz. destruct Hz as [<-|Hz]; [lia|].
    rewrite Forall_forall in Hall. apply Hall, Hz.
Qed.

Lemma sort_values_year_sorted l :
  StronglySorted Z.le (map year (sort_values_year l)).
Proof.
  induction l as [|r l IH]; simpl; [constructor|].
  apply insert_by_year_sorted, IH.
Qed.

Lemma sorted_le_NoDup_lt l :
  StronglySorted Z.le l -> NoDup l -> StronglySorted Z.lt l.
Proof.
  induction 1 as [|a l Hs IH Hall]; intros Hn; constructor.
  - apply IH. inversion Hn; assumption.
  - inversion Hn as [|? ? Ha Hl]; subst.
    rewrite Forall_forall in *. intros z Hz.
    assert (a <> z) by (intros ->; contradiction).
    specialize (Hall z Hz). lia.
Qed.

Lemma StronglySorted_lt_NoDup l : StronglySorted Z.lt l -> NoDup l.
Proof.
  induction 1 as [|a l Hs IH Hall]; constructor; [|exact IH].
  intros Hin. rewrite Forall_forall in Hall. apply Hall in Hin. lia.
Qed.

Lemma NoDup_map_inj {A B} (f : A -> B) l :
  (forall a b, In a l -> In b l -> f a = f b -> a = b) ->
  NoDup l -> NoDup (map f l).
Proof.
  intros Hf. induction 1 as [|a l Ha Hl IH]; simpl; constructor.
  - intros Hin. apply in_map_iff in Hin. destruct Hin as (b & E & Hb).
    assert (b = a) by (apply Hf; [right; exact Hb | left; reflexivity | exact E]).
    subst b. contradiction.
  - apply IH. intros x y Hx Hy. apply Hf; right; assumption.
Qed.

Lemma lossyear_with_year g : map lossyear (with_year g) = map fst g.
Proof. unfold with_year. rewrite map_map. reflexivity. Qed.

Lemma year_with_year g :
  map year (with_year g) = map (fun k => Int64.add k 2000) (map fst g).
Proof. unfold with_year. rewrite !map_map. reflexivity. Qed.

(** The records of the trend are those of the groups, each with its year. *)
Lemma in_trend_df r df :
  In r (trend_df df)
  <-> exists k v, In (k, v) (groupby_sum (keyed df))
                  /\ r = {| lossyear := k; loss_pixels := v;
                            year := Int64.add k 2000 |}.
Proof.
  unfold trend_df. split.
  - intros H.
    apply (Permutation_in r (sort_values_year_Permutation _)) in H.
    unfold with_year in H. apply in_map_iff in H.
    destruct H as ([k v] & <- & Hin). exists k, v. split; [exact Hin|].
    reflexivity.
  - intros (k & v & Hin & ->).
    apply (Permutation_in _
             (Permutation_sym (sort_values_year_Permutation _))).
    unfold with_year.
    apply (in_map (fun kv => {| lossyear := fst kv; loss_pixels := snd kv;
                                year := Int64.add (fst kv) 2000 |})
                  _ (k, v) Hin).
Qed.

(** C6, as the code has it.  The two columns of the frame are int64
    columns.  For every such sequence of loss samples, the trend has
    exactly one record per distinct [lossYear] of the input: every record
    carries a [lossYear] of some sample, the int64 sum of [count] over the
    samples of that [lossYear], which is their sum wrapped into the int64
    range and so the sum itself whenever that lies in the range, and the
    int64 sum [2000 + lossYear], likewise; every [lossYear] of the input
    has a record; no [lossYear] and no [year] occurs twice; the
    years ascend.  The samples (1, 10), (1, 5), (2, 3) give (2001, 15),
    (2002, 3), and that is what the plot shows. *)
Theorem trend_one_record_per_year :
  (forall df,
     Forall Loss.int64 df ->
     let t := trend_df df in
     StronglySorted Z.lt (map year t)
     /\ NoDup (map year t)
     /\ NoDup (map lossyear t)
     /\ (forall r, In r t ->
           year r = Int64.wrap (2000 + lossyear r)
           /\ loss_pixels r = Int64.wrap (total_of (lossyear r) df)
           /\ (Int64.in_range (2000 + lossyear r) ->
               year r = (2000 + lossyear r)%Z)
           /\ (Int64.in_range (total_of (lossyear r) df) ->
               loss_pixels r = total_of (lossyear r) df)
           /\ exists s, In s df /\ Loss.label s = lossyear r)
     /\ (forall s, In s df -> exists r, In r t /\ lossyear r = Loss.label s))
  /\ trend_df Data.three_samples
     = [ {| lossyear := 1; loss_pixels := 15; year := 2001 |};
         {| lossyear := 2; loss_pixels := 3; year := 2002 |} ]
  /\ plot_loss_trend Data.three_samples = st_pyplot [2001; 2002]%Z [15; 3]%Z
  /\ plot_loss_trend []
     = st_warning "No forest loss points found inside the selected area."
  /\ trend_df [] = [].
Proof.
  split; [|repeat split; reflexivity].
  intros df Hdf t.
  destruct (groupby_sum_spec df) as (Hs & Hv & Hk).
  set (g := groupby_sum (keyed df)) in *.
  assert (Hp : Permutation t (with_year g))
    by apply sort_values_year_Permutation.
  assert (Hkeys : forall k, In k (map fst g) -> Int64.in_range k).
  { intros k Hin. apply Hk in Hin. apply in_map_iff in Hin.
    destruct Hin as (s & <- & Hs'). rewrite Forall_forall in Hdf.
    apply (Hdf s Hs'). }
  assert (Hl : NoDup (map lossyear t)).
  { apply (Permutation_NoDup
             (Permutation_sym (Permutation_map lossyear Hp))).
    rewrite lossyear_with_year. apply StronglySorted_lt_NoDup, Hs. }
  assert (Hy : NoDup (map year t)).
  { apply (Permutation_NoDup (Permutation_sym (Permutation_map year Hp))).
    rewrite year_with_year. apply NoDup_map_inj.
    - intros a b Ha Hb. apply add_2000_inj; apply Hkeys; assumption.
    - apply StronglySorted_lt_NoDup, Hs. }
  split; [apply sorted_le_NoDup_lt;
          [apply sort_values_year_sorted | exact Hy]|].
  split; [exact Hy|]. split; [exact Hl|].
  split.
  - intros r Hr. apply in_trend_df in Hr.
    destruct Hr as (k & v & Hin & ->). fold g in Hin.
    cbn [year lossyear loss_pixels].
    assert (Ev : v = Int64.wrap (total_of k df)).
    { apply sum64_in_range; [apply counts_of_in_range, Hdf|].
      rewrite <- Hv. apply lookup_entry; assumption. }
    split; [unfold Int64.add; f_equal; lia|].
    split; [exact Ev|].
    split; [intros H; unfold Int64.add;
            rewrite Z.add_comm; apply wrap_in_range, H|].
    split; [intros H; rewrite Ev; apply wrap_in_range, H|].
    assert (Hin' : In k (map fst g)) by apply (in_map fst _ _ Hin).
    apply Hk in Hin'. apply in_map_iff in Hin'.
    destruct Hin' as (s & Hs1 & Hs2). exists s; split; assumption.
  - intros s Hin.
    assert (Hin' : In (Loss.label s) (map lossyear t)).
    { apply (Permutation_in _
               (Permutation_sym (Permutation_map lossyear Hp))).
      rewrite lossyear_with_year. apply Hk, in_map, Hin. }
    apply in_map_iff in Hin'. destruct Hin' as (r & Hr1 & Hr2).
    exists r; split; assumption.
Qed.

(** The theorem at the three samples of the aggregation example. *)
Lemma trend_one_record_per_year_witness :
  NoDup (map year (trend_df Data.three_samples)).
Proof.
  refine (proj1 (proj2 (proj1 trend_one_record_per_year
                          Data.three_samples _))).
  repeat constructor; unfold Int64.min_int, Int64.max_int; simpl; lia.
Defined.

(** C6 fails on two samples of one year whose counts are int64 values and
    add up to [2 ^ 63]: the record of the year carries [- 2 ^ 63], not the
    sum. *)
Lemma large_counts_wrap_around :
  Forall Loss.int64 Data.two_large_counts
  /\ total_of 1 Data.two_large_counts = 9223372036854775808%Z
  /\ trend_df Data.two_large_counts
     = [ {| lossyear := 1; loss_pixels := -9223372036854775808;
            year := 2001 |} ]
  /\ plot_loss_trend Data.two_large_counts
     = st_pyplot [2001]%Z [-9223372036854775808]%Z.
Proof.
  split; [|repeat split; vm_compute; reflexivity].
  repeat constructor; unfold Int64.min_int, Int64.max_int; simpl; lia.
Qed.

End TrendFacts.

(** ** The spatial filter *)

Module FilterFacts.
Import Frames.

Lemma getitem_mask_map {A} (f : A -> bool) (l : list A) :
  getitem_mask l (map f l) = filter f l.
Proof.
  unfold getitem_mask.
  induction l as [|a l IH]; simpl; [reflexivity|].
  destruct (f a); simpl; rewrite IH; reflexivity.
Qed.

Lemma filter_map_comm {A B} (g : A -> B) (f : B -> bool) (l : list A) :
  filter f (map g l) = map g (filter (fun a => f (g a)) l).
Proof.
  induction l as [|a l IH]; simpl; [reflexivity|].
  destruct (f (g a)); simpl; rewrite IH; reflexivity.
Qed.

Lemma getitem_mask_rows {A B} (g : A -> B) (f : B -> bool) (l : list A) :
  getitem_mask l (map f (map g l)) = filter (fun a => f (g a)) l.
Proof. rewrite map_map. apply getitem_mask_map. Qed.

Lemma nth_error_update s : forall r d d',
  nth_error s r = Some d -> nth_error (update s r d') r = Some d'.
Proof.
  induction s as [|d0 s IH]; intros [|r] d d' H; simpl in *;
    try discriminate; [reflexivity|].
  eapply IH; eassumption.
Qed.

Lemma nth_error_update_other s : forall r r' d',
  r <> r' -> nth_error (update s r d') r' = nth_error s r'.
Proof.
  induction s as [|d0 s IH]; intros [|r] [|r'] d' H; simpl;
    try reflexivity; try congruence.
  apply IH. congruence.
Qed.

Lemma length_update s : forall r d', List.length (update s r d') = List.length s.
Proof.
  induction s as [|d0 s IH]; intros [|r] d'; simpl; try reflexivity.
  rewrite IH; reflexivity.
Qed.

(** What a call does, on a frame of the store and a ring that [shape]
    accepts: the frame receives its column of points, and a new frame
    holds the rows inside the polygon. *)
Lemma filter_points_in_polygon_run s df d ring polygon :
  nth_error s df = Some d ->
  Geo.shape ring = Ok polygon ->
  filter_points_in_polygon df ring s
  = (Ok (List.length s),
     update s df {| rows := rows d; point := Some (map point_of (rows d)) |}
     ++ [ {| rows := filter (inside polygon) (rows d);
             point := Some (map point_of (filter (inside polygon) (rows d))) |} ]).
Proof.
  intros Hd Hp.
  unfold filter_points_in_polygon, bind, lift, setitem_point, deref, bind.
  rewrite Hp. rewrite Hd. rewrite Hd.
  rewrite (nth_error_update _ _ _ _ Hd). simpl.
  unfold alloc. rewrite length_update.
  rewrite getitem_mask_rows, getitem_mask_map, filter_map_comm.
  reflexivity.
Qed.

Lemma filter_points_in_polygon_raises s df ring e :
  Geo.shape ring = Raise e ->
  filter_points_in_polygon df ring s = (Raise e, s).
Proof.
  intros Hp. unfold filter_points_in_polygon, bind, lift. rewrite Hp.
  reflexivity.
Qed.

Lemma same_coord_refl a : Geo.same_coord a a = true.
Proof.
  unfold Geo.same_coord. apply andb_true_iff.
  split; apply Qeq_bool_iff; reflexivity.
Qed.

Lemma shape_few_vertices ring :
  (1 <= List.length ring <= 2)%nat -> Geo.shape ring = Raise "ValueError".
Proof.
  destruct ring as [|a [|b [|c ring]]]; simpl; intros H; try lia.
  - unfold Geo.LinearRing; simpl. rewrite same_coord_refl. reflexivity.
  - unfold Geo.LinearRing; simpl. destruct (Geo.same_coord a b); reflexivity.
Qed.

Lemma shape_closes ring first :
  hd_error ring = Some first ->
  (3 <= List.length ring)%nat ->
  Geo.same_coord first (last ring first) = false ->
  Geo.shape ring = Ok (Geo.Shell (ring ++ [first]))
  /\ Geo.shape (ring ++ [first]) = Ok (Geo.Shell (ring ++ [first])).
Proof.
  intros Hhd Hlen Hopen.
  destruct ring as [|a ring]; [discriminate|].
  simpl in Hhd. injection Hhd as ->.
  split.
  - unfold Geo.shape, Geo.LinearRing. rewrite Hopen, orb_true_r.
    match goal with
    | |- context [(?a <? ?b)%nat] => destruct (Nat.ltb_spec a b) as [H|H]
    end; [simpl in H, Hlen; lia | reflexivity].
  - change ((first :: ring) ++ [first]) with (first :: (ring ++ [first])).
    unfold Geo.shape, Geo.LinearRing.
    change (first :: (ring ++ [first])) with ((first :: ring) ++ [first]).
    rewrite last_last, same_coord_refl.
    match goal with
    | |- context [(?a =? ?b)%nat] => destruct (Nat.eqb_spec a b) as [H|H]
    end; [rewrite length_app in H; simpl in H, Hlen; lia|].
    simpl orb. simpl negb.
    match goal with
    | |- context [if ?c then Raise _ else _] => destruct c eqn:H'
    end; [|reflexivity].
    apply Nat.ltb_lt in H'. rewrite length_app in H'.
    simpl in H', Hlen. lia.
Qed.

(** *** Containment in a rectangle with sides along the axes *)

Lemma Qltb_compat a b b' : b == b' -> Qltb a b = Qltb a b'.
Proof. intros H. unfold Qltb. rewrite H. reflexivity. Qed.

Lemma crosses_vertical p x ya yb :
  Geo.crosses p ((x, ya), (x, yb))
  = negb (Bool.eqb (Qltb (Geo.y p) ya) (Qltb (Geo.y p) yb))
    && Qltb (Geo.x p) x.
Proof.
  unfold Geo.crosses. f_equal. apply Qltb_compat.
  unfold Qdiv. ring.
Qed.

Lemma crosses_horizontal p xa xb y :
  Geo.crosses p ((xa, y), (xb, y)) = false.
Proof.
  unfold Geo.crosses. rewrite Bool.eqb_reflx. reflexivity.
Qed.

Lemma Qeq_bool_ext a b c d : (a == b <-> c == d) -> Qeq_bool a b = Qeq_bool c d.
Proof.
  intros H. apply eq_true_iff_eq. rewrite !Qeq_bool_iff. exact H.
Qed.

Lemma on_segment_vertical p x ya yb :
  ~ ya == yb ->
  Geo.on_segment p ((x, ya), (x, yb))
  = Qeq_bool (Geo.x p) x && Geo.between x x (Geo.x p)
    && Geo.between ya yb (Geo.y p).
Proof.
  intros H. unfold Geo.on_segment. do 2 f_equal.
  apply Qeq_bool_ext. split; intros E.
  - assert (E' : (yb - ya) * (Geo.x p - x) == 0) by (rewrite <- E; ring).
    apply Qmult_integral in E'. destruct E' as [E'|E']; [|lra].
    exfalso. apply H. lra.
  - rewrite E. ring.
Qed.

Lemma on_segment_horizontal p xa xb y :
  ~ xa == xb ->
  Geo.on_segment p ((xa, y), (xb, y))
  = Qeq_bool (Geo.y p) y && Geo.between xa xb (Geo.x p)
    && Geo.between y y (Geo.y p).
Proof.
  intros H. unfold Geo.on_segment. do 2 f_equal.
  apply Qeq_bool_ext. split; intros E.
  - assert (E' : (xb - xa) * (Geo.y p - y) == 0) by (rewrite E; ring).
    apply Qmult_integral in E'. destruct E' as [E'|E']; [|lra].
    exfalso. apply H. lra.
  - rewrite E. ring.
Qed.

Ltac settle_atom :=
  match goal with
  | |- context [Qltb ?a ?b] =>
      first [ rewrite (proj2 (Qltb_lt a b)) by lra
            | rewrite (proj2 (Qltb_ge a b)) by lra ]
  | |- context [Qle_bool ?a ?b] =>
      first [ rewrite (proj2 (Qle_bool_iff a b)) by lra
            | rewrite (proj2 (Qle_bool_false a b)) by lra ]
  | |- context [Qeq_bool ?a ?b] =>
      first [ rewrite (proj2 (Qeq_bool_iff a b)) by lra
            | rewrite (proj2 (Qeq_bool_false a b)) by lra ]
  end.

Ltac trichotomy a b :=
  destruct (Q_dec a b) as [[?|?]|?].

Lemma contains_rectangle x0 y0 x1 y1 p :
  x0 < x1 -> y0 < y1 ->
  Geo.contains
    (Geo.Shell [(x0, y0); (x0, y1); (x1, y1); (x1, y0); (x0, y0)]) p = true
  <-> (x0 < Geo.x p /\ Geo.x p < x1) /\ (y0 < Geo.y p /\ Geo.y p < y1).
Proof.
  intros Hx Hy. unfold Geo.contains, Geo.edges.
  cbn [tl combine existsb filter].
  rewrite !crosses_horizontal, !crosses_vertical.
  rewrite !on_segment_vertical by lra.
  rewrite !on_segment_horizontal by lra.
  unfold Geo.between.
  trichotomy (Geo.x p) x0; trichotomy (Geo.x p) x1;
  trichotomy (Geo.y p) y0; trichotomy (Geo.y p) y1;
    try (exfalso; lra);
    repeat settle_atom; cbn; split; (discriminate || lra || idtac).
  all: try (intros _; lra).
Qed.

Lemma shape_rectangle x0 y0 x1 y1 :
  x0 < x1 ->
  Geo.shape [(x0, y0); (x0, y1); (x1, y1); (x1, y0)]
  = Ok (Geo.Shell [(x0, y0); (x0, y1); (x1, y1); (x1, y0); (x0, y0)]).
Proof.
  intros Hx.
  apply (shape_closes [(x0, y0); (x0, y1); (x1, y1); (x1, y0)] (x0, y0)).
  - reflexivity.
  - simpl. lia.
  - unfold Geo.same_coord. cbn [last fst snd].
    rewrite (proj2 (Qeq_bool_false x0 x1)) by lra. reflexivity.
Qed.

Lemma nth_error_alloc (s : store) (d : DataFrame) :
  nth_error (s ++ [d]) (List.length s) = Some d.
Proof.
  rewrite nth_error_app2 by lia. rewrite Nat.sub_diag. reflexivity.
Qed.

(** C7.  On a frame of samples and a ring that makes a polygon, the filter
    returns a new frame whose rows are exactly the rows of the input whose
    point (lon, lat) the polygon contains, in their order, each with its
    point; lon is the abscissa and lat the ordinate.  For a rectangle with
    sides along the axes these are the rows strictly between its sides.
    Of the samples at (5, 5), (15, 15) and (-1, 5), the square of corners
    (0, 0), (0, 10), (10, 10), (10, 0) keeps the one at (5, 5). *)
Theorem filter_keeps_rows_inside :
  (forall s df d ring polygon,
     nth_error s df = Some d ->
     Geo.shape ring = Ok polygon ->
     exists out s' d',
       filter_points_in_polygon df ring s = (Ok out, s')
       /\ nth_error s' out = Some d'
       /\ rows d' = filter (inside polygon) (rows d)
       /\ point d' = Some (map point_of (rows d'))
       /\ (forall row, In row (rows d') <->
             In row (rows d)
             /\ Geo.contains polygon
                  {| Geo.x := Loss.lon row; Geo.y := Loss.lat row |} = true))
  /\ (forall x0 y0 x1 y1,
        x0 < x1 -> y0 < y1 ->
        exists polygon,
          Geo.shape [(x0, y0); (x0, y1); (x1, y1); (x1, y0)] = Ok polygon
          /\ forall row,
               inside polygon row = true
               <-> (x0 < Loss.lon row /\ Loss.lon row < x1)
                   /\ (y0 < Loss.lat row /\ Loss.lat row < y1))
  /\ (exists s' d',
        filter_points_in_polygon 0%nat Data.square
          [Data.loss_df Data.square_samples] = (Ok 1%nat, s')
        /\ nth_error s' 1%nat = Some d'
        /\ rows d' = [Data.at_ 5 5]).
Proof.
  split.
  - intros s df d ring polygon Hd Hp.
    eexists _, _, _.
    split; [apply (filter_points_in_polygon_run _ _ _ _ _ Hd Hp)|].
    split.
    { rewrite <- (length_update s df
                   {| rows := rows d; point := Some (map point_of (rows d)) |}).
      apply nth_error_alloc. }
    cbn [rows point].
    split; [reflexivity|]. split; [reflexivity|].
    intros row. rewrite filter_In. reflexivity.
  - split.
    + intros x0 y0 x1 y1 Hx Hy. eexists.
      split; [apply shape_rectangle, Hx|].
      intros row. unfold inside.
      apply (contains_rectangle x0 y0 x1 y1 (point_of row) Hx Hy).
    + eexists _, _.
      split; [vm_compute; reflexivity|].
      split; [vm_compute; reflexivity|].
      reflexivity.
Qed.

(** The filter at the square and its three samples. *)
Lemma filter_keeps_rows_inside_witness :
  exists out s' d',
    filter_points_in_polygon 0%nat Data.square
      [Data.loss_df Data.square_samples] = (Ok out, s')
    /\ nth_error s' out = Some d'
    /\ rows d' = filter (inside (Geo.Shell (Data.square ++ [(0, 0)])))
                        Data.square_samples.
Proof.
  destruct (proj1 filter_keeps_rows_inside
              [Data.loss_df Data.square_samples] 0%nat
              (Data.loss_df Data.square_samples) Data.square
              (Geo.Shell (Data.square ++ [(0, 0)]))
              eq_refl eq_refl)
    as (out & s' & d' & H1 & H2 & H3 & _).
  exists out, s', d'. split; [exact H1|]. split; [exact H2 | exact H3].
Defined.

(** C3, at a frame of three samples and the square: before the call the
    frame has the four columns of the loader, after it the same object has
    a fifth, ["point"]; the frame returned is another object. *)
Theorem filter_assigns_a_column_of_its_input :
  let s := [Data.loss_df Data.square_samples] in
  exists out s',
    filter_points_in_polygon 0%nat Data.square s = (Ok out, s')
    /\ option_map columns (nth_error s 0%nat)
       = Some ["lat"; "lon"; "label"; "count"]
    /\ option_map columns (nth_error s' 0%nat)
       = Some ["lat"; "lon"; "label"; "count"; "point"]
    /\ nth_error s' 0%nat <> nth_error s 0%nat
    /\ out <> 0%nat.
Proof.
  eexists _, _.
  split; [vm_compute; reflexivity|].
  split; [reflexivity|]. split; [reflexivity|].
  split; [discriminate | discriminate].
Qed.

(** C2, as the code has it.  The filter validates nothing itself and knows
    no InvalidPolygon.  A ring of one or two vertices makes [shape] raise
    ValueError, which the filter lets through, the store untouched.  A ring
    of three or more vertices whose last vertex is not its first is closed
    by [shape], and the filter answers as it does for the closed ring. *)
Theorem degenerate_ring_is_left_to_shape :
  (forall s df ring,
     (1 <= List.length ring <= 2)%nat ->
     filter_points_in_polygon df ring s = (Raise "ValueError", s))
  /\ (forall s df ring first,
        hd_error ring = Some first ->
        (3 <= List.length ring)%nat ->
        Geo.same_coord first (last ring first) = false ->
        Geo.shape ring = Ok (Geo.Shell (ring ++ [first]))
        /\ filter_points_in_polygon df ring s
           = filter_points_in_polygon df (ring ++ [first]) s).
Proof.
  split.
  - intros s df ring H.
    apply filter_points_in_polygon_raises, shape_few_vertices, H.
  - intros s df ring first Hhd Hlen Hopen.
    destruct (shape_closes ring first Hhd Hlen Hopen) as (H1 & H2).
    split; [exact H1|].
    unfold filter_points_in_polygon, bind, lift. rewrite H1, H2.
    reflexivity.
Qed.

(** The two cases at a ring of two vertices and at the open triangle. *)
Lemma degenerate_ring_is_left_to_shape_witness :
  filter_points_in_polygon 0%nat Data.two_vertices
    [Data.loss_df [Data.at_ 1 1]]
  = (Raise "ValueError", [Data.loss_df [Data.at_ 1 1]])
  /\ Geo.shape Data.open_triangle
     = Ok (Geo.Shell (Data.open_triangle ++ [(0, 0)])).
Proof.
  split.
  - apply (proj1 degenerate_ring_is_left_to_shape). simpl. lia.
  - apply (proj2 degenerate_ring_is_left_to_shape
             [] 0%nat Data.open_triangle (0, 0)).
    + reflexivity.
    + simpl. lia.
    + reflexivity.
Defined.

(** C2 fails on a ring of three vertices that does not close: the ring is
    degenerate, no exception is raised, and the filter returns the sample
    that lies inside the triangle. *)
Lemma open_triangle_is_filtered :
  degenerate Data.open_triangle = true
  /\ exists s' d',
       filter_points_in_polygon 0%nat Data.open_triangle
         [Data.loss_df [Data.at_ 1 1]] = (Ok 1%nat, s')
       /\ nth_error s' 1%nat = Some d'
       /\ rows d' = [Data.at_ 1 1].
Proof.
  split; [reflexivity|].
  eexists _, _.
  split; [vm_compute; reflexivity|].
  split; [vm_compute; reflexivity|].
  reflexivity.
Qed.

End FilterFacts.

(** ** Arrays and grids *)

Module ArrayFacts.

Lemma length_tabulate {A} n m (f : nat -> nat -> A) :
  List.length (tabulate n m f) = n.
Proof. unfold tabulate. rewrite length_map, length_seq. reflexivity. Qed.

Lemma nth_map_seq {A} (f : nat -> A) n i d :
  (i < n)%nat -> nth i (map f (seq 0 n)) d = f i.
Proof.
  intros H. rewrite (nth_indep _ d (f 0%nat))
    by (rewrite length_map, length_seq; exact H).
  rewrite (map_nth f (seq 0 n) 0%nat i), seq_nth by exact H. reflexivity.
Qed.

Lemma get_tabulate n m (f : nat -> nat -> Q) i j :
  (i < n)%nat -> (j < m)%nat -> get (tabulate n m f) i j = f i j.
Proof.
  intros Hi Hj. unfold get, tabulate.
  rewrite (nth_map_seq (fun i => map (fun j => f i j) (seq 0 m))) by exact Hi.
  apply nth_map_seq, Hj.
Qed.

Lemma map2_map {A B C D} (f : A -> B -> C) (g : D -> A) (h : D -> B) l :
  map2 f (map g l) (map h l) = map (fun x => f (g x) (h x)) l.
Proof.
  unfold map2. induction l as [|x l IH]; simpl; [reflexivity|].
  rewrite IH. reflexivity.
Qed.

Lemma map2_tabulate {A B C} (f : A -> B -> C) n m g h :
  map2 (map2 f) (tabulate n m g) (tabulate n m h)
  = tabulate n m (fun i j => f (g i j) (h i j)).
Proof.
  unfold tabulate. rewrite map2_map. apply map_ext. intros i.
  apply map2_map.
Qed.

Lemma map_map_tabulate {A B} (f : A -> B) n m g :
  map (map f) (tabulate n m g) = tabulate n m (fun i j => f (g i j)).
Proof.
  unfold tabulate. rewrite map_map. apply map_ext. intros i.
  apply map_map.
Qed.

Lemma Qn_S k : Qn (S k) == Qn k + 1.
Proof.
  unfold Qn. rewrite Nat2Z.inj_succ, <- Z.add_1_r, inject_Z_plus.
  reflexivity.
Qed.

Lemma Qn_nonneg k : 0 <= Qn k.
Proof.
  unfold Qn. change 0 with (inject_Z 0). rewrite <- Zle_Qle. lia.
Qed.

Lemma Qn_pos k : 0 < Qn (S k).
Proof. rewrite Qn_S. pose proof (Qn_nonneg k). lra. Qed.

Lemma Qn_le a b : (a <= b)%nat -> Qn a <= Qn b.
Proof. intros H. unfold Qn. rewrite <- Zle_Qle. lia. Qed.

Lemma Qn_lt a b : (a < b)%nat -> Qn a < Qn b.
Proof. intros H. unfold Qn. rewrite <- Zlt_Qlt. lia. Qed.

(** *** [linspace] *)

Lemma length_linspace lo hi n : List.length (Np.linspace lo hi n) = n.
Proof.
  destruct n as [|[|d]]; simpl; try reflexivity.
  rewrite length_app, length_map, length_seq. simpl. lia.
Qed.

Lemma last_linspace lo hi n :
  (2 <= n)%nat -> last (Np.linspace lo hi n) 0 = hi.
Proof.
  destruct n as [|[|d]]; try lia. intros _.
  unfold Np.linspace. apply last_last.
Qed.

Lemma width_total lo hi n :
  (2 <= n)%nat -> Qn (n - 1) * width lo hi n == hi - lo.
Proof.
  intros H. unfold width.
  destruct n as [|[|d]]; try lia. simpl Nat.sub.
  pose proof (Qn_pos d). field. lra.
Qed.

Lemma nth_linspace lo hi n k :
  (2 <= n)%nat -> (k < n)%nat ->
  nth k (Np.linspace lo hi n) 0 == lo + Qn k * width lo hi n.
Proof.
  intros Hn Hk. pose proof (width_total lo hi n Hn) as Hw.
  destruct n as [|[|d]]; try lia.
  unfold Np.linspace.
  destruct (Nat.eq_dec k (S d)) as [->|Hne].
  - rewrite app_nth2 by (rewrite length_map, length_seq; lia).
    rewrite length_map, length_seq, Nat.sub_diag. simpl nth.
    simpl Nat.sub in Hw. lra.
  - rewrite app_nth1 by (rewrite length_map, length_seq; lia).
    rewrite nth_map_seq by lia.
    unfold width. simpl Nat.sub.
    unfold Qn. ring.
Qed.

Lemma width_nonneg lo hi n : (2 <= n)%nat -> lo <= hi -> 0 <= width lo hi n.
Proof.
  intros Hn Hle. unfold width.
  destruct n as [|[|d]]; try lia. simpl Nat.sub.
  apply Qle_shift_div_l; [apply Qn_pos | lra].
Qed.

Lemma width_pos lo hi n : (2 <= n)%nat -> lo < hi -> 0 < width lo hi n.
Proof.
  intros Hn Hlt. unfold width.
  destruct n as [|[|d]]; try lia. simpl Nat.sub.
  apply Qlt_shift_div_l; [apply Qn_pos | lra].
Qed.

Lemma nth_linspace_le_hi lo hi n k :
  (2 <= n)%nat -> (k < n)%nat -> lo <= hi ->
  nth k (Np.linspace lo hi n) 0 <= hi.
Proof.
  intros Hn Hk Hle. rewrite nth_linspace by assumption.
  pose proof (width_total lo hi n Hn) as Hw.
  pose proof (width_nonneg lo hi n Hn Hle) as H0.
  assert (Qn k * width lo hi n <= Qn (n - 1) * width lo hi n)
    by (apply Qmult_le_compat_r; [apply Qn_le; lia | exact H0]).
  lra.
Qed.

Lemma nth_linspace_step lo hi n k :
  (2 <= n)%nat -> (S k < n)%nat ->
  nth (S k) (Np.linspace lo hi n) 0
  == nth k (Np.linspace lo hi n) 0 + width lo hi n.
Proof.
  intros Hn Hk. rewrite !nth_linspace by lia. rewrite Qn_S. ring.
Qed.

(** *** Sorted edges *)

Lemma monotonic_nth l :
  (forall i, (S i < List.length l)%nat -> nth i l 0 <= nth (S i) l 0) ->
  Np.monotonic l = true.
Proof.
  unfold Np.monotonic.
  induction l as [|a l IH]; intros H; [reflexivity|].
  destruct l as [|b l]; [reflexivity|].
  simpl combine. simpl forallb.
  apply andb_true_iff. split.
  - apply Qle_bool_iff. apply (H 0%nat). simpl; lia.
  - apply IH. intros i Hi. apply (H (S i)). simpl in *; lia.
Qed.

Lemma monotonic_linspace lo hi n :
  lo <= hi -> Np.monotonic (Np.linspace lo hi n) = true.
Proof.
  intros Hle. destruct (le_lt_dec 2 n) as [Hn|Hn].
  - apply monotonic_nth. rewrite length_linspace. intros i Hi.
    rewrite nth_linspace_step by lia.
    pose proof (width_nonneg lo hi n Hn Hle). lra.
  - destruct n as [|[|d]]; try lia; reflexivity.
Qed.

(** *** [searchsorted] *)

Lemma searchsorted_right_le_length l v :
  (Np.searchsorted_right l v <= List.length l)%nat.
Proof.
  induction l as [|e l IH]; simpl; [lia|].
  destruct (Qle_bool e v); simpl; lia.
Qed.

Lemma searchsorted_right_upper l v : forall k,
  (k < List.length l)%nat -> v < nth k l 0 ->
  (Np.searchsorted_right l v <= k)%nat.
Proof.
  induction l as [|e l IH]; intros k Hk Hv; simpl in *; [lia|].
  destruct (Qle_bool e v) eqn:He; [|lia].
  destruct k as [|k].
  - apply Qle_bool_iff in He. lra.
  - apply le_n_S, IH; [lia | exact Hv].
Qed.

Lemma searchsorted_right_lower l v : forall k,
  (k < List.length l)%nat ->
  (forall i, (i <= k)%nat -> nth i l 0 <= v) ->
  (k < Np.searchsorted_right l v)%nat.
Proof.
  induction l as [|e l IH]; intros k Hk H; simpl in *; [lia|].
  assert (He : Qle_bool e v = true)
    by (apply Qle_bool_iff, (H 0%nat); lia).
  rewrite He. destruct k as [|k]; [lia|].
  apply -> Nat.succ_lt_mono. apply IH; [lia|].
  intros i Hi. apply (H (S i)). lia.
Qed.

(** *** The least and the greatest entry *)

Lemma fold_min_spec l : forall v,
  fold_left Qmin l v <= v
  /\ (forall x, In x l -> fold_left Qmin l v <= x)
  /\ (fold_left Qmin l v = v \/ In (fold_left Qmin l v) l).
Proof.
  induction l as [|a l IH]; intros v; simpl.
  - split; [lra|]. split; [contradiction | left; reflexivity].
  - destruct (IH (Qmin v a)) as (H1 & H2 & H3).
    pose proof (Q.le_min_l v a). pose proof (Q.le_min_r v a).
    split; [lra|]. split.
    + intros x [<-|Hx]; [lra | apply H2, Hx].
    + destruct H3 as [H3|H3]; [|right; right; exact H3].
      rewrite H3. unfold Qmin, GenericMinMax.gmin.
      destruct (v ?= a); [left | left | right; left]; reflexivity.
Qed.

Lemma fold_max_spec l : forall v,
  v <= fold_left Qmax l v
  /\ (forall x, In x l -> x <= fold_left Qmax l v)
  /\ (fold_left Qmax l v = v \/ In (fold_left Qmax l v) l).
Proof.
  induction l as [|a l IH]; intros v; simpl.
  - split; [lra|]. split; [contradiction | left; reflexivity].
  - destruct (IH (Qmax v a)) as (H1 & H2 & H3).
    pose proof (Q.le_max_l v a). pose proof (Q.le_max_r v a).
    split; [lra|]. split.
    + intros x [<-|Hx]; [lra | apply H2, Hx].
    + destruct H3 as [H3|H3]; [|right; right; exact H3].
      rewrite H3. unfold Qmax, GenericMinMax.gmax.
      destruct (v ?= a); [left | right; left | left]; reflexivity.
Qed.

Lemma least_le a x : In x a -> Np.least a <= x.
Proof.
  destruct a as [|v a]; [contradiction|]. unfold Np.least; simpl.
  destruct (fold_min_spec a v) as (H1 & H2 & _).
  intros [<-|Hx]; [exact H1 | apply H2, Hx].
Qed.

Lemma greatest_ge a x : In x a -> x <= Np.greatest a.
Proof.
  destruct a as [|v a]; [contradiction|]. unfold Np.greatest; simpl.
  destruct (fold_max_spec a v) as (H1 & H2 & _).
  intros [<-|Hx]; [exact H1 | apply H2, Hx].
Qed.

Lemma least_in a : a <> [] -> In (Np.least a) a.
Proof.
  destruct a as [|v a]; [congruence|]. intros _. unfold Np.least; simpl.
  destruct (fold_min_spec a v) as (_ & _ & [->|H]); [left | right]; auto.
Qed.

Lemma greatest_in a : a <> [] -> In (Np.greatest a) a.
Proof.
  destruct a as [|v a]; [congruence|]. intros _. unfold Np.greatest; simpl.
  destruct (fold_max_spec a v) as (_ & _ & [->|H]); [left | right]; auto.
Qed.

Lemma least_le_greatest a : a <> [] -> Np.least a <= Np.greatest a.
Proof.
  intros H. apply least_le, greatest_in, H.
Qed.

(** *** Bin numbers on evenly spaced edges *)

Section Bins.

Variables (lo hi : Q) (n : nat).
Hypothesis Hn : (2 <= n)%nat.
Hypothesis Hle : lo <= hi.

Lemma nth_linspace_first : nth 0 (Np.linspace lo hi n) 0 == lo.
Proof.
  rewrite nth_linspace by lia. unfold Qn. simpl. ring.
Qed.

Lemma nth_linspace_last : nth (n - 1) (Np.linspace lo hi n) 0 == hi.
Proof.
  rewrite nth_linspace by lia.
  pose proof (width_total lo hi n Hn). lra.
Qed.

Lemma bin_number_at_hi v :
  v == hi -> Np.bin_number (Np.linspace lo hi n) v = (n - 1)%nat.
Proof.
  intros Hv. unfold Np.bin_number.
  rewrite (last_linspace lo hi n Hn).
  assert (He : Qeq_bool v hi = true) by (apply Qeq_bool_iff, Hv).
  rewrite He.
  pose proof (searchsorted_right_le_length (Np.linspace lo hi n) v) as Hu.
  rewrite length_linspace in Hu.
  assert (Hl : (n - 1 < Np.searchsorted_right (Np.linspace lo hi n) v)%nat).
  { apply searchsorted_right_lower; [rewrite length_linspace; lia|].
    intros i Hi. rewrite Hv. apply nth_linspace_le_hi; [exact Hn | lia | exact Hle]. }
  lia.
Qed.

Lemma bin_number_below_hi v :
  lo <= v -> v < hi ->
  (1 <= Np.bin_number (Np.linspace lo hi n) v <= n - 1)%nat.
Proof.
  intros Hlo Hhi. unfold Np.bin_number.
  rewrite (last_linspace lo hi n Hn).
  assert (He : Qeq_bool v hi = false) by (apply Qeq_bool_false; lra).
  rewrite He. split.
  - apply (searchsorted_right_lower _ _ 0%nat);
      [rewrite length_linspace; lia|].
    intros i Hi. replace i with 0%nat by lia.
    rewrite nth_linspace_first. exact Hlo.
  - apply searchsorted_right_upper; [rewrite length_linspace; lia|].
    rewrite nth_linspace_last. exact Hhi.
Qed.

Lemma bin_number_at_lo v :
  v == lo -> lo < hi -> Np.bin_number (Np.linspace lo hi n) v = 1%nat.
Proof.
  intros Hv Hlt.
  destruct (bin_number_below_hi v) as (H1 & _); [lra | lra |].
  unfold Np.bin_number in *.
  rewrite (last_linspace lo hi n Hn) in *.
  assert (He : Qeq_bool v hi = false) by (apply Qeq_bool_false; lra).
  rewrite He in *.
  assert (H2 : (Np.searchsorted_right (Np.linspace lo hi n) v <= 1)%nat).
  { apply searchsorted_right_upper; [rewrite length_linspace; lia|].
    rewrite nth_linspace by lia.
    pose proof (width_pos lo hi n Hn Hlt).
    change (Qn 1) with 1. lra. }
  lia.
Qed.

Lemma bin_number_in_range v :
  lo <= v -> v <= hi ->
  (1 <= Np.bin_number (Np.linspace lo hi n) v <= n - 1)%nat.
Proof.
  intros Hlo Hhi. destruct (Qlt_le_dec v hi) as [H|H].
  - apply bin_number_below_hi; assumption.
  - rewrite bin_number_at_hi by lra. lia.
Qed.

End Bins.

(** *** Bin numbers on edges that do not descend *)

Lemma monotonic_le l :
  Np.monotonic l = true ->
  forall j i, (i <= j)%nat -> (j < List.length l)%nat ->
  nth i l 0 <= nth j l 0.
Proof.
  unfold Np.monotonic. induction l as [|a l IH]; intros Hm j i Hij Hj;
    [simpl in Hj; lia|].
  destruct l as [|b l].
  - simpl in Hj. replace j with 0%nat by lia. replace i with 0%nat by lia.
    apply Qle_refl.
  - simpl combine in Hm. simpl forallb in Hm.
    apply andb_true_iff in Hm. destruct Hm as (Hab & Hm).
    apply Qle_bool_iff in Hab. cbn [fst snd] in Hab.
    destruct j as [|j]; [replace i with 0%nat by lia; apply Qle_refl|].
    destruct i as [|i].
    + apply Qle_trans with b; [exact Hab|].
      apply (IH Hm j 0%nat); simpl in *; lia.
    + apply (IH Hm j i); simpl in *; lia.
Qed.

Lemma last_as_nth (l : list Q) : last l 0 = nth (List.length l - 1) l 0.
Proof.
  induction l as [|a l IH]; [reflexivity|].
  destruct l as [|b l]; [reflexivity|].
  change (last (a :: b :: l) 0) with (last (b :: l) 0). rewrite IH.
  simpl. rewrite Nat.sub_0_r. reflexivity.
Qed.

Lemma searchsorted_right_below l v : forall i,
  (i < Np.searchsorted_right l v)%nat -> nth i l 0 <= v.
Proof.
  induction l as [|e l IH]; intros i Hi; simpl in *; [lia|].
  destruct (Qle_bool e v) eqn:He; [|lia].
  destruct i as [|i]; [apply Qle_bool_iff, He|].
  apply IH. lia.
Qed.

Lemma searchsorted_right_above l v :
  (Np.searchsorted_right l v < List.length l)%nat ->
  v < nth (Np.searchsorted_right l v) l 0.
Proof.
  induction l as [|e l IH]; simpl; intros H; [lia|].
  destruct (Qle_bool e v) eqn:He.
  - apply IH. lia.
  - apply Qnot_le_lt. intros Hle. apply Qle_bool_iff in Hle. congruence.
Qed.

Section Edges.

Variables (edges : list Q) (lo hi : Q) (n : nat).
Hypothesis Hn : (2 <= n)%nat.
Hypothesis Hspan : Np.spans edges lo hi n.

(** The bin of a value between the first and the last edge. *)
Lemma bin_of_value v :
  lo <= v -> v <= hi ->
  let b := Np.bin_number edges v in
  (1 <= b <= n - 1)%nat
  /\ nth (b - 1) edges 0 <= v <= nth b edges 0
  /\ (v == hi -> b = (n - 1)%nat)
  /\ (v < hi -> v < nth b edges 0)
  /\ (v == lo -> lo < hi -> nth (b - 1) edges 0 == lo)
  /\ (v == lo -> lo < nth 1 edges 0 -> b = 1%nat).
Proof.
  intros Hlo Hhi b. destruct Hspan as (Hlen & Hmono & Hfirst & Hlast).
  rewrite last_as_nth, Hlen in Hlast.
  pose proof (monotonic_le edges Hmono) as Hle.
  pose proof (searchsorted_right_le_length edges v) as Hss.
  rewrite Hlen in Hss.
  assert (Eb : b = if Qeq_bool v (nth (n - 1) edges 0)
                   then (Np.searchsorted_right edges v - 1)%nat
                   else Np.searchsorted_right edges v).
  { unfold b, Np.bin_number. rewrite last_as_nth, Hlen. reflexivity. }
  clearbody b.
  destruct (Qlt_le_dec v hi) as [Hlt|Hge].
  - assert (He : Qeq_bool v (nth (n - 1) edges 0) = false)
      by (apply Qeq_bool_false; lra).
    assert (H1 : (0 < Np.searchsorted_right edges v)%nat).
    { apply searchsorted_right_lower; [lia|].
      intros i Hi. replace i with 0%nat by lia. lra. }
    assert (H2 : (Np.searchsorted_right edges v <= n - 1)%nat)
      by (apply searchsorted_right_upper; [lia | lra]).
    assert (Hb : b = Np.searchsorted_right edges v)
      by (rewrite Eb, He; reflexivity).
    pose proof (searchsorted_right_below edges v (b - 1)%nat
                  ltac:(lia)) as Hbelow.
    pose proof (searchsorted_right_above edges v ltac:(lia)) as Habove.
    rewrite <- Hb in Habove.
    split; [lia|]. split; [split; [exact Hbelow | lra]|].
    split; [intros; lra|]. split; [intros; exact Habove|].
    split.
    + intros Hv _.
      assert (nth 0 edges 0 <= nth (b - 1) edges 0)
        by (apply Hle; lia).
      lra.
    + intros Hv H1'.
      assert ((Np.searchsorted_right edges v <= 1)%nat)
        by (apply searchsorted_right_upper; [lia | lra]).
      lia.
  - assert (Hv : v == hi) by lra.
    assert (He : Qeq_bool v (nth (n - 1) edges 0) = true)
      by (apply Qeq_bool_iff; lra).
    assert (H1 : (n - 1 < Np.searchsorted_right edges v)%nat).
    { apply searchsorted_right_lower; [lia|].
      intros i Hi.
      assert (nth i edges 0 <= nth (n - 1) edges 0) by (apply Hle; lia).
      lra. }
    assert (Hb : b = (n - 1)%nat) by (rewrite Eb, He; lia).
    assert (nth (n - 1 - 1) edges 0 <= nth (n - 1) edges 0)
      by (apply Hle; lia).
    assert (nth 1 edges 0 <= nth (n - 1) edges 0) by (apply Hle; lia).
    rewrite Hb.
    split; [lia|]. split; [split; lra|].
    split; [reflexivity|]. split; [intros; lra|].
    split; intros; lra.
Qed.

End Edges.

End ArrayFacts.

(** ** [apply_smoothing] *)

Module SmoothFacts.
Import Smooth ArrayFacts.

Lemma combine_map {A B C} (f : A -> B) (g : A -> C) l :
  combine (map f l) (map g l) = map (fun x => (f x, g x)) l.
Proof.
  induction l as [|x l IH]; simpl; [reflexivity|]. rewrite IH. reflexivity.
Qed.

Lemma combine_tabulate {A B} n m (f : nat -> nat -> A) (g : nat -> nat -> B) :
  map2 (@combine A B) (tabulate n m f) (tabulate n m g)
  = tabulate n m (fun i j => (f i j, g i j)).
Proof.
  unfold tabulate. rewrite map2_map. apply map_ext. intros i.
  apply combine_map.
Qed.

Lemma divide_tabulate n m hf cf :
  Np.divide (tabulate n m hf) (tabulate n m cf)
            (Np.zeros_like (tabulate n m hf))
            (Np.not_equal_zero (tabulate n m cf))
  = tabulate n m (fun i j =>
      if negb (Qeq_bool (cf i j) 0) then hf i j / cf i j else 0).
Proof.
  unfold Np.divide, Np.zeros_like, Np.not_equal_zero.
  rewrite !map_map_tabulate, !combine_tabulate, map2_tabulate.
  reflexivity.
Qed.


Lemma histogram2d_ok x y xe ye w :
  Np.monotonic xe = true -> Np.monotonic ye = true ->
  xe <> [] -> ye <> [] ->
  Np.histogram2d x y xe ye w
  = Ok (tabulate (List.length xe - 1) (List.length ye - 1)
         (fun i j =>
            Qsum (map snd
              (filter (fun s => Np.in_cell xe ye i j (fst s))
                 (combine (combine x y)
                    match w with
                    | Some w => w
                    | None => map (fun _ => 1) x
                    end))))).
Proof.
  intros Hx Hy Nx Ny. unfold Np.histogram2d. rewrite Hx, Hy. simpl negb.
  destruct xe as [|a xe]; [congruence|].
  destruct ye as [|b ye]; [congruence|]. reflexivity.
Qed.

Lemma weighted_filter (p : Q * Q -> bool) (w : Scored.Row -> Q) df :
  map snd (filter (fun s => p (fst s))
             (combine (combine (map Scored.lat df) (map Scored.lon df))
                      (map w df)))
  = map w (filter (fun s => p (Scored.lat s, Scored.lon s)) df).
Proof.
  induction df as [|r df IH]; simpl; [reflexivity|].
  destruct (p (Scored.lat r, Scored.lon r)); simpl; rewrite IH; reflexivity.
Qed.

Lemma linspace_nonempty lo hi n : (1 <= n)%nat -> Np.linspace lo hi n <> [].
Proof.
  intros H E. apply (f_equal (@List.length Q)) in E.
  rewrite length_linspace in E. simpl in E. lia.
Qed.

Section Run.

Variable parse_float : string -> option Q.
Variable gaussian_kernel1d : Q -> nat -> list Q.

Variable samples : list Scored.Row.
Variable resolution : nat.
Hypothesis some_sample : samples <> [].
Hypothesis some_edge : (1 <= resolution)%nat.

Lemma lats_nonempty : map Scored.lat samples <> [].
Proof. destruct samples; [congruence | discriminate]. Qed.

Lemma lons_nonempty : map Scored.lon samples <> [].
Proof. destruct samples; [congruence | discriminate]. Qed.

Lemma length_lat_bins : List.length (lat_bins samples resolution) = resolution.
Proof. apply length_linspace. Qed.

Lemma length_lon_bins : List.length (lon_bins samples resolution) = resolution.
Proof. apply length_linspace. Qed.

Lemma histogram2d_weighted :
  Np.histogram2d (map Scored.lat samples) (map Scored.lon samples)
    (lat_bins samples resolution) (lon_bins samples resolution)
    (Some (map Scored.prob samples))
  = Ok (heatmap_grid samples resolution).
Proof.
  rewrite histogram2d_ok.
  - rewrite length_lat_bins, length_lon_bins. unfold heatmap_grid.
    f_equal. unfold tabulate. apply map_ext; intros i.
    apply map_ext; intros j. unfold heat_cell, cell_samples.
    rewrite (weighted_filter (Np.in_cell _ _ i j)). reflexivity.
  - apply monotonic_linspace, least_le_greatest, lats_nonempty.
  - apply monotonic_linspace, least_le_greatest, lons_nonempty.
  - apply linspace_nonempty, some_edge.
  - apply linspace_nonempty, some_edge.
Qed.

Lemma histogram2d_counts :
  Np.histogram2d (map Scored.lat samples) (map Scored.lon samples)
    (lat_bins samples resolution) (lon_bins samples resolution) None
  = Ok (counts samples resolution).
Proof.
  rewrite histogram2d_ok.
  - rewrite length_lat_bins, length_lon_bins. unfold counts.
    f_equal. unfold tabulate. apply map_ext; intros i.
    apply map_ext; intros j. unfold count_cell, cell_samples.
    rewrite map_map.
    rewrite (weighted_filter (Np.in_cell _ _ i j) (fun _ => 1)).
    reflexivity.
  - apply monotonic_linspace, least_le_greatest, lats_nonempty.
  - apply monotonic_linspace, least_le_greatest, lons_nonempty.
  - apply linspace_nonempty, some_edge.
  - apply linspace_nonempty, some_edge.
Qed.

Lemma avg_probs_of_grids :
  avg_probs_of (heatmap_grid samples resolution) (counts samples resolution)
  = avg_probs samples resolution.
Proof.
  unfold avg_probs_of, heatmap_grid, counts. rewrite divide_tabulate.
  reflexivity.
Qed.

End Run.

(** The value of a call on a frame that keeps a sample, for a positive
    resolution. *)
Lemma apply_smoothing_run parse_float gaussian_kernel1d df resolution :
  dropna_to_numeric parse_float df <> [] ->
  (1 <= resolution)%nat ->
  let samples := dropna_to_numeric parse_float df in
  apply_smoothing parse_float gaussian_kernel1d df resolution
  = Ok (smoothed_points resolution
          (centers (lat_bins samples resolution))
          (centers (lon_bins samples resolution))
          (smoothed_probs gaussian_kernel1d samples resolution)).
Proof.
  intros Hs Hr samples. unfold apply_smoothing. fold samples.
  pose proof (lats_nonempty samples Hs) as Hlat.
  pose proof (lons_nonempty samples Hs) as Hlon.
  unfold Np.amin, Np.amax.
  destruct (map Scored.lat samples) as [|la lats] eqn:Ela; [congruence|].
  destruct (map Scored.lon samples) as [|lo lons] eqn:Elo; [congruence|].
  cbn [bind_result]. rewrite <- Ela, <- Elo.
  fold (lat_bins samples resolution). fold (lon_bins samples resolution).
  rewrite (histogram2d_weighted samples resolution Hs Hr).
  rewrite (histogram2d_counts samples resolution Hs Hr).
  cbn [bind_result]. rewrite avg_probs_of_grids. reflexivity.
Qed.

(** C1, at the frame without rows and at a frame whose only row has no
    probability: the call raises ValueError, for every resolution; it does
    not return an empty frame. *)
Theorem apply_smoothing_raises_on_no_sample :
  forall parse_float gaussian_kernel1d resolution,
    dropna_to_numeric parse_float Data.no_rows = []
    /\ apply_smoothing parse_float gaussian_kernel1d Data.no_rows resolution
       = Raise "ValueError"
    /\ dropna_to_numeric parse_float Data.row_without_prob = []
    /\ apply_smoothing parse_float gaussian_kernel1d Data.row_without_prob
         resolution
       = Raise "ValueError"
    /\ Trend.plot_loss_trend []
       = Trend.st_warning
           "No forest loss points found inside the selected area.".
Proof.
  intros. repeat split; reflexivity.
Qed.

(** Whatever the frame, a call that keeps no sample raises ValueError. *)
Lemma apply_smoothing_no_sample parse_float gaussian_kernel1d df resolution :
  dropna_to_numeric parse_float df = [] ->
  apply_smoothing parse_float gaussian_kernel1d df resolution
  = Raise "ValueError".
Proof.
  intros H. unfold apply_smoothing. rewrite H. reflexivity.
Qed.

Section Binning.

Variable samples : list Scored.Row.
Variable resolution : nat.
Hypothesis some_sample : samples <> [].
Hypothesis two_edges : (2 <= resolution)%nat.

Local Abbreviation lats := (map Scored.lat samples).
Local Abbreviation lons := (map Scored.lon samples).

Lemma lat_in_range s :
  In s samples -> Np.least lats <= Scored.lat s <= Np.greatest lats.
Proof.
  intros H. split; [apply least_le | apply greatest_ge]; apply in_map, H.
Qed.

Lemma lon_in_range s :
  In s samples -> Np.least lons <= Scored.lon s <= Np.greatest lons.
Proof.
  intros H. split; [apply least_le | apply greatest_ge]; apply in_map, H.
Qed.

Lemma lat_bin_in_range s :
  In s samples ->
  (1 <= Np.bin_number (lat_bins samples resolution) (Scored.lat s)
   <= resolution - 1)%nat.
Proof.
  intros H. destruct (lat_in_range s H).
  apply bin_number_in_range; try assumption.
  apply least_le_greatest, lats_nonempty, some_sample.
Qed.

Lemma lon_bin_in_range s :
  In s samples ->
  (1 <= Np.bin_number (lon_bins samples resolution) (Scored.lon s)
   <= resolution - 1)%nat.
Proof.
  intros H. destruct (lon_in_range s H).
  apply bin_number_in_range; try assumption.
  apply least_le_greatest, lons_nonempty, some_sample.
Qed.

End Binning.

(** In exact arithmetic the edges of [np.linspace] are such edges. *)
Lemma linspace_spans lo hi n :
  (2 <= n)%nat -> lo <= hi -> Np.spans (Np.linspace lo hi n) lo hi n.
Proof.
  intros Hn Hle. split; [apply length_linspace|].
  split; [apply monotonic_linspace, Hle|].
  split; [apply nth_linspace_first; assumption|].
  rewrite last_linspace by exact Hn. reflexivity.
Qed.

(** C4, as the code has it.  The edges of an axis are what [np.linspace]
    returns for the least and the greatest coordinate: [resolution] edges
    that do not descend, the first the least coordinate, the last the
    greatest; the edges in between are evenly spaced up to their rounding,
    of which nothing is assumed.  For a frame that keeps a sample, a
    resolution of at least two and such edges on both axes: every sample
    lies in exactly one cell of the grid, between the edges of that cell
    on each axis and below its upper edge unless the sample is at the
    greatest coordinate; a sample at the greatest coordinate of an axis
    lies in the last bin of that axis; a sample at the least coordinate,
    when the least and the greatest coordinate differ, lies in the bin
    that begins at the least coordinate and does not end there, which is
    the first bin whenever the second edge lies above the least
    coordinate. *)
Theorem binning_covers_every_sample :
  forall parse_float df resolution lat_edges lon_edges,
    let samples := dropna_to_numeric parse_float df in
    let lats := map Scored.lat samples in
    let lons := map Scored.lon samples in
    samples <> [] ->
    (2 <= resolution)%nat ->
    Np.spans lat_edges (Np.least lats) (Np.greatest lats) resolution ->
    Np.spans lon_edges (Np.least lons) (Np.greatest lons) resolution ->
    forall s, In s samples ->
      exists i j,
        (i < resolution - 1)%nat /\ (j < resolution - 1)%nat
        /\ (forall i' j',
              Np.in_cell lat_edges lon_edges i' j'
                         (Scored.lat s, Scored.lon s) = true
              <-> i' = i /\ j' = j)
        /\ (nth i lat_edges 0 <= Scored.lat s <= nth (S i) lat_edges 0
            /\ nth j lon_edges 0 <= Scored.lon s <= nth (S j) lon_edges 0)
        /\ (Scored.lat s == Np.greatest lats -> i = (resolution - 2)%nat)
        /\ (Scored.lon s == Np.greatest lons -> j = (resolution - 2)%nat)
        /\ (Scored.lat s < Np.greatest lats ->
            Scored.lat s < nth (S i) lat_edges 0)
        /\ (Scored.lon s < Np.greatest lons ->
            Scored.lon s < nth (S j) lon_edges 0)
        /\ (Scored.lat s == Np.least lats ->
            Np.least lats < Np.greatest lats ->
            nth i lat_edges 0 == Np.least lats)
        /\ (Scored.lon s == Np.least lons ->
            Np.least lons < Np.greatest lons ->
            nth j lon_edges 0 == Np.least lons)
        /\ (Scored.lat s == Np.least lats ->
            Np.least lats < nth 1 lat_edges 0 -> i = 0%nat)
        /\ (Scored.lon s == Np.least lons ->
            Np.least lons < nth 1 lon_edges 0 -> j = 0%nat).
Proof.
  intros parse_float df resolution lat_edges lon_edges samples lats lons
         Hs Hn Hlat Hlon s Hin.
  destruct (lat_in_range samples s Hin) as (La & Lb).
  destruct (lon_in_range samples s Hin) as (Oa & Ob).
  fold lats in La, Lb. fold lons in Oa, Ob.
  destruct (bin_of_value lat_edges _ _ resolution Hn Hlat (Scored.lat s)
              La Lb) as (A1 & A2 & A3 & A4 & A5 & A6).
  destruct (bin_of_value lon_edges _ _ resolution Hn Hlon (Scored.lon s)
              Oa Ob) as (B1 & B2 & B3 & B4 & B5 & B6).
  set (a := Np.bin_number lat_edges (Scored.lat s)) in *.
  set (b := Np.bin_number lon_edges (Scored.lon s)) in *.
  assert (Ea : S (a - 1) = a) by lia.
  assert (Eb : S (b - 1) = b) by lia.
  exists (a - 1)%nat, (b - 1)%nat. rewrite Ea, Eb.
  split; [lia|]. split; [lia|].
  split.
  { intros i' j'. unfold Np.in_cell. cbn [fst snd]. fold a b.
    rewrite andb_true_iff, !Nat.eqb_eq. lia. }
  split; [split; assumption|].
  split; [intros H; specialize (A3 H); lia|].
  split; [intros H; specialize (B3 H); lia|].
  split; [exact A4|]. split; [exact B4|].
  split; [exact A5|]. split; [exact B5|].
  split; [intros H H'; specialize (A6 H H'); lia|].
  intros H H'. specialize (B6 H H'). lia.
Qed.

(** The theorem at two samples whose latitudes are neighbours among the
    binary64 numbers, with four edges per axis, those of the latitude as
    binary64 rounds them: the sample at the least latitude lies in the
    second bin of the latitude, the first bin that does not end at the
    least latitude. *)
Lemma binning_covers_every_sample_witness :
  let samples := dropna_to_numeric no_parse Data.two_close_scores in
  exists i j,
    (forall i' j',
       Np.in_cell Data.close_lat_edges (lon_bins samples 4) i' j' (50, 0)
       = true
       <-> i' = i /\ j' = j)
    /\ i = 1%nat /\ j = 0%nat.
Proof.
  intros samples.
  destruct (binning_covers_every_sample
              no_parse Data.two_close_scores 4
              Data.close_lat_edges (lon_bins samples 4))
    with (s := {| Scored.lat := 50; Scored.lon := 0; Scored.prob := 1 # 2 |})
    as (i & j & _ & _ & Hcell & _).
  - discriminate.
  - lia.
  - repeat split; vm_compute; reflexivity.
  - repeat split; vm_compute; reflexivity.
  - left. reflexivity.
  - exists i, j. split; [exact Hcell|].
    assert (E : (1 = i /\ 0 = j)%nat)
      by (apply Hcell; vm_compute; reflexivity).
    split; symmetry; apply E.
Defined.

(** C4 fails on a frame of a single sample with three edges per axis: the
    sample has the least latitude and the least longitude, yet no cell of
    the first row or of the first column holds it; it is counted in the
    last cell. *)
Lemma single_sample_lies_in_last_bin :
  let samples := dropna_to_numeric no_parse Data.one_sample in
  samples = [ {| Scored.lat := 5; Scored.lon := 7; Scored.prob := 1 # 2 |} ]
  /\ Np.least (map Scored.lat samples) = 5
  /\ Np.bin_number (lat_bins samples 3) 5 = 2%nat
  /\ Np.bin_number (lon_bins samples 3) 7 = 2%nat
  /\ cell_samples samples 3 0 0 = []
  /\ cell_samples samples 3 0 1 = []
  /\ cell_samples samples 3 1 0 = []
  /\ cell_samples samples 3 1 1 = samples
  /\ Np.histogram2d (map Scored.lat samples) (map Scored.lon samples)
       (lat_bins samples 3) (lon_bins samples 3) None
     = Ok [[0; 0]; [0; 1]].
Proof.
  repeat split; vm_compute; reflexivity.
Qed.

(** *** The emitted points *)

Lemma NoDup_pairs {A B} (a : A) (l : list B) :
  NoDup l -> NoDup (map (pair a) l).
Proof.
  induction 1 as [|b l Hb Hl IH]; simpl; constructor; [|exact IH].
  intros H. apply in_map_iff in H. destruct H as (b' & E & Hin).
  inversion E; subst. contradiction.
Qed.

Lemma NoDup_list_prod {A B} (l1 : list A) (l2 : list B) :
  NoDup l1 -> NoDup l2 -> NoDup (list_prod l1 l2).
Proof.
  intros H1 H2. induction H1 as [|a l1 Ha Hl IH]; simpl; [constructor|].
  apply NoDup_app; [apply NoDup_pairs, H2 | exact IH |].
  intros [a' b] Hin Hin'.
  apply in_map_iff in Hin. destruct Hin as (b' & E & _).
  inversion E; subst. apply in_prod_iff in Hin'. tauto.
Qed.

Lemma loops_as_filter {A} (P : nat -> nat -> bool) (F : nat -> nat -> A) l2 :
  forall l1,
  flat_map (fun i => flat_map (fun j => if P i j then [F i j] else []) l2) l1
  = map (fun c => F (fst c) (snd c))
        (filter (fun c => P (fst c) (snd c)) (list_prod l1 l2)).
Proof.
  induction l1 as [|i l1 IH]; simpl; [reflexivity|].
  rewrite IH, filter_app, map_app. f_equal.
  clear IH. induction l2 as [|j l2 IH]; simpl; [reflexivity|].
  destruct (P i j); simpl; rewrite IH; reflexivity.
Qed.

Lemma smoothed_points_cells resolution lat_centers lon_centers smoothed :
  smoothed_points resolution lat_centers lon_centers smoothed
  = map (cell_point lat_centers lon_centers smoothed)
        (filter (fun c => Qltb 0 (get smoothed (fst c) (snd c)))
                (cells resolution)).
Proof.
  unfold smoothed_points, cells.
  apply (loops_as_filter
           (fun i j => Qltb 0 (get smoothed i j))
           (fun i j => {| Scored.lat := nth i lat_centers 0;
                          Scored.lon := nth j lon_centers 0;
                          Scored.prob := get smoothed i j |})).
Qed.

Lemma nth_centers bins : forall i,
  (S i < List.length bins)%nat ->
  nth i (centers bins) 0 = (nth i bins 0 + nth (S i) bins 0) / 2.
Proof.
  induction bins as [|a bins IH]; intros i Hi; simpl in Hi; [lia|].
  destruct bins as [|b bins]; simpl in Hi; [lia|].
  change (centers (a :: b :: bins)) with ((a + b) / 2 :: centers (b :: bins)).
  destruct i as [|i]; [reflexivity|].
  change (nth (S i) ((a + b) / 2 :: centers (b :: bins)) 0)
    with (nth i (centers (b :: bins)) 0).
  rewrite IH by (simpl; lia). reflexivity.
Qed.

Lemma center_of_bin lo hi n i :
  (S i < n)%nat ->
  nth i (centers (Np.linspace lo hi n)) 0
  == lo + (Qn i + (1 # 2)) * width lo hi n.
Proof.
  intros Hi. rewrite nth_centers by (rewrite length_linspace; exact Hi).
  rewrite nth_linspace_step by lia. rewrite nth_linspace by lia.
  field.
Qed.

(** C5.  For a frame that keeps a sample and a positive resolution, the
    call returns the points of the cells whose smoothed value is positive,
    one point per such cell and in the order of the two loops: no cell is
    listed twice, the cells are the pairs below [resolution - 1], and the
    point of the cell [(i, j)] has the smoothed value of that cell and the
    middle of the bin [i] of the latitudes and of the bin [j] of the
    longitudes.  So every probability returned is positive and there are
    at most [(resolution - 1)^2] points. *)
Theorem one_point_per_positive_cell :
  forall parse_float gaussian_kernel1d df resolution,
    let samples := dropna_to_numeric parse_float df in
    let lats := map Scored.lat samples in
    let lons := map Scored.lon samples in
    let smoothed := smoothed_probs gaussian_kernel1d samples resolution in
    let lat_centers := centers (lat_bins samples resolution) in
    let lon_centers := centers (lon_bins samples resolution) in
    samples <> [] ->
    (1 <= resolution)%nat ->
    exists points,
      apply_smoothing parse_float gaussian_kernel1d df resolution = Ok points
      /\ points
         = map (cell_point lat_centers lon_centers smoothed)
             (filter (fun c => Qltb 0 (get smoothed (fst c) (snd c)))
                     (cells resolution))
      /\ NoDup (cells resolution)
      /\ (forall i j, In (i, j) (cells resolution)
                      <-> (i < resolution - 1)%nat /\ (j < resolution - 1)%nat)
      /\ (forall i j, (i < resolution - 1)%nat -> (j < resolution - 1)%nat ->
            Scored.prob (cell_point lat_centers lon_centers smoothed (i, j))
            = get smoothed i j
            /\ Scored.lat (cell_point lat_centers lon_centers smoothed (i, j))
               == Np.least lats
                  + (Qn i + (1 # 2))
                    * width (Np.least lats) (Np.greatest lats) resolution
            /\ Scored.lon (cell_point lat_centers lon_centers smoothed (i, j))
               == Np.least lons
                  + (Qn j + (1 # 2))
                    * width (Np.least lons) (Np.greatest lons) resolution)
      /\ (forall p, In p points -> 0 < Scored.prob p)
      /\ (List.length points <= (resolution - 1) * (resolution - 1))%nat.
Proof.
  intros parse_float k df resolution samples lats lons smoothed
         lat_centers lon_centers Hs Hr.
  eexists. split; [apply apply_smoothing_run; assumption|].
  fold samples. fold smoothed. fold lat_centers. fold lon_centers.
  rewrite smoothed_points_cells.
  split; [reflexivity|].
  split; [apply NoDup_list_prod; apply seq_NoDup|].
  split.
  { intros i j. unfold cells. rewrite in_prod_iff, !in_seq. lia. }
  split.
  { intros i j Hi Hj. cbn [cell_point Scored.prob Scored.lat Scored.lon fst snd].
    split; [reflexivity|].
    split; apply center_of_bin; lia. }
  split.
  { intros p Hp. apply in_map_iff in Hp. destruct Hp as (c & <- & Hc).
    apply filter_In in Hc. destruct Hc as (_ & Hc).
    apply Qltb_lt in Hc. exact Hc. }
  rewrite length_map.
  etransitivity; [apply filter_length_le|].
  unfold cells. rewrite length_prod, !length_seq. lia.
Qed.

(** The points of the frame of three scores on a grid of two by two
    cells, with the kernel of rationals. *)
Lemma one_point_per_positive_cell_witness :
  exists points,
    apply_smoothing no_parse rational_kernel Data.three_scores 3 = Ok points
    /\ (List.length points <= (3 - 1) * (3 - 1))%nat.
Proof.
  destruct (one_point_per_positive_cell
              no_parse rational_kernel Data.three_scores 3)
    as (points & H1 & _ & _ & _ & _ & _ & H2).
  - discriminate.
  - lia.
  - exists points. split; [exact H1 | exact H2].
Defined.

(** *** The mean of a cell *)

Lemma Qsum_ones {A} (l : list A) :
  Qsum (map (fun _ => 1) l) == Qn (List.length l).
Proof.
  induction l as [|a l IH]; [reflexivity|].
  simpl List.length. rewrite Qn_S. simpl. rewrite IH. ring.
Qed.

Lemma count_cell_length samples resolution i j :
  count_cell samples resolution i j
  == Qn (List.length (cell_samples samples resolution i j)).
Proof. apply Qsum_ones. Qed.

Lemma count_cell_zero samples resolution i j :
  Qeq_bool (count_cell samples resolution i j) 0 = true
  <-> cell_samples samples resolution i j = [].
Proof.
  rewrite Qeq_bool_iff, count_cell_length.
  destruct (cell_samples samples resolution i j) as [|s l]; simpl List.length.
  - split; reflexivity.
  - pose proof (Qn_pos (List.length l)).
    split; [intros H0; lra | discriminate].
Qed.



(** *** The Gaussian filter keeps an upper bound *)

Lemma Qsum_app l1 l2 : Qsum (l1 ++ l2) == Qsum l1 + Qsum l2.
Proof.
  induction l1 as [|a l1 IH]; simpl; [ring|]. rewrite IH. ring.
Qed.

Lemma Qsum_rev l : Qsum (rev l) == Qsum l.
Proof.
  induction l as [|a l IH]; simpl; [reflexivity|].
  rewrite Qsum_app, IH. simpl. ring.
Qed.

Lemma reflect_lt n z : (0 < n)%nat -> (Ndimage.reflect n z < n)%nat.
Proof.
  intros Hn. unfold Ndimage.reflect.
  pose proof (Z.mod_pos_bound z (2 * Z.of_nat n)) as Hm.
  destruct (Z.ltb_spec (z mod (2 * Z.of_nat n)) (Z.of_nat n)); lia.
Qed.

Lemma map_snd_combine {A B} (l1 : list A) : forall (l2 : list B),
  List.length l1 = List.length l2 -> map snd (combine l1 l2) = l2.
Proof.
  induction l1 as [|a l1 IH]; intros [|b l2] H; simpl in *;
    try reflexivity; try discriminate.
  rewrite IH by lia. reflexivity.
Qed.

Section Bounded.

Variable M : Q.

Lemma weighted_le (f : nat -> Q) (xs : list (nat * Q)) :
  (forall j, f j <= M) ->
  Forall (fun jw => 0 <= snd jw) xs ->
  Qsum (map (fun jw => snd jw * f (fst jw)) xs) <= M * Qsum (map snd xs).
Proof.
  intros Hf. induction 1 as [|[j w] xs Hw Hxs IH]; simpl.
  - rewrite Qmult_0_r. apply Qle_refl.
  - simpl in Hw.
    assert (f j * w <= M * w) by (apply Qmult_le_compat_r; auto).
    lra.
Qed.

Variable weights : list Q.
Hypothesis weights_nonneg : Forall (Qle 0) weights.
Hypothesis weights_sum : Qsum weights == 1.

Lemma correlate1d_le line :
  Forall (fun x => x <= M) line ->
  Forall (fun x => x <= M) (Ndimage.correlate1d line weights).
Proof.
  intros Hline. unfold Ndimage.correlate1d.
  apply Forall_forall. intros x Hx.
  apply in_map_iff in Hx. destruct Hx as (i & <- & Hi).
  apply in_seq in Hi.
  set (f := fun j : nat =>
         nth (Ndimage.reflect (List.length line)
                (Z.of_nat i + Z.of_nat j
                 - Z.of_nat (List.length weights / 2))%Z) line 0).
  change (Qsum (map (fun jw : nat * Q => snd jw * f (fst jw))
                    (combine (seq 0 (List.length weights)) weights)) <= M).
  assert (Hsum : M * Qsum (map snd (combine (seq 0 (List.length weights))
                                            weights)) == M).
  { rewrite map_snd_combine by apply length_seq.
    rewrite weights_sum. ring. }
  rewrite <- Hsum. apply weighted_le.
  - intros j. unfold f. rewrite Forall_forall in Hline.
    apply Hline, nth_In, reflect_lt. lia.
  - apply Forall_forall. intros [j w] Hjw. simpl.
    apply in_combine_r in Hjw.
    rewrite Forall_forall in weights_nonneg. apply weights_nonneg, Hjw.
Qed.

Lemma length_correlate1d line :
  List.length (Ndimage.correlate1d line weights) = List.length line.
Proof.
  unfold Ndimage.correlate1d. rewrite length_map, length_seq. reflexivity.
Qed.

(** A grid of [n] rows of [m] entries, all at most [M]. *)
Local Abbreviation bounded n m g :=
  (List.length g = n
   /\ Forall (fun row => List.length row = m) g
   /\ Forall (Forall (fun x => x <= M)) g).

Lemma transpose_bounded n m g :
  bounded n m g -> bounded m n (Ndimage.transpose m g).
Proof.
  intros (Hn & Hm & Hg). unfold Ndimage.transpose.
  split; [rewrite length_map, length_seq; reflexivity|].
  split.
  - apply Forall_forall. intros row Hrow.
    apply in_map_iff in Hrow. destruct Hrow as (j & <- & _).
    rewrite length_map. exact Hn.
  - apply Forall_forall. intros row Hrow.
    apply in_map_iff in Hrow. destruct Hrow as (j & <- & Hj).
    apply in_seq in Hj.
    apply Forall_forall. intros x Hx.
    apply in_map_iff in Hx. destruct Hx as (r & <- & Hr).
    rewrite Forall_forall in Hm, Hg.
    pose proof (Hg r Hr) as Hall. rewrite Forall_forall in Hall.
    apply Hall, nth_In. rewrite (Hm r Hr). lia.
Qed.

Lemma correlate1d_axis1_bounded n m g :
  bounded n m g -> bounded n m (Ndimage.correlate1d_axis1 g weights).
Proof.
  intros (Hn & Hm & Hg). unfold Ndimage.correlate1d_axis1.
  split; [rewrite length_map; exact Hn|].
  split.
  - apply Forall_forall. intros row Hrow.
    apply in_map_iff in Hrow. destruct Hrow as (r & <- & Hr).
    rewrite length_correlate1d. rewrite Forall_forall in Hm. apply Hm, Hr.
  - apply Forall_forall. intros row Hrow.
    apply in_map_iff in Hrow. destruct Hrow as (r & <- & Hr).
    apply correlate1d_le. rewrite Forall_forall in Hg. apply Hg, Hr.
Qed.

Lemma correlate1d_axis0_bounded n m g :
  bounded n m g -> bounded n m (Ndimage.correlate1d_axis0 g weights).
Proof.
  intros Hb. unfold Ndimage.correlate1d_axis0.
  destruct g as [|r g].
  - destruct Hb as (Hn & _ & _). simpl in Hn. subst n.
    split; [reflexivity|]. split; constructor.
  - assert (Hr : List.length (hd [] (r :: g)) = m).
    { destruct Hb as (_ & Hm & _). inversion Hm; subst. reflexivity. }
    rewrite Hr.
    assert (Hn : List.length (r :: g) = n) by apply Hb.
    rewrite Hn.
    apply transpose_bounded.
    apply (correlate1d_axis1_bounded m n).
    apply transpose_bounded, Hb.
Qed.

Lemma get_bounded n m g i j :
  bounded n m g -> (i < n)%nat -> (j < m)%nat -> get g i j <= M.
Proof.
  intros (Hn & Hm & Hg) Hi Hj. unfold get.
  rewrite Forall_forall in Hm, Hg.
  assert (Hin : In (nth i g []) g) by (apply nth_In; lia).
  pose proof (Hg _ Hin) as Hall. rewrite Forall_forall in Hall.
  apply Hall, nth_In. rewrite (Hm _ Hin). exact Hj.
Qed.

Lemma tabulate_bounded n m f :
  (forall i j, (i < n)%nat -> (j < m)%nat -> f i j <= M) ->
  bounded n m (tabulate n m f).
Proof.
  intros Hf. unfold tabulate.
  split; [rewrite length_map, length_seq; reflexivity|].
  split.
  - apply Forall_forall. intros row Hrow.
    apply in_map_iff in Hrow. destruct Hrow as (i & <- & _).
    rewrite length_map, length_seq. reflexivity.
  - apply Forall_forall. intros row Hrow.
    apply in_map_iff in Hrow. destruct Hrow as (i & <- & Hi).
    apply in_seq in Hi.
    apply Forall_forall. intros x Hx.
    apply in_map_iff in Hx. destruct Hx as (j & <- & Hj).
    apply in_seq in Hj. apply Hf; lia.
Qed.

End Bounded.

Lemma gaussian_filter_le gaussian_kernel1d M n m f i j :
  Forall (Qle 0) (gaussian_kernel1d (3 # 2) 6%nat) ->
  Qsum (gaussian_kernel1d (3 # 2) 6%nat) == 1 ->
  (forall i j, (i < n)%nat -> (j < m)%nat -> f i j <= M) ->
  (i < n)%nat -> (j < m)%nat ->
  get (Ndimage.gaussian_filter gaussian_kernel1d (tabulate n m f) (3 # 2)) i j
  <= M.
Proof.
  intros Hk0 Hk1 Hf Hi Hj. unfold Ndimage.gaussian_filter.
  change (Z.to_nat (Qfloor (Ndimage.truncate * (3 # 2) + (1 # 2))))
    with 6%nat.
  assert (Hr0 : Forall (Qle 0) (rev (gaussian_kernel1d (3 # 2) 6%nat)))
    by apply Forall_rev, Hk0.
  assert (Hr1 : Qsum (rev (gaussian_kernel1d (3 # 2) 6%nat)) == 1)
    by (rewrite Qsum_rev; exact Hk1).
  apply (get_bounded M n m); try assumption.
  apply correlate1d_axis1_bounded; try assumption.
  apply correlate1d_axis0_bounded; try assumption.
  apply tabulate_bounded, Hf.
Qed.

Lemma rational_kernel_nonneg : Forall (Qle 0) (rational_kernel (3 # 2) 6).
Proof.
  unfold rational_kernel. apply Forall_forall. intros x Hx.
  apply in_map_iff in Hx. destruct Hx as (a & <- & Ha).
  simpl in Ha.
  repeat (destruct Ha as [<-|Ha]; [unfold Qle; simpl; lia|]).
  contradiction.
Qed.

Lemma rational_kernel_sum : Qsum (rational_kernel (3 # 2) 6) == 1.
Proof. vm_compute. reflexivity. Qed.

End SmoothFacts.

(** * Further properties of the code *)

(** ** The yearly trend: totals and the order of the samples *)

Module TrendMore.
Import Trend TrendFacts.

Local Abbreviation total l := (fold_right Z.add 0%Z l).

Lemma total_Permutation (a b : list Z) :
  Permutation a b -> total a = total b.
Proof. induction 1; simpl; lia. Qed.

(** A row changes the total of the groups by its count, up to a multiple
    of [2 ^ 64]. *)
Lemma sum_group_add k v g :
  Int64.wrap (total (map snd (group_add k v g)))
  = Int64.wrap (total (map snd g) + v).
Proof.
  induction g as [|[k0 v0] g IH]; simpl; [f_equal; lia|].
  destruct (k <? k0)%Z; [simpl; f_equal; lia|].
  destruct (k =? k0)%Z; simpl.
  - unfold Int64.add. rewrite wrap_add_l. f_equal. lia.
  - rewrite <- wrap_add_r, IH, wrap_add_r. f_equal. lia.
Qed.

Lemma sum_groups_fold df : forall acc,
  Int64.wrap
    (total (map snd (fold_left
                       (fun groups kv => group_add (fst kv) (snd kv) groups)
                       (keyed df) acc)))
  = Int64.wrap (total (map snd acc) + total (map Loss.count df)).
Proof.
  induction df as [|r df IH]; intros acc; simpl; [f_equal; lia|].
  rewrite IH. rewrite <- wrap_add_l, sum_group_add, wrap_add_l.
  simpl. f_equal. lia.
Qed.

Lemma loss_pixels_with_year g : map loss_pixels (with_year g) = map snd g.
Proof. unfold with_year. rewrite map_map. reflexivity. Qed.

Lemma loss_pixels_trend df :
  total (map loss_pixels (trend_df df))
  = total (map snd (groupby_sum (keyed df))).
Proof.
  rewrite <- loss_pixels_with_year. apply total_Permutation.
  apply Permutation_map, sort_values_year_Permutation.
Qed.

Lemma trend_total df :
  Int64.wrap (total (map loss_pixels (trend_df df)))
  = Int64.wrap (total (map Loss.count df)).
Proof.
  rewrite loss_pixels_trend. unfold groupby_sum.
  rewrite sum_groups_fold. simpl. reflexivity.
Qed.

(** Over keys that occur once each, a count is found under its own key
    alone. *)
Lemma one_key c k0 keys :
  NoDup keys -> In k0 keys ->
  total (map (fun k => if (k0 =? k)%Z then c else 0%Z) keys) = c.
Proof.
  induction 1 as [|k keys Hk Hn IH]; intros Hin; [destruct Hin|].
  simpl. destruct Hin as [->|Hin].
  - rewrite Z.eqb_refl.
    assert (E : total (map (fun k => if (k0 =? k)%Z then c else 0%Z) keys)
                = 0%Z).
    { clear IH Hn. induction keys as [|k keys IH]; simpl; [reflexivity|].
      destruct (k0 =? k)%Z eqn:E.
      - apply Z.eqb_eq in E. exfalso. apply Hk. left. auto.
      - apply IH. intros H. apply Hk. right. exact H. }
    lia.
  - destruct (k0 =? k)%Z eqn:E.
    + apply Z.eqb_eq in E. subst. contradiction.
    + rewrite IH by exact Hin. lia.
Qed.

Lemma total_map_add (f g : Z -> Z) keys :
  total (map (fun k => (f k + g k)%Z) keys)
  = (total (map f keys) + total (map g keys))%Z.
Proof. induction keys as [|k keys IH]; simpl; lia. Qed.

(** The totals of the labels share the counts of the frame. *)
Lemma totals_share_the_counts keys df :
  NoDup keys ->
  (forall s, In s df -> In (Loss.label s) keys) ->
  total (map (fun k => total_of k df) keys) = total (map Loss.count df).
Proof.
  intros Hn. induction df as [|r df IH]; intros Hk.
  - clear Hn Hk. induction keys as [|k keys IHk]; simpl;
      [reflexivity | exact IHk].
  - rewrite (map_ext _ (fun k =>
               ((if (Loss.label r =? k)%Z then Loss.count r else 0)
                + total_of k df)%Z)) by (intros; apply total_of_cons).
    rewrite total_map_add, one_key;
      [|exact Hn | apply Hk; left; reflexivity].
    rewrite IH by (intros; apply Hk; right; assumption).
    reflexivity.
Qed.

(** On int64 columns none of whose yearly totals leaves the int64 range,
    the records carry the totals of their years, and these add up to the
    total of [count]. *)
Lemma trend_total_exact df :
  Forall Loss.int64 df ->
  (forall k, Int64.in_range (total_of k df)) ->
  (forall r, In r (trend_df df) -> loss_pixels r = total_of (lossyear r) df)
  /\ total (map loss_pixels (trend_df df)) = total (map Loss.count df).
Proof.
  intros Hdf Hr. destruct (groupby_sum_spec df) as (Hs & Hv & Hk).
  assert (Hg : forall k v, In (k, v) (groupby_sum (keyed df)) ->
                 v = total_of k df).
  { intros k v Hin. rewrite <- (wrap_in_range _ (Hr k)).
    apply sum64_in_range; [apply counts_of_in_range, Hdf|].
    rewrite <- Hv. apply lookup_entry; assumption. }
  split.
  - intros r Hin. apply in_trend_df in Hin.
    destruct Hin as (k & v & Hin & ->). simpl. apply Hg, Hin.
  - rewrite loss_pixels_trend.
    rewrite <- (totals_share_the_counts
                  (map fst (groupby_sum (keyed df))) df).
    + rewrite map_map. f_equal. apply map_ext_in.
      intros [k v] Hin. simpl. apply Hg, Hin.
    + apply StronglySorted_lt_NoDup, Hs.
    + intros s Hin. apply Hk, in_map, Hin.
Qed.

(** X1.  The yearly totals agree with the total of [count] over the
    samples up to a multiple of [2 ^ 64].  On int64 columns none of whose
    yearly totals leaves the int64 range, every record carries the total
    of its year and the yearly totals add up to the total of [count]:
    grouping by year loses no pixel and counts none twice.  Every record
    carries the label of a sample and, as its year, the int64 sum of the
    label and 2000.  The plot shows these years and totals. *)
Theorem trend_keeps_the_total :
  forall df,
    let t := trend_df df in
    Int64.wrap (total (map loss_pixels t))
    = Int64.wrap (total (map Loss.count df))
    /\ (Forall Loss.int64 df ->
        (forall k, Int64.in_range (total_of k df)) ->
        (forall r, In r t -> loss_pixels r = total_of (lossyear r) df)
        /\ total (map loss_pixels t) = total (map Loss.count df))
    /\ (forall r, In r t ->
          year r = Int64.add (lossyear r) 2000
          /\ exists s, In s df /\ Loss.label s = lossyear r)
    /\ (df <> [] ->
        plot_loss_trend df = st_pyplot (map year t) (map loss_pixels t)).
Proof.
  intros df t. destruct (groupby_sum_spec df) as (Hs & Hv & Hk).
  split; [apply trend_total|]. split; [|split].
  - intros Hdf Hr. apply trend_total_exact; assumption.
  - intros r Hin. apply in_trend_df in Hin.
    destruct Hin as (k & v & Hin & ->). simpl. split; [reflexivity|].
    assert (Hin' : In k (map fst (groupby_sum (keyed df))))
      by apply (in_map fst _ _ Hin).
    apply Hk in Hin'. apply in_map_iff in Hin'.
    destruct Hin' as (s & Hs1 & Hs2). exists s; split; assumption.
  - intros Hne. destruct df as [|r df]; [congruence | reflexivity].
Qed.

(** The theorem at the three samples of the aggregation example. *)
Lemma trend_keeps_the_total_witness :
  total (map loss_pixels (trend_df Data.three_samples)) = 18%Z.
Proof.
  refine (proj2 (proj1 (proj2 (trend_keeps_the_total Data.three_samples))
                   _ _)).
  - repeat constructor; unfold Int64.min_int, Int64.max_int; simpl; lia.
  - intros k. unfold Int64.in_range, Int64.min_int, Int64.max_int.
    unfold Data.three_samples. rewrite !total_of_cons.
    cbn [Data.loss Loss.label Loss.count total_of counts_of filter map
         fold_right].
    destruct (1 =? k)%Z; destruct (2 =? k)%Z; lia.
Defined.

(** Two lists of groups in ascending order of their keys that hold the
    same totals are the same list. *)
Lemma groups_ext g : forall g',
  StronglySorted Z.lt (map fst g) ->
  StronglySorted Z.lt (map fst g') ->
  (forall k, lookup k g = lookup k g') ->
  g = g'.
Proof.
  induction g as [|[k v] g IH]; intros [|[k' v'] g'] Hs Hs' Hv.
  - reflexivity.
  - specialize (Hv k'). simpl in Hv. rewrite Z.eqb_refl in Hv. discriminate.
  - specialize (Hv k). simpl in Hv. rewrite Z.eqb_refl in Hv. discriminate.
  - simpl in Hs, Hs'.
    inversion Hs as [|? ? Hs1 Ha]; subst.
    inversion Hs' as [|? ? Hs1' Ha']; subst.
    rewrite Forall_forall in Ha, Ha'.
    assert (Hfresh : ~ In k (map fst g))
      by (intros H; apply Ha in H; lia).
    assert (Hfresh' : ~ In k' (map fst g'))
      by (intros H; apply Ha' in H; lia).
    assert (Ek : k = k').
    { destruct (Z.lt_trichotomy k k') as [Hlt|[E|Hgt]]; [|exact E|].
      - pose proof (Hv k) as E. simpl in E. rewrite Z.eqb_refl in E.
        destruct (k' =? k)%Z eqn:E'; [apply Z.eqb_eq in E'; lia|].
        rewrite lookup_fresh in E; [discriminate|].
        intros H. apply Ha' in H. lia.
      - pose proof (Hv k') as E. simpl in E. rewrite Z.eqb_refl in E.
        destruct (k =? k')%Z eqn:E'; [apply Z.eqb_eq in E'; lia|].
        rewrite lookup_fresh in E; [discriminate|].
        intros H. apply Ha in H. lia. }
    subst k'.
    assert (Ev : v = v').
    { pose proof (Hv k) as E. simpl in E. rewrite Z.eqb_refl in E.
      congruence. }
    subst v'. f_equal. apply IH; try assumption.
    intros k0. pose proof (Hv k0) as E. simpl in E.
    destruct (k =? k0)%Z eqn:E0; [|exact E].
    apply Z.eqb_eq in E0. subst k0.
    rewrite !lookup_fresh by assumption. reflexivity.
Qed.

Lemma counts_of_Permutation k df df' :
  Permutation df df' -> Permutation (counts_of k df) (counts_of k df').
Proof.
  induction 1 as [|r l l' _ IH|r r' l|l l' l'' _ IH1 _ IH2].
  - reflexivity.
  - rewrite !counts_of_cons.
    destruct (Loss.label r =? k)%Z; [constructor|]; exact IH.
  - rewrite !counts_of_cons.
    destruct (Loss.label r =? k)%Z, (Loss.label r' =? k)%Z;
      try reflexivity. apply perm_swap.
  - etransitivity; eassumption.
Qed.

(** X2.  The trend does not depend on the order of the samples. *)
Theorem trend_ignores_the_order :
  forall df df', Permutation df df' -> trend_df df = trend_df df'.
Proof.
  intros df df' Hp. unfold trend_df. do 2 f_equal.
  destruct (groupby_sum_spec df) as (Hs & Hv & _).
  destruct (groupby_sum_spec df') as (Hs' & Hv' & _).
  apply groups_ext; [exact Hs | exact Hs' |].
  intros k. rewrite Hv, Hv'.
  apply sum64_Permutation, counts_of_Permutation, Hp.
Qed.

(** The theorem at the three samples, the last one moved to the front. *)
Lemma trend_ignores_the_order_witness :
  trend_df [Data.loss 0 0 2 3; Data.loss 0 0 1 10; Data.loss 0 0 1 5]
  = trend_df Data.three_samples.
Proof.
  apply trend_ignores_the_order. unfold Data.three_samples.
  apply (Permutation_cons_append
           [Data.loss 0 0 1 10; Data.loss 0 0 1 5] (Data.loss 0 0 2 3)).
Defined.

End TrendMore.

(** ** The risk levels: a partition, and the colours *)

Module RiskMore.
Import Risk RiskFacts.

Lemma Qltb_negb a b : Qltb a b = negb (Qgeb a b).
Proof. reflexivity. Qed.

Lemma Qgeb_HIGH_MED p : Qgeb p HIGH = true -> Qgeb p MED = true.
Proof.
  rewrite !Qgeb_le. unfold HIGH, MED. intros H. lra.
Qed.

Lemma Qgeb_MED_LOW p : Qgeb p MED = true -> Qgeb p LOW = true.
Proof.
  rewrite !Qgeb_le. unfold MED, LOW. intros H. lra.
Qed.

(** X3.  The rows shown under "All" are the rows shown under "Low", under
    "Medium" and under "High" taken together, each row once: the three
    levels share no row and leave out no row of "All". *)
Theorem levels_partition_all :
  forall df,
    Permutation (select "All" df)
                (select "Low" df ++ select "Medium" df ++ select "High" df)
    /\ List.length (select "All" df)
       = (List.length (select "Low" df) + List.length (select "Medium" df)
          + List.length (select "High" df))%nat.
Proof.
  intros df.
  assert (P : Permutation (select "All" df)
                (select "Low" df ++ select "Medium" df ++ select "High" df)).
  { unfold select; simpl String.eqb. cbv iota.
    induction df as [|r df IH]; simpl; [constructor|].
    rewrite !Qltb_negb.
    destruct (Qgeb (Scored.prob r) HIGH) eqn:EH.
    - rewrite (Qgeb_HIGH_MED _ EH), (Qgeb_MED_LOW _ (Qgeb_HIGH_MED _ EH)).
      simpl. rewrite app_assoc. apply Permutation_cons_app.
      rewrite <- app_assoc. exact IH.
    - destruct (Qgeb (Scored.prob r) MED) eqn:EM.
      + rewrite (Qgeb_MED_LOW _ EM). simpl.
        apply Permutation_cons_app. exact IH.
      + destruct (Qgeb (Scored.prob r) LOW); simpl; [|exact IH].
        constructor. exact IH. }
  split; [exact P|].
  rewrite (Permutation_length P), !length_app. lia.
Qed.

(** X4.  Whatever the option of the radio, the tab shows no row below LOW, only
    rows of the frame, and every row in the colour of its level: dark red
    from HIGH on, orange-red from MED to HIGH, orange below MED; a frame
    without rows has no column ["prob"] and the tab raises KeyError. *)
Theorem view_colours_by_level :
  forall risk_level classifier_df,
    (classifier_df = [] ->
     Classifier.view risk_level classifier_df = Raise "KeyError")
    /\ (classifier_df <> [] ->
        exists shown,
          Classifier.view risk_level classifier_df = Ok shown
          /\ map fst shown = select risk_level classifier_df
          /\ forall r c, In (r, c) shown ->
               In r classifier_df
               /\ LOW <= Scored.prob r
               /\ ((HIGH <= Scored.prob r /\ c = [139; 0; 0]%Z)
                   \/ (MED <= Scored.prob r /\ Scored.prob r < HIGH
                       /\ c = [255; 69; 0]%Z)
                   \/ (Scored.prob r < MED /\ c = [255; 165; 0]%Z))).
Proof.
  intros level df. split; [intros ->; reflexivity|].
  intros Hne. destruct df as [|r0 df]; [congruence|].
  eexists. split; [reflexivity|].
  split; [rewrite map_map; apply map_id|].
  intros r c Hin. apply in_map_iff in Hin.
  destruct Hin as (r' & E & Hin). inversion E; subst r' c. clear E.
  assert (Hsel : In r (r0 :: df) /\ LOW <= Scored.prob r).
  { revert Hin. unfold select.
    destruct (String.eqb level "High");
      [|destruct (String.eqb level "Medium");
        [|destruct (String.eqb level "Low")]];
      rewrite filter_In, ?andb_true_iff, !Qgeb_le;
      unfold HIGH, MED, LOW; intros H; split; try tauto; lra. }
  destruct Hsel as (H1 & H2). split; [exact H1|]. split; [exact H2|].
  destruct (get_color_by_level (Scored.prob r)) as (CH & CM & CL).
  destruct (Qlt_le_dec (Scored.prob r) HIGH) as [LH|GH];
    [|left; split; [exact GH | apply CH, GH]].
  destruct (Qlt_le_dec (Scored.prob r) MED) as [LM|GM].
  - right; right. split; [exact LM | apply CL, LM].
  - right; left. split; [exact GM|]. split; [exact LH | apply CM; assumption].
Qed.

(** The theorem at a frame of one row of probability 0.29. *)
Lemma view_colours_by_level_witness :
  exists shown,
    Classifier.view "All" [Data.row (29 # 100)] = Ok shown
    /\ map fst shown = select "All" [Data.row (29 # 100)].
Proof.
  destruct (proj2 (view_colours_by_level "All" [Data.row (29 # 100)]))
    as (shown & H1 & H2 & _); [discriminate|].
  exists shown. split; [exact H1 | exact H2].
Defined.

End RiskMore.

(** ** The spatial filter: what it leaves alone, and how calls compose *)

Module FilterMore.
Import Frames FilterFacts.

Lemma update_same s : forall r d,
  nth_error s r = Some d -> update s r d = s.
Proof.
  induction s as [|d0 s IH]; intros [|r] d H; simpl in *;
    try discriminate; try reflexivity.
  - injection H as ->. reflexivity.
  - rewrite (IH _ _ H). reflexivity.
Qed.

Lemma nth_error_in_range (s : store) r d :
  nth_error s r = Some d -> (r < List.length s)%nat.
Proof.
  intros H. apply nth_error_Some. congruence.
Qed.

(** X5.  A call changes one thing in the store it is given: the column
    ["point"] of its argument.  The rows of the argument stay, every other
    frame stays, and the frame returned sits at an address that was free.
    When [shape] raises, the store is left as it was. *)
Theorem filter_touches_only_the_point_column :
  forall s df d ring,
    nth_error s df = Some d ->
    exists outcome s',
      filter_points_in_polygon df ring s = (outcome, s')
      /\ (forall r, r <> df -> (r < List.length s)%nat ->
            nth_error s' r = nth_error s r)
      /\ (exists d', nth_error s' df = Some d' /\ rows d' = rows d)
      /\ (forall out, outcome = Ok out ->
            out = List.length s /\ nth_error s out = None
            /\ List.length s' = S (List.length s))
      /\ (forall e, outcome = Raise e -> s' = s).
Proof.
  intros s df d ring Hd.
  pose proof (nth_error_in_range _ _ _ Hd) as Hlt.
  destruct (Geo.shape ring) as [polygon|e] eqn:Hp.
  - eexists _, _.
    split; [apply (filter_points_in_polygon_run _ _ _ _ _ Hd Hp)|].
    split.
    { intros r Hr Hrl. rewrite nth_error_app1
        by (rewrite length_update; exact Hrl).
      apply nth_error_update_other. congruence. }
    split.
    { eexists. split.
      - rewrite nth_error_app1 by (rewrite length_update; exact Hlt).
        apply (nth_error_update _ _ _ _ Hd).
      - reflexivity. }
    split.
    { intros out E. injection E as <-. split; [reflexivity|].
      split; [apply nth_error_None; lia|].
      rewrite length_app, length_update. simpl. lia. }
    intros e E. discriminate.
  - eexists _, _.
    split; [apply (filter_points_in_polygon_raises _ _ _ _ Hp)|].
    split; [reflexivity|].
    split; [exists d; split; [exact Hd | reflexivity]|].
    split; [intros out E; discriminate | reflexivity].
Qed.

(** The theorem at the square and its three samples. *)
Lemma filter_touches_only_the_point_column_witness :
  exists outcome s',
    filter_points_in_polygon 0%nat Data.square
      [Data.loss_df Data.square_samples] = (outcome, s')
    /\ exists d', nth_error s' 0%nat = Some d'
                  /\ rows d' = Data.square_samples.
Proof.
  destruct (filter_touches_only_the_point_column
              [Data.loss_df Data.square_samples] 0%nat
              (Data.loss_df Data.square_samples) Data.square eq_refl)
    as (outcome & s' & H1 & _ & H2 & _).
  exists outcome, s'. split; [exact H1 | exact H2].
Defined.

(** X6.  A second call with the same frame and the same ring finds the column
    ["point"] already there and rewrites it with the same points: the
    frame is left as the first call left it, the frame the first call
    returned is left alone, and the second call returns a new frame with
    the same rows and points. *)
Theorem filter_twice_is_filter_once :
  forall s df d ring polygon,
    nth_error s df = Some d ->
    Geo.shape ring = Ok polygon ->
    exists out1 s1 out2 s2,
      filter_points_in_polygon df ring s = (Ok out1, s1)
      /\ filter_points_in_polygon df ring s1 = (Ok out2, s2)
      /\ out2 <> out1
      /\ nth_error s2 df = nth_error s1 df
      /\ nth_error s2 out1 = nth_error s1 out1
      /\ nth_error s2 out2 = nth_error s1 out1.
Proof.
  intros s df d ring polygon Hd Hp.
  pose proof (nth_error_in_range _ _ _ Hd) as Hlt.
  set (d1 := {| rows := rows d; point := Some (map point_of (rows d)) |}).
  set (o1 := {| rows := filter (inside polygon) (rows d);
                point := Some (map point_of
                                 (filter (inside polygon) (rows d))) |}).
  assert (H1 : filter_points_in_polygon df ring s
               = (Ok (List.length s), update s df d1 ++ [o1]))
    by apply (filter_points_in_polygon_run _ _ _ _ _ Hd Hp).
  assert (Hd1 : nth_error (update s df d1 ++ [o1]) df = Some d1).
  { rewrite nth_error_app1 by (rewrite length_update; exact Hlt).
    apply (nth_error_update _ _ _ _ Hd). }
  pose proof (filter_points_in_polygon_run _ _ _ _ _ Hd1 Hp) as H2.
  change {| rows := rows d1; point := Some (map point_of (rows d1)) |}
    with d1 in H2.
  rewrite (update_same _ _ _ Hd1) in H2.
  change {| rows := filter (inside polygon) (rows d1);
            point := Some (map point_of
                             (filter (inside polygon) (rows d1))) |}
    with o1 in H2.
  eexists _, _, _, _.
  split; [exact H1|]. split; [exact H2|].
  rewrite length_app, length_update. simpl.
  split; [lia|].
  split; [rewrite nth_error_app1
            by (rewrite length_app, length_update; simpl; lia);
          reflexivity|].
  split.
  - rewrite nth_error_app1
      by (rewrite length_app, length_update; simpl; lia).
    reflexivity.
  - rewrite <- (length_update s df d1) at 2.
    rewrite nth_error_alloc.
    replace (List.length s + 1)%nat
      with (List.length (update s df d1 ++ [o1]))
      by (rewrite length_app, length_update; reflexivity).
    rewrite nth_error_alloc. reflexivity.
Qed.

(** The theorem at the square and its three samples. *)
Lemma filter_twice_is_filter_once_witness :
  exists out1 s1 out2 s2,
    filter_points_in_polygon 0%nat Data.square
      [Data.loss_df Data.square_samples] = (Ok out1, s1)
    /\ filter_points_in_polygon 0%nat Data.square s1 = (Ok out2, s2)
    /\ nth_error s2 out2 = nth_error s1 out1.
Proof.
  destruct (filter_twice_is_filter_once
              [Data.loss_df Data.square_samples] 0%nat
              (Data.loss_df Data.square_samples) Data.square
              (Geo.Shell (Data.square ++ [(0, 0)])) eq_refl eq_refl)
    as (out1 & s1 & out2 & s2 & H1 & H2 & _ & _ & _ & H3).
  exists out1, s1, out2, s2. split; [exact H1|]. split; [exact H2 | exact H3].
Defined.

End FilterMore.

Module FilterCompose.
Import Frames FilterFacts FilterMore.

Lemma nth_error_alloc_update (s : store) r d' o :
  nth_error (update s r d' ++ [o]) (List.length s) = Some o.
Proof.
  rewrite <- (length_update s r d'). apply nth_error_alloc.
Qed.

Lemma filter_filter {A} (f g : A -> bool) (l : list A) :
  filter g (filter f l) = filter (fun a => f a && g a) l.
Proof.
  induction l as [|a l IH]; simpl; [reflexivity|].
  destruct (f a); simpl; [destruct (g a); rewrite IH; reflexivity | exact IH].
Qed.

(** X7.  The frame a call returns can be filtered again: filtering with one
    ring and then with another returns the rows that lie inside both
    polygons, in their order, whichever ring comes first. *)
Theorem filter_then_filter_is_both :
  forall s df d ring1 polygon1 ring2 polygon2,
    nth_error s df = Some d ->
    Geo.shape ring1 = Ok polygon1 ->
    Geo.shape ring2 = Ok polygon2 ->
    exists out12 s12 d12 out21 s21 d21,
      bind (filter_points_in_polygon df ring1)
           (fun out => filter_points_in_polygon out ring2) s
      = (Ok out12, s12)
      /\ bind (filter_points_in_polygon df ring2)
              (fun out => filter_points_in_polygon out ring1) s
         = (Ok out21, s21)
      /\ nth_error s12 out12 = Some d12
      /\ nth_error s21 out21 = Some d21
      /\ rows d12
         = filter (fun row => inside polygon1 row && inside polygon2 row)
                  (rows d)
      /\ rows d21 = rows d12.
Proof.
  intros s df d ring1 polygon1 ring2 polygon2 Hd H1 H2.
  assert (Step : forall ra pa rb pb,
    Geo.shape ra = Ok pa -> Geo.shape rb = Ok pb ->
    exists out s' d',
      bind (filter_points_in_polygon df ra)
           (fun out => filter_points_in_polygon out rb) s = (Ok out, s')
      /\ nth_error s' out = Some d'
      /\ rows d' = filter (fun row => inside pa row && inside pb row)
                          (rows d)).
  { intros ra pa rb pb Ha Hb.
    unfold bind at 1.
    rewrite (filter_points_in_polygon_run _ _ _ _ _ Hd Ha).
    set (s1 := update s df _ ++ [_]).
    assert (Ho : nth_error s1 (List.length s)
                 = Some {| rows := filter (inside pa) (rows d);
                           point := Some (map point_of
                                            (filter (inside pa) (rows d))) |}).
    { unfold s1. apply nth_error_alloc_update. }
    rewrite (filter_points_in_polygon_run _ _ _ _ _ Ho Hb).
    eexists _, _, _. split; [reflexivity|].
    split.
    - apply nth_error_alloc_update.
    - cbn [rows]. apply filter_filter. }
  destruct (Step ring1 polygon1 ring2 polygon2 H1 H2)
    as (o12 & s12 & d12 & E12 & N12 & R12).
  destruct (Step ring2 polygon2 ring1 polygon1 H2 H1)
    as (o21 & s21 & d21 & E21 & N21 & R21).
  exists o12, s12, d12, o21, s21, d21.
  repeat (split; [assumption|]).
  rewrite R21, R12. apply filter_ext. intros row. apply andb_comm.
Qed.

(** The theorem at the square, the open triangle and the samples of the
    square. *)
Lemma filter_then_filter_is_both_witness :
  exists out12 s12 d12,
    bind (filter_points_in_polygon 0%nat Data.square)
         (fun out => filter_points_in_polygon out Data.open_triangle)
         [Data.loss_df Data.square_samples]
    = (Ok out12, s12)
    /\ nth_error s12 out12 = Some d12.
Proof.
  destruct (filter_then_filter_is_both
              [Data.loss_df Data.square_samples] 0%nat
              (Data.loss_df Data.square_samples)
              Data.square (Geo.Shell (Data.square ++ [(0, 0)]))
              Data.open_triangle
              (Geo.Shell (Data.open_triangle ++ [(0, 0)]))
              eq_refl eq_refl eq_refl)
    as (o12 & s12 & d12 & _ & _ & _ & H1 & _ & H2 & _).
  exists o12, s12, d12. split; [exact H1 | exact H2].
Defined.

(** X8.  A ring without a vertex makes the empty polygon, which contains no
    point: the call raises nothing and returns a frame without rows, and
    the argument still receives its column of points. *)
Theorem filter_with_no_vertex_returns_no_row :
  forall s df d,
    nth_error s df = Some d ->
    exists out s',
      filter_points_in_polygon df [] s = (Ok out, s')
      /\ nth_error s' out = Some {| rows := []; point := Some [] |}
      /\ nth_error s' df
         = Some {| rows := rows d; point := Some (map point_of (rows d)) |}.
Proof.
  intros s df d Hd.
  pose proof (nth_error_in_range _ _ _ Hd) as Hlt.
  assert (E : filter (inside Geo.Empty) (rows d) = []).
  { induction (rows d) as [|r l IH]; [reflexivity | exact IH]. }
  eexists _, _.
  split; [apply (filter_points_in_polygon_run s df d [] Geo.Empty Hd eq_refl)|].
  rewrite E. split.
  - apply nth_error_alloc_update.
  - rewrite nth_error_app1 by (rewrite length_update; exact Hlt).
    apply (nth_error_update _ _ _ _ Hd).
Qed.

(** The theorem at the samples of the square. *)
Lemma filter_with_no_vertex_returns_no_row_witness :
  exists out s',
    filter_points_in_polygon 0%nat [] [Data.loss_df Data.square_samples]
    = (Ok out, s')
    /\ nth_error s' out = Some {| rows := []; point := Some [] |}.
Proof.
  destruct (filter_with_no_vertex_returns_no_row
              [Data.loss_df Data.square_samples] 0%nat
              (Data.loss_df Data.square_samples) eq_refl)
    as (out & s' & H1 & H2 & _).
  exists out, s'. split; [exact H1 | exact H2].
Defined.

End FilterCompose.

(** ** The drawn polygon and the Historical Trends section *)

Module DrawingFacts.
Import Drawing.

Lemma handle_invariant returned st :
  (polygon st <> None <-> polygon_updated st = Some true) ->
  (polygon (handle returned st) <> None
   <-> polygon_updated (handle returned st) = Some true).
Proof.
  intros I. unfold handle.
  destruct returned as [[[|first rest]|]|]; try exact I; simpl.
  - destruct (polygon st) eqn:E; [|rewrite E; exact I].
    simpl. split; [congruence | discriminate].
  - split; [reflexivity | discriminate].
  - destruct (polygon st) eqn:E; [|rewrite E; exact I].
    simpl. split; [congruence | discriminate].
Qed.

(** X9.  Whatever the map returns from run to run, starting from a session
    without the two keys: a polygon is in the session exactly when
    [polygon_updated] is [True] there; and handling the same return a
    second time changes nothing. *)
Theorem polygon_is_there_iff_flag_is_set :
  forall returns,
    let st := fold_left (fun st returned => handle returned st)
                        returns initial in
    (polygon st <> None <-> polygon_updated st = Some true)
    /\ forall returned, handle returned (handle returned st)
                        = handle returned st.
Proof.
  intros returns.
  assert (I : forall st0,
    (polygon st0 <> None <-> polygon_updated st0 = Some true) ->
    let st := fold_left (fun st returned => handle returned st) returns st0 in
    polygon st <> None <-> polygon_updated st = Some true).
  { induction returns as [|r returns IH]; intros st0 H0; simpl; [exact H0|].
    apply IH, handle_invariant, H0. }
  intros st. split.
  - apply I. simpl. split; [congruence | discriminate].
  - intros returned. unfold handle.
    destruct returned as [[[|first rest]|]|]; try reflexivity;
      destruct (polygon st) eqn:E; simpl; try rewrite E; reflexivity.
Qed.

(** X10.  The Historical Trends section.  Without a polygon in the session it
    shows the hint only and touches nothing.  With one, on a frame of the
    store and a ring that [shape] accepts, it shows the number of rows
    inside the polygon, then the warning when that number is zero and
    else the plot of the years and yearly totals of the rows inside.  The
    yearly totals agree with the total of [count] over the rows inside up
    to a multiple of [2 ^ 64], and add up to it on int64 columns none of
    whose yearly totals leaves the int64 range.  An exception of [shape]
    leaves the section as it is. *)
Theorem historical_trends_shows_the_rows_inside :
  forall st s df d,
    nth_error s df = Some d ->
    (polygon st = None -> historical_trends st df s = (Ok [info], s))
    /\ (forall ring e,
          polygon st = Some ring -> Geo.shape ring = Raise e ->
          historical_trends st df s = (Raise e, s))
    /\ (forall ring polygon_,
          polygon st = Some ring -> Geo.shape ring = Ok polygon_ ->
          let inside_rows := filter (Frames.inside polygon_) (Frames.rows d) in
          let t := Trend.trend_df inside_rows in
          let total l := fold_right Z.add 0%Z l in
          exists s',
            historical_trends st df s
            = (Ok [found (List.length inside_rows);
                   trend (Trend.plot_loss_trend inside_rows);
                   caption], s')
            /\ (inside_rows = [] ->
                Trend.plot_loss_trend inside_rows
                = Trend.st_warning
                    "No forest loss points found inside the selected area.")
            /\ (inside_rows <> [] ->
                Trend.plot_loss_trend inside_rows
                = Trend.st_pyplot (map Trend.year t) (map Trend.loss_pixels t)
                /\ Int64.wrap (total (map Trend.loss_pixels t))
                   = Int64.wrap (total (map Loss.count inside_rows))
                /\ (Forall Loss.int64 (Frames.rows d) ->
                    (forall k,
                       Int64.in_range (Trend.total_of k inside_rows)) ->
                    total (map Trend.loss_pixels t)
                    = total (map Loss.count inside_rows)))).
Proof.
  intros st s df d Hd. unfold historical_trends.
  split; [intros ->; reflexivity|].
  split.
  - intros ring e -> He. unfold Frames.bind.
    rewrite (FilterFacts.filter_points_in_polygon_raises _ _ _ _ He).
    reflexivity.
  - intros ring polygon_ -> Hp.
    set (inside_rows := filter (Frames.inside polygon_) (Frames.rows d)).
    unfold Frames.bind, Frames.deref, Frames.ret.
    rewrite (FilterFacts.filter_points_in_polygon_run _ _ _ _ _ Hd Hp).
    rewrite FilterCompose.nth_error_alloc_update.
    eexists. split; [reflexivity|].
    split; [intros ->; reflexivity|].
    intros Hne.
    split; [destruct inside_rows; [congruence | reflexivity]|].
    split; [apply TrendMore.trend_total|].
    intros Hdf Hr. apply TrendMore.trend_total_exact; [|exact Hr].
    apply Forall_forall. intros r Hin. rewrite Forall_forall in Hdf.
    apply Hdf. unfold inside_rows in Hin. apply filter_In in Hin.
    apply Hin.
Qed.

(** The theorem at the square and its three samples. *)
Lemma historical_trends_shows_the_rows_inside_witness :
  exists s',
    historical_trends
      {| polygon := Some Data.square; polygon_updated := Some true |}
      0%nat [Data.loss_df Data.square_samples]
    = (Ok [found 1; trend (Trend.plot_loss_trend [Data.at_ 5 5]); caption],
       s').
Proof.
  destruct (proj2 (proj2 (historical_trends_shows_the_rows_inside
              {| polygon := Some Data.square; polygon_updated := Some true |}
              [Data.loss_df Data.square_samples] 0%nat
              (Data.loss_df Data.square_samples) eq_refl))
              Data.square (Geo.Shell (Data.square ++ [(0, 0)]))
              eq_refl eq_refl)
    as (s' & H & _).
  exists s'. exact H.
Defined.

End DrawingFacts.

(** ** Navigation *)

Module NavFacts.
Import Nav.







End NavFacts.

(** ** The forecast table and the LSTM tab *)

Module LstmFacts.
Import Lstm.

Lemma in_unique y l : In y (unique l) <-> In y l.
Proof.
  induction l as [|v l IH]; simpl; [reflexivity|].
  rewrite filter_In, IH, negb_true_iff, Z.eqb_neq.
  destruct (Z.eq_dec v y) as [->|Hne]; [tauto|].
  split; [tauto|]. intros [H|H]; [contradiction|]. right. split; congruence.
Qed.

Lemma NoDup_filter {A} (f : A -> bool) l : NoDup l -> NoDup (filter f l).
Proof.
  induction 1 as [|a l Ha Hl IH]; simpl; [constructor|].
  destruct (f a); [|exact IH].
  constructor; [|exact IH]. rewrite filter_In. tauto.
Qed.

Lemma NoDup_unique l : NoDup (unique l).
Proof.
  induction l as [|v l IH]; simpl; constructor.
  - rewrite filter_In, negb_true_iff, Z.eqb_neq. tauto.
  - apply NoDup_filter, IH.
Qed.

Lemma insert_perm v l : Permutation (insert v l) (v :: l).
Proof.
  induction l as [|w l IH]; simpl; [reflexivity|].
  destruct (v <=? w)%Z; [reflexivity|].
  rewrite IH. apply perm_swap.
Qed.

Lemma sorted_perm l : Permutation (sorted l) l.
Proof.
  induction l as [|v l IH]; simpl; [constructor|].
  rewrite insert_perm. constructor. exact IH.
Qed.

Lemma insert_sorted v l :
  StronglySorted Z.le l -> StronglySorted Z.le (insert v l).
Proof.
  induction 1 as [|w l Hs IH Hall]; simpl; [repeat constructor|].
  destruct (v <=? w)%Z eqn:E.
  - apply Z.leb_le in E. constructor; [constructor; assumption|].
    constructor; [exact E|].
    eapply Forall_impl; [|exact Hall]. simpl; intros; lia.
  - apply Z.leb_gt in E. constructor; [exact IH|].
    apply Forall_forall. intros z Hz.
    apply (Permutation_in z (insert_perm v l)) in Hz.
    destruct Hz as [<-|Hz]; [lia|].
    rewrite Forall_forall in Hall. apply Hall, Hz.
Qed.

Lemma sorted_sorted l : StronglySorted Z.le (sorted l).
Proof.
  induction l as [|v l IH]; simpl; [constructor | apply insert_sorted, IH].
Qed.

Lemma strictly_sorted l :
  StronglySorted Z.le l -> NoDup l -> StronglySorted Z.lt l.
Proof.
  induction 1 as [|a l Hs IH Hall]; intros Hn; [constructor|].
  inversion Hn as [|? ? Ha Hl]; subst.
  constructor; [apply IH, Hl|].
  rewrite Forall_forall in *. intros z Hz.
  assert (a <> z) by (intros ->; contradiction).
  pose proof (Hall z Hz). lia.
Qed.

(** X13.  The years offered by the radio ascend, none twice, and they are the
    years of the rows of the table, no other. *)
Theorem years_are_the_years_of_the_rows :
  forall lstm_df,
    StronglySorted Z.lt (years lstm_df)
    /\ forall y, In y (years lstm_df) <-> exists r, In r lstm_df /\ year r = y.
Proof.
  intros df. unfold years. split.
  - apply strictly_sorted; [apply sorted_sorted|].
    apply (Permutation_NoDup (Permutation_sym (sorted_perm _))).
    apply NoDup_unique.
  - intros y. split.
    + intros H. apply (Permutation_in y (sorted_perm _)) in H.
      apply in_unique, in_map_iff in H. destruct H as (r & E & Hr).
      exists r; split; assumption.
    + intros (r & Hr & E).
      apply (Permutation_in y (Permutation_sym (sorted_perm _))).
      apply in_unique, in_map_iff. exists r; split; assumption.
Qed.

(** X14.  The tab shows a heat map exactly when some row of the table has the
    selected year and a predicted loss of 1; the map then holds exactly
    those rows, in their order.  Else, and whenever the radio has no
    selection, it shows the warning. *)
Theorem tab_shows_the_predicted_losses_of_the_year :
  forall lstm_df selected_year,
    (tab lstm_df selected_year
     = st_warning "No predicted deforestation points for the selected year."
     <-> forall r, In r lstm_df ->
           ~ (selected_year = Some (year r) /\ predicted_loss r = 1%Z))
    /\ (forall data, tab lstm_df selected_year = heatmap data ->
          data = df_year lstm_df selected_year
          /\ data <> []
          /\ forall r, In r data <->
               In r lstm_df /\ selected_year = Some (year r)
               /\ predicted_loss r = 1%Z).
Proof.
  intros df sel.
  assert (M : forall r, In r (df_year df sel) <->
                In r df /\ sel = Some (year r) /\ predicted_loss r = 1%Z).
  { intros r. unfold df_year. rewrite filter_In, andb_true_iff, Z.eqb_eq.
    destruct sel as [y|].
    - rewrite Z.eqb_eq. split; intros (H1 & H2 & H3); repeat split; auto;
        congruence.
    - split; intros (H1 & H2 & H3); discriminate. }
  unfold tab. destruct (df_year df sel) as [|r0 data] eqn:E.
  - split.
    + split; [|reflexivity]. intros _ r Hr (H1 & H2).
      apply (proj2 (M r)). repeat split; assumption.
    + intros data H. discriminate.
  - split.
    + split; [discriminate|]. intros H. exfalso.
      destruct (proj1 (M r0) (or_introl eq_refl)) as (H1 & H2 & H3).
      apply (H r0 H1). split; assumption.
    + intros data' H. injection H as <-.
      split; [reflexivity|]. split; [discriminate | exact M].
Qed.

Lemma astype_int_one q : astype_int q = 1%Z <-> 1 <= q /\ q < 2.
Proof.
  unfold astype_int. destruct (Qle_bool 0 q) eqn:E.
  - apply Qle_bool_iff in E.
    pose proof (Qfloor_le q) as H1. pose proof (Qlt_floor q) as H2.
    split.
    + intros H. rewrite H in H1, H2. simpl in H1, H2.
      change (inject_Z 1) with 1 in H1. change (inject_Z 2) with 2 in H2.
      split; assumption.
    + intros (Ha & Hb).
      assert (L : inject_Z (Qfloor q) < inject_Z 2)
        by (change (inject_Z 2) with 2; lra).
      assert (U : inject_Z 1 < inject_Z (Qfloor q + 1))
        by (change (inject_Z 1) with 1; lra).
      rewrite <- Zlt_Qlt in L, U. lia.
  - apply Qle_bool_false in E.
    pose proof (Qceiling_lt q) as H1.
    split.
    + intros H. rewrite H in H1. simpl in H1.
      change (inject_Z 0) with 0 in H1. lra.
    + intros (Ha & Hb). lra.
Qed.

Lemma astype_int_Z z : astype_int (inject_Z z) = z.
Proof.
  unfold astype_int. destruct (Qle_bool 0 (inject_Z z));
    [apply Qfloor_Z | apply Qceiling_Z].
Qed.

Lemma astype_int_in_range q : fits_int64 q -> Int64.in_range (astype_int q).
Proof.
  intros (Ha & Hb). unfold Int64.in_range.
  unfold Int64.min_int in *. unfold Int64.max_int in *.
  unfold astype_int. destruct (Qle_bool 0 q) eqn:E.
  - apply Qle_bool_iff in E.
    pose proof (Qfloor_le q) as H1. pose proof (Qlt_floor q) as H2.
    assert (L : inject_Z (-1) < inject_Z (Qfloor q + 1))
      by (change (inject_Z (-1)) with (-1 # 1); lra).
    assert (U : inject_Z (Qfloor q) < inject_Z 9223372036854775808).
    { change (inject_Z 9223372036854775808)
        with (inject_Z 9223372036854775807 + 1). lra. }
    rewrite <- Zlt_Qlt in L, U. lia.
  - apply Qle_bool_false in E.
    pose proof (Qle_ceiling q) as H1. pose proof (Qceiling_lt q) as H2.
    assert (L : inject_Z (-9223372036854775809) < inject_Z (Qceiling q)).
    { change (inject_Z (-9223372036854775809))
        with (inject_Z (-9223372036854775808) - 1). lra. }
    assert (U : inject_Z (Qceiling q - 1) < inject_Z 0)
      by (change (inject_Z 0) with 0; lra).
    rewrite <- Zlt_Qlt in L, U. lia.
Qed.

Lemma dropna_astype_kept df :
  exists kept,
    map complete kept = filter (fun r => negb (isna r)) df
    /\ dropna_astype df = map cut kept.
Proof.
  induction df as [|r df (kept & H1 & H2)]; [exists []; split; reflexivity|].
  unfold dropna_astype in *. simpl. unfold isna at 1.
  destruct r as [[y|] [p|] [la|] [lo|]]; cbn [raw_year raw_predicted_loss
    raw_lat raw_lon negb app];
    try (exists kept; split; assumption).
  exists ((y, p, la, lo) :: kept). simpl. rewrite H1, H2.
  split; reflexivity.
Qed.

(** X15.  Loading the forecast file.  A missing file stops the script.  Else
    the table holds the rows of the file without a missing value, all of
    them, once each and in their order, each with its year and its
    predicted loss cut to integers; when these values of the file have
    an integer part that is an int64, the table holds int64 values.
    Cutting leaves an integer as it is, takes a value no farther from zero
    than the float and less than one away from it, and makes a row a
    predicted loss exactly when its value in the file is at least 1 and
    below 2. *)
Theorem loadLSTMPredictions_cuts_to_integers :
  loadLSTMPredictions None = Raise "StopException"
  /\ (forall df,
        exists kept,
          map complete kept = filter (fun r => negb (isna r)) df
          /\ loadLSTMPredictions (Some df) = Ok (map cut kept)
          /\ ((forall y p la lo,
                 In (y, p, la, lo) kept -> fits_int64 y /\ fits_int64 p) ->
              forall r, In r (map cut kept) ->
                Int64.in_range (year r)
                /\ Int64.in_range (predicted_loss r)))
  /\ (forall z, astype_int (inject_Z z) = z)
  /\ (forall q,
        (0 <= q -> inject_Z (astype_int q) <= q < inject_Z (astype_int q) + 1)
        /\ (q <= 0 ->
            inject_Z (astype_int q) - 1 < q <= inject_Z (astype_int q)))
  /\ (forall q, astype_int q = 1%Z <-> 1 <= q /\ q < 2).
Proof.
  split; [reflexivity|].
  split; [|split; [exact astype_int_Z |split; [|exact astype_int_one]]].
  - intros df. destruct (dropna_astype_kept df) as (kept & H1 & H2).
    exists kept. split; [exact H1|].
    split; [unfold loadLSTMPredictions; rewrite H2; reflexivity|].
    intros Hfit r Hr. apply in_map_iff in Hr.
    destruct Hr as ([[[y p] la] lo] & <- & Hin).
    destruct (Hfit y p la lo Hin) as (Hy & Hp). simpl.
    split; apply astype_int_in_range; assumption.
  - intros q. unfold astype_int.
    pose proof (Qfloor_le q) as F1. pose proof (Qlt_floor q) as F2.
    pose proof (Qle_ceiling q) as C1. pose proof (Qceiling_lt q) as C2.
    rewrite inject_Z_plus in F2. change (inject_Z 1) with 1 in F2.
    unfold Zminus in C2. rewrite inject_Z_plus, inject_Z_opp in C2.
    change (inject_Z 1) with 1 in C2.
    destruct (Qle_bool 0 q) eqn:E.
    + apply Qle_bool_iff in E. split; [intros _; split; lra|].
      intros H0. assert (E0 : q == 0) by lra.
      assert (Qfloor q = 0%Z).
      { assert (L : inject_Z 0 < inject_Z (Qfloor q + 1)).
        { rewrite inject_Z_plus. change (inject_Z 1) with 1.
          change (inject_Z 0) with 0. lra. }
        assert (U : inject_Z (Qfloor q) < inject_Z 1)
          by (change (inject_Z 1) with 1; lra).
        rewrite <- Zlt_Qlt in L, U. lia. }
      rewrite H. change (inject_Z 0) with 0. split; lra.
    + apply Qle_bool_false in E. split; [intros H0; lra|].
      intros _. split; lra.
Qed.

(** The theorem at three rows, the second without a longitude. *)
Lemma loadLSTMPredictions_cuts_to_integers_witness :
  exists rows,
    loadLSTMPredictions (Some Data.forecast_rows) = Ok rows
    /\ List.length rows = 2%nat
    /\ forall r, In r rows ->
         Int64.in_range (year r) /\ Int64.in_range (predicted_loss r).
Proof.
  destruct (proj1 (proj2 loadLSTMPredictions_cuts_to_integers)
              Data.forecast_rows) as (kept & H1 & H2 & H3).
  assert (E : kept = [(2024, 17 # 10, 53, -115); (2025, 0, 55, -114)]).
  { simpl in H1. destruct kept as [|[[[y p] la] lo] [|[[[y' p'] la'] lo'] [|]]];
      try discriminate. injection H1 as -> -> -> -> -> -> -> ->.
    reflexivity. }
  exists (map cut kept). split; [exact H2|].
  split; [rewrite E; reflexivity|].
  apply H3. intros y p la lo Hin. rewrite E in Hin.
  unfold fits_int64, Int64.min_int, Int64.max_int.
  destruct Hin as [H|[H|[]]]; injection H as <- <- <- <-;
    split; split; reflexivity.
Defined.

End LstmFacts.

(** ** The geometry column *)

Module GeometryFacts.
Import Geometry.

(** X16.  [parse_geo] on a text that [json.loads] reads as an object.  Without
    a key ["coordinates"] it raises KeyError.  With an array under that
    key it returns (lat, lon) when the array is exactly [lon, lat], and
    raises ValueError for an array of any other length, a third entry
    included.  A position of two numbers makes a loss row whose point, as
    the spatial filter builds it, is that position.  An exception of
    [json.loads] is passed on. *)
Theorem parse_geo_needs_exactly_two_coordinates :
  forall json_loads geo_str,
    (forall e, json_loads geo_str = Raise e ->
       parse_geo json_loads geo_str = Raise e)
    /\ (forall members,
          json_loads geo_str = Ok (Json.Obj members) ->
          (Json.getitem (Json.Obj members) "coordinates" = Raise "KeyError" ->
           parse_geo json_loads geo_str = Raise "KeyError")
          /\ (forall items,
                Json.getitem (Json.Obj members) "coordinates"
                = Ok (Json.Arr items) ->
                (forall lon lat, items = [lon; lat] ->
                   parse_geo json_loads geo_str = Ok (lat, lon))
                /\ (List.length items <> 2%nat ->
                    parse_geo json_loads geo_str = Raise "ValueError")
                /\ (forall lon lat label count,
                      items = [Json.Number lon; Json.Number lat] ->
                      exists lat_lon row,
                        parse_geo json_loads geo_str = Ok lat_lon
                        /\ loss_row lat_lon label count = Some row
                        /\ Loss.label row = label
                        /\ Loss.count row = count
                        /\ Frames.point_of row
                           = {| Geo.x := lon; Geo.y := lat |}))).
Proof.
  intros loads s. split.
  - intros e H. unfold parse_geo. rewrite H. reflexivity.
  - intros members Hl. split.
    + intros H. unfold parse_geo. rewrite Hl. cbn [bind_result].
      rewrite H. reflexivity.
    + intros items H. split; [|split].
      * intros lon lat ->. unfold parse_geo. rewrite Hl. cbn [bind_result].
        rewrite H. reflexivity.
      * intros Hlen. unfold parse_geo. rewrite Hl. cbn [bind_result].
        rewrite H. cbn [bind_result Json.unpack2 Json.iterate].
        destruct items as [|a [|b [|c items]]]; simpl in Hlen;
          try reflexivity. congruence.
      * intros lon lat label count ->.
        eexists _, _. split.
        { unfold parse_geo. rewrite Hl. cbn [bind_result].
          rewrite H. reflexivity. }
        repeat split.
Qed.

(** The theorem for a reader that returns a point with an altitude. *)
Lemma parse_geo_needs_exactly_two_coordinates_witness :
  parse_geo
    (fun _ => Ok (Json.Obj [("type", Json.Str "Point");
                            ("coordinates",
                             Json.Arr [Json.Number 1; Json.Number 2;
                                       Json.Number 3])]))
    "" = Raise "ValueError".
Proof.
  destruct (proj2 (parse_geo_needs_exactly_two_coordinates
              (fun _ => Ok (Json.Obj [("type", Json.Str "Point");
                                      ("coordinates",
                                       Json.Arr [Json.Number 1; Json.Number 2;
                                                 Json.Number 3])])) "")
              [("type", Json.Str "Point");
               ("coordinates",
                Json.Arr [Json.Number 1; Json.Number 2; Json.Number 3])]
              eq_refl) as (_ & H).
  destruct (H [Json.Number 1; Json.Number 2; Json.Number 3] eq_refl)
    as (_ & H2 & _).
  apply H2. simpl. discriminate.
Defined.

Lemma apply_ok {A B} (f : A -> result B) series : forall rows,
  apply f series = Ok rows <-> Forall2 (fun a b => f a = Ok b) series rows.
Proof.
  induction series as [|a series IH]; intros rows; simpl.
  - split.
    + intros H. injection H as <-. constructor.
    + intros H. inversion H. reflexivity.
  - destruct (f a) as [b|e] eqn:Ea; cbn [bind_result].
    + destruct (apply f series) as [bs|e] eqn:Eb; cbn [bind_result].
      * split.
        -- intros H. injection H as <-. constructor; [exact Ea|].
           apply IH. reflexivity.
        -- intros H. inversion H as [|? b' ? bs' Hb Hbs]; subst.
           apply IH in Hbs. congruence.
      * split; [discriminate|].
        intros H. inversion H as [|? b' ? bs' Hb Hbs]; subst.
        apply IH in Hbs. discriminate.
    + split; [discriminate|].
      intros H. inversion H as [|? b' ? bs' Hb Hbs]; subst. congruence.
Qed.

Lemma apply_first_failure {A B} (f : A -> result B) good : forall bad rest e,
  Forall (fun a => exists b, f a = Ok b) good ->
  f bad = Raise e ->
  apply f (good ++ bad :: rest) = Raise e.
Proof.
  induction good as [|a good IH]; intros bad rest e Hg Hb; simpl.
  - rewrite Hb. reflexivity.
  - inversion Hg as [|? ? (b & Ha) Hg']; subst.
    rewrite Ha. cbn [bind_result]. rewrite (IH _ rest _ Hg' Hb). reflexivity.
Qed.

(** X17.  Parsing the column is all or nothing.  On a column with an entry
    it stores the two columns exactly when every entry parses, and then
    with one pair per entry, in order; when an entry fails, the call
    raises the exception of the first such entry, whatever comes after
    it.  On a column without entries the assignment raises ValueError. *)
Theorem parse_column_is_all_or_nothing :
  forall json_loads,
    parse_column json_loads [] = Raise "ValueError"
    /\ (forall geo pairs,
          geo <> [] ->
          (parse_column json_loads geo = Ok pairs
           <-> Forall2 (fun g p => parse_geo json_loads g = Ok p) geo pairs))
    /\ (forall geo pairs,
          parse_column json_loads geo = Ok pairs ->
          geo <> [] /\ List.length pairs = List.length geo)
    /\ (forall good bad rest e,
          Forall (fun g => exists p, parse_geo json_loads g = Ok p) good ->
          parse_geo json_loads bad = Raise e ->
          parse_column json_loads (good ++ bad :: rest) = Raise e).
Proof.
  intros loads.
  assert (Hok : forall geo pairs,
            parse_column loads geo = Ok pairs
            <-> geo <> [] /\ apply (parse_geo loads) geo = Ok pairs).
  { intros geo pairs. unfold parse_column.
    destruct (apply (parse_geo loads) geo) as [[|p parsed]|e] eqn:E;
      cbn [bind_result].
    - split; [discriminate|]. intros (Hne & H). injection H as <-.
      apply apply_ok in E. inversion E; subst. congruence.
    - split.
      + intros H. split; [|exact H].
        apply apply_ok in E. intros ->. inversion E.
      + intros (_ & H). exact H.
    - split; [discriminate|]. intros (_ & H). discriminate. }
  split; [reflexivity|]. split; [|split].
  - intros geo pairs Hne. rewrite Hok, apply_ok. tauto.
  - intros geo pairs H. apply Hok in H. destruct H as (Hne & H).
    split; [exact Hne|]. apply apply_ok in H.
    symmetry. apply (Forall2_length H).
  - intros good bad rest e Hg Hb. unfold parse_column.
    rewrite (apply_first_failure _ good bad rest e Hg Hb). reflexivity.
Qed.

(** The theorem for a reader that fails on every text. *)
Lemma parse_column_is_all_or_nothing_witness :
  parse_column (fun _ => Raise "JSONDecodeError") ["{}"; "{}"]
  = Raise "JSONDecodeError".
Proof.
  apply (proj2 (proj2 (proj2 (parse_column_is_all_or_nothing
                                (fun _ => Raise "JSONDecodeError"))))
           [] "{}" ["{}"] "JSONDecodeError").
  - constructor.
  - reflexivity.
Defined.

End GeometryFacts.

(** ** The gauges *)

Module GaugeFacts.
Import Gauge.

(** X18.  A gauge is drawn exactly for a value from 0 to 100: its two wedges
    are then the value and the rest to 100, neither negative, and its
    colour is green from 75 on, yellow from 50 to 75 and red below.  For
    any other value one wedge is negative and the call raises
    ValueError. *)
Theorem gauge_needs_a_percentage :
  forall label value,
    (0 <= value /\ value <= 100 ->
     exists color,
       plot_circular_metric label value
       = Ok {| x := [value; 100 - value]; colors := [color; "#333333"];
               label := label; percent := value |}
       /\ Qsum [value; 100 - value] == 100
       /\ (75 <= value -> color = "#2bd47d")
       /\ (50 <= value -> value < 75 -> color = "#f9c74f")
       /\ (value < 50 -> color = "#e63946"))
    /\ (value < 0 \/ 100 < value ->
        plot_circular_metric label value = Raise "ValueError").
Proof.
  intros label value. unfold plot_circular_metric. cbn [existsb].
  split.
  - intros (H0 & H1).
    rewrite (proj2 (Qltb_ge value 0)) by exact H0.
    rewrite (proj2 (Qltb_ge (100 - value) 0)) by lra.
    cbn [orb]. eexists. split; [reflexivity|].
    split; [simpl; ring|].
    split; [|split].
    + intros H. rewrite (proj2 (Qgeb_le value 75)) by exact H. reflexivity.
    + intros Ha Hb. rewrite (proj2 (Qgeb_lt value 75)) by exact Hb.
      rewrite (proj2 (Qgeb_le value 50)) by exact Ha. reflexivity.
    + intros H. rewrite (proj2 (Qgeb_lt value 75)) by lra.
      rewrite (proj2 (Qgeb_lt value 50)) by exact H. reflexivity.
  - intros [H|H].
    + rewrite (proj2 (Qltb_lt value 0)) by exact H. reflexivity.
    + rewrite (proj2 (Qltb_lt (100 - value) 0)) by lra.
      rewrite orb_true_r. reflexivity.
Qed.

(** The theorem at the accuracy of the classifier, 74.7. *)
Lemma gauge_needs_a_percentage_witness :
  exists color,
    plot_circular_metric "Accuracy" (747 # 10)
    = Ok {| x := [747 # 10; 100 - (747 # 10)]; colors := [color; "#333333"];
            label := "Accuracy"; percent := 747 # 10 |}.
Proof.
  destruct (proj1 (gauge_needs_a_percentage "Accuracy" (747 # 10)))
    as (color & H & _).
  - split; unfold Qle; simpl; lia.
  - exists color. exact H.
Defined.

End GaugeFacts.

(** ** [apply_smoothing]: edges of its domain, and where its points lie *)

Module SmoothMore.
Import Smooth ArrayFacts SmoothFacts.

Lemma apply_smoothing_of_samples parse_float k df df' resolution :
  dropna_to_numeric parse_float df = dropna_to_numeric parse_float df' ->
  apply_smoothing parse_float k df resolution
  = apply_smoothing parse_float k df' resolution.
Proof.
  intros H. unfold apply_smoothing. rewrite H. reflexivity.
Qed.

Lemma dropna_to_numeric_dropna parse_float df :
  dropna_to_numeric parse_float (Classifier.dropna df)
  = dropna_to_numeric parse_float df.
Proof.
  unfold dropna_to_numeric, Classifier.dropna.
  induction df as [|r df IH]; simpl; [reflexivity|].
  destruct r as [[qa|sa|] [qb|sb|] [qc|sc|]]; simpl; rewrite ?IH;
    try reflexivity;
    repeat match goal with
           | |- context [parse_float ?s] => destruct (parse_float s)
           end; reflexivity.
Qed.

(** X19.  A row with a missing or unreadable latitude, longitude or probability
    has no influence on the result, wherever it stands in the frame; so
    the [dropna] of the loader changes nothing, and the loader returns
    what [apply_smoothing] returns at resolution 300.  Without a file the
    script is stopped. *)
Theorem incomplete_rows_are_ignored :
  forall parse_float gaussian_kernel1d,
    (forall df1 r df2 resolution,
       to_numeric parse_float (lat r) = None
       \/ to_numeric parse_float (lon r) = None
       \/ to_numeric parse_float (prob r) = None ->
       apply_smoothing parse_float gaussian_kernel1d (df1 ++ r :: df2)
                       resolution
       = apply_smoothing parse_float gaussian_kernel1d (df1 ++ df2)
                         resolution)
    /\ (forall df,
          Classifier.loadClassifierPredictions parse_float gaussian_kernel1d
            (Some df)
          = apply_smoothing parse_float gaussian_kernel1d df 300)
    /\ Classifier.loadClassifierPredictions parse_float gaussian_kernel1d None
       = Raise "StopException".
Proof.
  intros parse_float k. split; [|split; [|reflexivity]].
  - intros df1 r df2 resolution H. apply apply_smoothing_of_samples.
    unfold dropna_to_numeric. rewrite !flat_map_app. f_equal. simpl.
    destruct H as [H|[H|H]]; rewrite H;
      repeat match goal with
             | |- context [match to_numeric parse_float ?c with _ => _ end] =>
                 destruct (to_numeric parse_float c)
             end; reflexivity.
  - intros df. unfold Classifier.loadClassifierPredictions.
    apply apply_smoothing_of_samples, dropna_to_numeric_dropna.
Qed.

(** The theorem at the three scores, with a row without probability put
    in front. *)
Lemma incomplete_rows_are_ignored_witness :
  apply_smoothing no_parse rational_kernel
    (Data.row_without_prob ++ Data.three_scores) 3
  = apply_smoothing no_parse rational_kernel Data.three_scores 3.
Proof.
  apply (proj1 (incomplete_rows_are_ignored no_parse rational_kernel)
           [] {| lat := Number 5; lon := Number 7; prob := Missing |}
           Data.three_scores 3%nat).
  right; right. reflexivity.
Defined.

(** X20.  With a resolution of zero there is no edge on either axis, and a call
    on a frame that keeps a sample raises IndexError. *)
Theorem resolution_zero_raises :
  forall parse_float gaussian_kernel1d df,
    dropna_to_numeric parse_float df <> [] ->
    apply_smoothing parse_float gaussian_kernel1d df 0 = Raise "IndexError".
Proof.
  intros parse_float k df Hs. unfold apply_smoothing.
  pose proof (lats_nonempty _ Hs) as Hlat.
  pose proof (lons_nonempty _ Hs) as Hlon.
  unfold Np.amin, Np.amax.
  destruct (map Scored.lat (dropna_to_numeric parse_float df));
    [congruence|].
  destruct (map Scored.lon (dropna_to_numeric parse_float df));
    [congruence|].
  reflexivity.
Qed.

(** The theorem at the three scores. *)
Lemma resolution_zero_raises_witness :
  apply_smoothing no_parse rational_kernel Data.three_scores 0
  = Raise "IndexError".
Proof.
  apply resolution_zero_raises. discriminate.
Defined.

(** X21.  Every point returned lies in the bounding box of the samples: its
    latitude between the least and the greatest latitude of the samples,
    its longitude between the least and the greatest longitude. *)
Theorem points_lie_in_the_bounding_box :
  forall parse_float gaussian_kernel1d df resolution,
    let samples := dropna_to_numeric parse_float df in
    let lats := map Scored.lat samples in
    let lons := map Scored.lon samples in
    samples <> [] ->
    (1 <= resolution)%nat ->
    exists points,
      apply_smoothing parse_float gaussian_kernel1d df resolution = Ok points
      /\ forall p, In p points ->
           Np.least lats <= Scored.lat p /\ Scored.lat p <= Np.greatest lats
           /\ Np.least lons <= Scored.lon p
           /\ Scored.lon p <= Np.greatest lons.
Proof.
  intros parse_float k df resolution samples lats lons Hs Hr.
  eexists. split; [apply apply_smoothing_run; assumption|].
  intros p Hin. rewrite smoothed_points_cells in Hin.
  apply in_map_iff in Hin.
  destruct Hin as ([i j] & <- & Hin). apply filter_In in Hin.
  destruct Hin as (Hin & _). unfold cells in Hin.
  apply in_prod_iff in Hin. rewrite !in_seq in Hin.
  destruct Hin as (Hi & Hj).
  assert (Hi' : (i < resolution - 1)%nat) by lia.
  assert (Hj' : (j < resolution - 1)%nat) by lia.
  clear Hi Hj. rename Hi' into Hi. rename Hj' into Hj.
  cbn [cell_point Scored.lat Scored.lon fst snd].
  subst lats lons samples.
  pose proof (center_of_bin
                (Np.least (map Scored.lat (dropna_to_numeric parse_float df)))
                (Np.greatest (map Scored.lat (dropna_to_numeric parse_float df)))
                resolution i ltac:(lia)) as Ela.
  pose proof (center_of_bin
                (Np.least (map Scored.lon (dropna_to_numeric parse_float df)))
                (Np.greatest (map Scored.lon (dropna_to_numeric parse_float df)))
                resolution j ltac:(lia)) as Elo.
  fold (lat_bins (dropna_to_numeric parse_float df) resolution) in Ela.
  fold (lon_bins (dropna_to_numeric parse_float df) resolution) in Elo.
  assert (Hn : (2 <= resolution)%nat) by lia.
  assert (B : forall lo hi a, lo <= hi -> (a < resolution - 1)%nat ->
            lo <= lo + (Qn a + (1 # 2)) * width lo hi resolution
            /\ lo + (Qn a + (1 # 2)) * width lo hi resolution <= hi).
  { intros lo hi a Hle Ha.
    pose proof (width_nonneg lo hi resolution Hn Hle) as Hw.
    pose proof (width_total lo hi resolution Hn) as Ht.
    pose proof (Qn_nonneg a) as Ha0.
    assert (Hle1 : Qn a + (1 # 2) <= Qn (resolution - 1)).
    { assert (Qn (S a) <= Qn (resolution - 1)) by (apply Qn_le; lia).
      rewrite Qn_S in H. lra. }
    assert (0 <= (Qn a + (1 # 2)) * width lo hi resolution)
      by (apply Qmult_le_0_compat; lra).
    assert ((Qn a + (1 # 2)) * width lo hi resolution
            <= Qn (resolution - 1) * width lo hi resolution)
      by (apply Qmult_le_compat_r; assumption).
    split; lra. }
  destruct (B _ _ i (least_le_greatest _ (lats_nonempty _ Hs)) Hi)
    as (B1 & B2).
  destruct (B _ _ j (least_le_greatest _ (lons_nonempty _ Hs)) Hj)
    as (B3 & B4).
  split; [eapply Qle_trans; [exact B1 | apply Qle_lteq; right;
                                         symmetry; exact Ela]|].
  split; [eapply Qle_trans; [apply Qle_lteq; right; exact Ela | exact B2]|].
  split; [eapply Qle_trans; [exact B3 | apply Qle_lteq; right;
                                         symmetry; exact Elo]|].
  eapply Qle_trans; [apply Qle_lteq; right; exact Elo | exact B4].
Qed.

(** The theorem at the three scores on a grid of two by two cells. *)
Lemma points_lie_in_the_bounding_box_witness :
  exists points,
    apply_smoothing no_parse rational_kernel Data.three_scores 3 = Ok points
    /\ forall p, In p points -> 0 <= Scored.lat p /\ Scored.lat p <= 2.
Proof.
  destruct (points_lie_in_the_bounding_box
              no_parse rational_kernel Data.three_scores 3)
    as (points & H1 & H2).
  - discriminate.
  - lia.
  - exists points. split; [exact H1|].
    intros p Hp. destruct (H2 p Hp) as (Ha & Hb & _).
    split; [exact Ha | exact Hb].
Defined.

End SmoothMore.

(** ** [apply_smoothing]: what the grids hold and which cells appear *)

Module SmoothTotals.
Import Smooth ArrayFacts SmoothFacts.

Lemma Qsum_nonpos (l : list Scored.Row) :
  (forall s, In s l -> Scored.prob s <= 0) -> Qsum (map Scored.prob l) <= 0.
Proof.
  induction l as [|s l IH]; intros H; simpl; [apply Qle_refl|].
  assert (Scored.prob s <= 0) by (apply H; left; reflexivity).
  assert (Qsum (map Scored.prob l) <= 0)
    by (apply IH; intros; apply H; right; assumption).
  lra.
Qed.

Lemma count_cell_pos samples resolution i j :
  cell_samples samples resolution i j <> [] ->
  0 < count_cell samples resolution i j.
Proof.
  intros H. rewrite count_cell_length.
  destruct (cell_samples samples resolution i j); [congruence|].
  apply Qn_pos.
Qed.

Lemma avg_cell_le_0 samples resolution i j :
  (forall s, In s samples -> Scored.prob s <= 0) ->
  avg_cell samples resolution i j <= 0.
Proof.
  intros H. unfold avg_cell.
  destruct (Qeq_bool (count_cell samples resolution i j) 0) eqn:E;
    simpl negb; cbv iota; [apply Qle_refl|].
  assert (Hc : 0 < count_cell samples resolution i j).
  { apply count_cell_pos. intros El.
    apply count_cell_zero in El. congruence. }
  apply Qle_shift_div_r; [exact Hc|]. rewrite Qmult_0_l.
  apply Qsum_nonpos. intros s Hs. apply H.
  unfold cell_samples in Hs. apply filter_In in Hs. tauto.
Qed.

Lemma filter_none {A} (f : A -> bool) l :
  (forall x, In x l -> f x = false) -> filter f l = [].
Proof.
  induction l as [|a l IH]; intros H; simpl; [reflexivity|].
  rewrite (H a) by (left; reflexivity).
  apply IH. intros; apply H; right; assumption.
Qed.

(** X22.  With a kernel of non-negative weights of total one: when no sample has
    a positive probability, the call returns a frame without rows, and
    such a frame has no column ["prob"], so the Classifier tab raises
    KeyError for every risk level. *)
Theorem no_positive_probability_no_point :
  forall parse_float gaussian_kernel1d df resolution,
    let samples := dropna_to_numeric parse_float df in
    Forall (Qle 0) (gaussian_kernel1d (3 # 2) 6%nat) ->
    Qsum (gaussian_kernel1d (3 # 2) 6%nat) == 1 ->
    samples <> [] ->
    (1 <= resolution)%nat ->
    (forall s, In s samples -> Scored.prob s <= 0) ->
    apply_smoothing parse_float gaussian_kernel1d df resolution = Ok []
    /\ forall risk_level, Classifier.view risk_level [] = Raise "KeyError".
Proof.
  intros parse_float k df resolution samples Hk0 Hk1 Hs Hr Hp.
  split; [|reflexivity].
  rewrite apply_smoothing_run by assumption. fold samples.
  rewrite smoothed_points_cells. rewrite filter_none; [reflexivity|].
  intros [i j] Hc. unfold cells in Hc. apply in_prod_iff in Hc.
  rewrite !in_seq in Hc. cbn [fst snd]. apply Qltb_ge.
  unfold smoothed_probs, avg_probs.
  apply gaussian_filter_le; try assumption; try lia.
  intros. apply avg_cell_le_0, Hp.
Qed.

(** The theorem at a frame of one sample of probability zero. *)
Lemma no_positive_probability_no_point_witness :
  apply_smoothing no_parse rational_kernel [Data.scored 5 7 0] 3 = Ok [].
Proof.
  refine (proj1 (no_positive_probability_no_point
                   no_parse rational_kernel [Data.scored 5 7 0] 3
                   rational_kernel_nonneg rational_kernel_sum _ _ _)).
  - discriminate.
  - lia.
  - intros s [<-|[]]. simpl. apply Qle_refl.
Defined.

Lemma Qsum_map_ext {A} (F G : A -> Q) l :
  (forall c, In c l -> F c == G c) -> Qsum (map F l) == Qsum (map G l).
Proof.
  induction l as [|a l IH]; intros H; simpl; [reflexivity|].
  rewrite (H a) by (left; reflexivity).
  rewrite IH by (intros; apply H; right; assumption). reflexivity.
Qed.

Lemma Qsum_map_plus {A} (F G : A -> Q) l :
  Qsum (map (fun c => F c + G c) l) == Qsum (map F l) + Qsum (map G l).
Proof.
  induction l as [|a l IH]; simpl; [ring|]. rewrite IH. ring.
Qed.

Lemma Qsum_all_zero {A} (F : A -> Q) l :
  (forall c, In c l -> F c == 0) -> Qsum (map F l) == 0.
Proof.
  induction l as [|a l IH]; intros H; simpl; [reflexivity|].
  rewrite (H a) by (left; reflexivity).
  rewrite IH by (intros; apply H; right; assumption). ring.
Qed.

(** A sum over a list without repetition in which one entry alone counts. *)
Lemma one_hot {A} (P : A -> bool) (v : Q) (c0 : A) l :
  NoDup l -> In c0 l ->
  (forall c, In c l -> (P c = true <-> c = c0)) ->
  Qsum (map (fun c => if P c then v else 0) l) == v.
Proof.
  induction 1 as [|a l Ha Hl IH]; intros Hin HP; [contradiction|].
  simpl. destruct Hin as [->|Hin].
  - rewrite (proj2 (HP c0 (or_introl eq_refl)) eq_refl).
    rewrite Qsum_all_zero; [ring|].
    intros c Hc. destruct (P c) eqn:E; [|reflexivity].
    apply (HP c (or_intror Hc)) in E. subst c. contradiction.
  - destruct (P a) eqn:E.
    + apply (HP a (or_introl eq_refl)) in E. subst a. contradiction.
    + rewrite IH; [ring | exact Hin |].
      intros c Hc. apply HP. right. exact Hc.
Qed.

Lemma sum_rows_as_cells (f : nat -> nat -> Q) l2 : forall l1,
  Qsum (map Qsum (map (fun i => map (fun j => f i j) l2) l1))
  == Qsum (map (fun c => f (fst c) (snd c)) (list_prod l1 l2)).
Proof.
  induction l1 as [|i l1 IH]; simpl; [reflexivity|].
  rewrite map_app, Qsum_app, IH, map_map. reflexivity.
Qed.

Lemma grid_total_tabulate n m f :
  Classifier.grid_total (tabulate n m f)
  == Qsum (map (fun c => f (fst c) (snd c))
               (list_prod (seq 0 n) (seq 0 m))).
Proof. apply sum_rows_as_cells. Qed.

Section Totals.

Variable samples : list Scored.Row.
Variable resolution : nat.
Hypothesis some_sample : samples <> [].
Hypothesis two_edges : (2 <= resolution)%nat.

Local Abbreviation here c s :=
  (Np.in_cell (lat_bins samples resolution) (lon_bins samples resolution)
              (fst c) (snd c) (Scored.lat s, Scored.lon s)).

Lemma one_cell_per_sample s :
  In s samples ->
  exists c0, In c0 (cells resolution)
             /\ forall c, In c (cells resolution) ->
                  (here c s = true <-> c = c0).
Proof.
  intros Hin.
  pose proof (lat_bin_in_range samples resolution some_sample two_edges
                s Hin) as Hi.
  pose proof (lon_bin_in_range samples resolution some_sample two_edges
                s Hin) as Hj.
  exists ((Np.bin_number (lat_bins samples resolution) (Scored.lat s) - 1)%nat,
          (Np.bin_number (lon_bins samples resolution) (Scored.lon s) - 1)%nat).
  split.
  - unfold cells. apply in_prod_iff. rewrite !in_seq. lia.
  - intros [i j] _. unfold Np.in_cell. cbn [fst snd].
    rewrite andb_true_iff, !Nat.eqb_eq. split.
    + intros (H1 & H2). f_equal; lia.
    + intros E. injection E as -> ->. lia.
Qed.

Lemma cells_share_the_samples (f : Scored.Row -> Q) l :
  (forall s, In s l -> In s samples) ->
  Qsum (map (fun c => Qsum (map f (filter (fun s => here c s) l)))
            (cells resolution))
  == Qsum (map f l).
Proof.
  induction l as [|x l IH]; intros Hl.
  - simpl. apply Qsum_all_zero. reflexivity.
  - simpl.
    rewrite (Qsum_map_ext _
               (fun c => (if here c x then f x else 0)
                         + Qsum (map f (filter (fun s => here c s) l)))).
    + rewrite Qsum_map_plus.
      rewrite IH by (intros; apply Hl; right; assumption).
      destruct (one_cell_per_sample x (Hl x (or_introl eq_refl)))
        as (c0 & Hc0 & Hu).
      rewrite (one_hot (fun c => here c x) (f x) c0);
        [reflexivity | | exact Hc0 | exact Hu].
      apply NoDup_list_prod; apply seq_NoDup.
    + intros c _. destruct (here c x); simpl; ring.
Qed.

End Totals.

(** X23.  The histogram loses no sample and counts none twice: for a frame that
    keeps a sample and a resolution of at least two, the entries of
    [counts] add up to the number of samples, and the entries of
    [heatmap_grid] to the total of their probabilities. *)
Theorem histogram_keeps_every_sample :
  forall parse_float df resolution,
    let samples := dropna_to_numeric parse_float df in
    samples <> [] ->
    (2 <= resolution)%nat ->
    Np.histogram2d (map Scored.lat samples) (map Scored.lon samples)
      (lat_bins samples resolution) (lon_bins samples resolution) None
    = Ok (counts samples resolution)
    /\ Np.histogram2d (map Scored.lat samples) (map Scored.lon samples)
         (lat_bins samples resolution) (lon_bins samples resolution)
         (Some (map Scored.prob samples))
       = Ok (heatmap_grid samples resolution)
    /\ Classifier.grid_total (counts samples resolution)
       == Qn (List.length samples)
    /\ Classifier.grid_total (heatmap_grid samples resolution)
       == Qsum (map Scored.prob samples).
Proof.
  intros parse_float df resolution samples Hs Hn.
  split; [apply histogram2d_counts; [exact Hs | lia]|].
  split; [apply histogram2d_weighted; [exact Hs | lia]|].
  split.
  - unfold counts. rewrite grid_total_tabulate.
    unfold count_cell, cell_samples.
    rewrite (cells_share_the_samples samples resolution Hs Hn
               (fun _ => 1) samples) by auto.
    apply Qsum_ones.
  - unfold heatmap_grid. rewrite grid_total_tabulate.
    unfold heat_cell, cell_samples.
    apply (cells_share_the_samples samples resolution Hs Hn
             Scored.prob samples). auto.
Qed.

(** The theorem at the three scores on a grid of two by two cells. *)
Lemma histogram_keeps_every_sample_witness :
  Classifier.grid_total
    (counts (dropna_to_numeric no_parse Data.three_scores) 3)
  == 3.
Proof.
  refine (proj1 (proj2 (proj2 (histogram_keeps_every_sample
                                 no_parse Data.three_scores 3 _ _)))).
  - discriminate.
  - lia.
Defined.

End SmoothTotals.

(** ** The smoothed value of a cell, and the support of the result *)

Module SmoothSupport.
Import Smooth ArrayFacts SmoothFacts SmoothTotals.

Lemma nth_nil_0 j : nth j (@nil Q) 0 = 0.
Proof. destruct j; reflexivity. Qed.

Lemma get_transpose c g a b :
  (a < c)%nat -> get (Ndimage.transpose c g) a b = get g b a.
Proof.
  intros Ha. unfold get, Ndimage.transpose.
  rewrite (nth_map_seq (fun j => map (fun row => nth j row 0) g)) by exact Ha.
  transitivity (nth b (map (fun row => nth a row 0) g)
                      ((fun row => nth a row 0) [])).
  - f_equal. symmetry. apply nth_nil_0.
  - apply (map_nth (fun row => nth a row 0)).
Qed.

Lemma nth_transpose c g a :
  (a < c)%nat ->
  nth a (Ndimage.transpose c g) [] = map (fun row => nth a row 0) g.
Proof.
  intros Ha. unfold Ndimage.transpose.
  apply (nth_map_seq (fun j => map (fun row => nth j row 0) g)), Ha.
Qed.

(** The weighted sum that [correlate1d] forms at one position. *)
Local Abbreviation weighted weights F :=
  (Qsum (map (fun kw : nat * Q => snd kw * F (fst kw))
             (combine (seq 0 (List.length weights)) weights))).

Lemma get_axis1 g w i j :
  (j < List.length (nth i g []))%nat ->
  get (Ndimage.correlate1d_axis1 g w) i j
  = weighted w (fun k =>
      get g i (Ndimage.reflect (List.length (nth i g []))
                 (Z.of_nat j + Z.of_nat k - Z.of_nat (List.length w / 2))%Z)).
Proof.
  intros Hj. unfold get at 1. unfold Ndimage.correlate1d_axis1.
  transitivity (nth j (Ndimage.correlate1d (nth i g []) w) 0).
  - f_equal.
    exact (map_nth (fun line => Ndimage.correlate1d line w) g [] i).
  - unfold Ndimage.correlate1d.
    rewrite (nth_map_seq
               (fun i0 => Qsum (map (fun jw : nat * Q =>
                  snd jw * nth (Ndimage.reflect (List.length (nth i g []))
                                  (Z.of_nat i0 + Z.of_nat (fst jw)
                                   - Z.of_nat (List.length w / 2))%Z)
                               (nth i g []) 0)
                  (combine (seq 0 (List.length w)) w)))) by exact Hj.
    reflexivity.
Qed.

Lemma get_axis0 g w n m i j :
  List.length g = n -> List.length (hd [] g) = m ->
  (i < n)%nat -> (j < m)%nat ->
  get (Ndimage.correlate1d_axis0 g w) i j
  = weighted w (fun k =>
      get g (Ndimage.reflect n
               (Z.of_nat i + Z.of_nat k - Z.of_nat (List.length w / 2))%Z) j).
Proof.
  intros Hn Hm Hi Hj. unfold Ndimage.correlate1d_axis0.
  rewrite Hn, Hm. rewrite get_transpose by exact Hi.
  fold (Ndimage.correlate1d_axis1 (Ndimage.transpose m g) w).
  assert (E : nth j (Ndimage.transpose m g) []
              = map (fun row => nth j row 0) g)
    by (apply nth_transpose, Hj).
  rewrite get_axis1 by (rewrite E, length_map, Hn; exact Hi).
  rewrite E, length_map, Hn.
  f_equal. apply map_ext. intros [k wk]. cbn [fst snd]. f_equal.
  apply get_transpose, Hj.
Qed.

Lemma length_row_axis0 g w n i :
  List.length g = n -> (i < n)%nat ->
  List.length (nth i (Ndimage.correlate1d_axis0 g w) [])
  = List.length (hd [] g).
Proof.
  intros Hn Hi. unfold Ndimage.correlate1d_axis0. rewrite Hn.
  rewrite nth_transpose by exact Hi.
  rewrite !length_map. unfold Ndimage.transpose.
  rewrite length_map, length_seq. reflexivity.
Qed.

(** The value of a cell after the two passes. *)
Lemma get_two_passes g w n m i j :
  List.length g = n -> List.length (hd [] g) = m ->
  (i < n)%nat -> (j < m)%nat ->
  get (Ndimage.correlate1d_axis1 (Ndimage.correlate1d_axis0 g w) w) i j
  = weighted w (fun l =>
      weighted w (fun k =>
        get g (Ndimage.reflect n
                 (Z.of_nat i + Z.of_nat k - Z.of_nat (List.length w / 2))%Z)
              (Ndimage.reflect m
                 (Z.of_nat j + Z.of_nat l - Z.of_nat (List.length w / 2))%Z))).
Proof.
  intros Hn Hm Hi Hj.
  rewrite get_axis1
    by (rewrite (length_row_axis0 g w n i Hn Hi), Hm; exact Hj).
  rewrite (length_row_axis0 g w n i Hn Hi), Hm.
  f_equal. apply map_ext. intros [l wl]. cbn [fst snd]. f_equal.
  apply (get_axis0 g w n m); try assumption.
  apply reflect_lt. lia.
Qed.

Lemma hd_tabulate {A} n m (f : nat -> nat -> A) :
  (0 < n)%nat -> List.length (hd [] (tabulate n m f)) = m.
Proof.
  intros Hn. destruct n; [lia|]. unfold tabulate. simpl.
  rewrite length_map, length_seq. reflexivity.
Qed.

Lemma in_weights (w : list Q) k wk :
  In (k, wk) (combine (seq 0 (List.length w)) w) ->
  (k < List.length w)%nat /\ In wk w.
Proof.
  intros H. split.
  - apply in_combine_l, in_seq in H. lia.
  - apply in_combine_r in H. exact H.
Qed.

Section Kernel.

Variable gaussian_kernel1d : Q -> nat -> list Q.
Hypothesis thirteen : List.length (gaussian_kernel1d (3 # 2) 6%nat) = 13%nat.

Variable samples : list Scored.Row.
Variable resolution : nat.

(** The smoothed value of a cell in terms of the means. *)
Lemma smoothed_cell i j :
  (i < resolution - 1)%nat -> (j < resolution - 1)%nat ->
  get (smoothed_probs gaussian_kernel1d samples resolution) i j
  = weighted (rev (gaussian_kernel1d (3 # 2) 6%nat)) (fun l =>
      weighted (rev (gaussian_kernel1d (3 # 2) 6%nat)) (fun k =>
        avg_cell samples resolution
          (Ndimage.reflect (resolution - 1) (Z.of_nat i + Z.of_nat k - 6)%Z)
          (Ndimage.reflect (resolution - 1) (Z.of_nat j + Z.of_nat l - 6)%Z))).
Proof.
  intros Hi Hj. unfold smoothed_probs, Ndimage.gaussian_filter.
  change (Z.to_nat (Qfloor (Ndimage.truncate * (3 # 2) + (1 # 2))))
    with 6%nat.
  rewrite (get_two_passes _ _ (resolution - 1) (resolution - 1));
    try assumption.
  - rewrite length_rev, thirteen. change (Z.of_nat (13 / 2)) with 6%Z.
    f_equal. apply map_ext. intros [l wl]. cbn [fst snd]. f_equal.
    f_equal. apply map_ext. intros [k wk]. cbn [fst snd]. f_equal.
    unfold avg_probs. apply get_tabulate; apply reflect_lt; lia.
  - apply length_tabulate.
  - apply hd_tabulate. lia.
Qed.

End Kernel.

Lemma weighted_all_zero (w : list Q) (F : nat -> Q) :
  (forall k, (k < List.length w)%nat -> F k == 0) ->
  weighted w F == 0.
Proof.
  intros H. apply Qsum_all_zero. intros [k wk] Hin. cbn [fst snd].
  apply in_weights in Hin. rewrite (H k) by tauto. ring.
Qed.

(** X24.  Smoothing reaches six cells far and no farther.  With a kernel of
    thirteen weights: a cell emits no point when neither it nor any cell
    within six rows and six columns of it, the grid mirrored at its
    border, holds a sample. *)
Theorem empty_neighbourhood_emits_no_point :
  forall parse_float gaussian_kernel1d df resolution i j,
    let samples := dropna_to_numeric parse_float df in
    let smoothed := smoothed_probs gaussian_kernel1d samples resolution in
    List.length (gaussian_kernel1d (3 # 2) 6%nat) = 13%nat ->
    samples <> [] ->
    (i < resolution - 1)%nat -> (j < resolution - 1)%nat ->
    (forall di dj : Z,
       (-6 <= di <= 6)%Z -> (-6 <= dj <= 6)%Z ->
       cell_samples samples resolution
         (Ndimage.reflect (resolution - 1) (Z.of_nat i + di)%Z)
         (Ndimage.reflect (resolution - 1) (Z.of_nat j + dj)%Z) = []) ->
    exists points,
      apply_smoothing parse_float gaussian_kernel1d df resolution = Ok points
      /\ points
         = map (cell_point (centers (lat_bins samples resolution))
                           (centers (lon_bins samples resolution)) smoothed)
               (filter (fun c => Qltb 0 (get smoothed (fst c) (snd c)))
                       (cells resolution))
      /\ get smoothed i j == 0
      /\ ~ In (i, j) (filter (fun c => Qltb 0 (get smoothed (fst c) (snd c)))
                             (cells resolution)).
Proof.
  intros parse_float k df resolution i j samples smoothed H13 Hs Hi Hj Hz.
  assert (Z0 : get smoothed i j == 0).
  { unfold smoothed. rewrite (smoothed_cell k H13) by assumption.
    apply (weighted_all_zero (rev (k (3 # 2) 6%nat))
             (fun l => Qsum (map (fun kw : nat * Q => snd kw *
                avg_cell samples resolution
                  (Ndimage.reflect (resolution - 1)
                     (Z.of_nat i + Z.of_nat (fst kw) - 6)%Z)
                  (Ndimage.reflect (resolution - 1)
                     (Z.of_nat j + Z.of_nat l - 6)%Z))
                (combine (seq 0 (List.length (rev (k (3 # 2) 6%nat))))
                         (rev (k (3 # 2) 6%nat)))))).
    intros l Hl.
    apply (weighted_all_zero (rev (k (3 # 2) 6%nat))
             (fun k0 => avg_cell samples resolution
                  (Ndimage.reflect (resolution - 1)
                     (Z.of_nat i + Z.of_nat k0 - 6)%Z)
                  (Ndimage.reflect (resolution - 1)
                     (Z.of_nat j + Z.of_nat l - 6)%Z))).
    intros k0 Hk.
    rewrite length_rev, H13 in Hl, Hk.
    unfold avg_cell.
    replace (Z.of_nat i + Z.of_nat k0 - 6)%Z
      with (Z.of_nat i + (Z.of_nat k0 - 6))%Z by lia.
    replace (Z.of_nat j + Z.of_nat l - 6)%Z
      with (Z.of_nat j + (Z.of_nat l - 6))%Z by lia.
    rewrite (proj2 (count_cell_zero samples resolution _ _))
      by (apply Hz; lia).
    reflexivity. }
  eexists. split; [apply apply_smoothing_run; [exact Hs | lia]|].
  fold samples. fold smoothed. rewrite smoothed_points_cells.
  split; [reflexivity|]. split; [exact Z0|].
  intros Hin. apply filter_In in Hin. destruct Hin as (_ & Hpos).
  cbn [fst snd] in Hpos. apply Qltb_lt in Hpos. rewrite Z0 in Hpos.
  apply (Qlt_irrefl 0 Hpos).
Qed.

(** The theorem at a single sample on a grid of fifteen by fifteen cells:
    the sample lies in the last cell, and the first cell is more than six
    cells away from it. *)
Lemma empty_neighbourhood_emits_no_point_witness :
  get (smoothed_probs rational_kernel
         (dropna_to_numeric no_parse Data.one_sample) 16) 0 0 == 0.
Proof.
  destruct (empty_neighbourhood_emits_no_point
              no_parse rational_kernel Data.one_sample 16 0 0)
    as (points & _ & _ & H & _).
  - reflexivity.
  - discriminate.
  - simpl; lia.
  - simpl; lia.
  - intros di dj Hdi Hdj.
    assert (Ei : exists a, (a <= 6)%nat
               /\ Ndimage.reflect (16 - 1) (Z.of_nat 0 + di)%Z = a).
    { unfold Ndimage.reflect. simpl Z.of_nat.
      assert (C : (di = -6 \/ di = -5 \/ di = -4 \/ di = -3 \/ di = -2
                   \/ di = -1 \/ di = 0 \/ di = 1 \/ di = 2 \/ di = 3
                   \/ di = 4 \/ di = 5 \/ di = 6)%Z) by lia.
      repeat (destruct C as [->|C]; [eexists; split; [|reflexivity];
                                     simpl; lia|]).
      subst di. eexists; split; [|reflexivity]. simpl; lia. }
    assert (Ej : exists b, (b <= 6)%nat
               /\ Ndimage.reflect (16 - 1) (Z.of_nat 0 + dj)%Z = b).
    { unfold Ndimage.reflect. simpl Z.of_nat.
      assert (C : (dj = -6 \/ dj = -5 \/ dj = -4 \/ dj = -3 \/ dj = -2
                   \/ dj = -1 \/ dj = 0 \/ dj = 1 \/ dj = 2 \/ dj = 3
                   \/ dj = 4 \/ dj = 5 \/ dj = 6)%Z) by lia.
      repeat (destruct C as [->|C]; [eexists; split; [|reflexivity];
                                     simpl; lia|]).
      subst dj. eexists; split; [|reflexivity]. simpl; lia. }
    destruct Ei as (a & Ha & ->). destruct Ej as (b & Hb & ->).
    unfold cell_samples. apply filter_none.
    intros s [<-|[]]. unfold Np.in_cell. cbn [fst snd].
    apply andb_false_iff. left. apply Nat.eqb_neq.
    assert (E : Np.bin_number
                  (lat_bins (dropna_to_numeric no_parse Data.one_sample) 16)
                  (Scored.lat {| Scored.lat := 5; Scored.lon := 7;
                                 Scored.prob := 1 # 2 |}) = 15%nat)
      by (vm_compute; reflexivity).
    rewrite E. lia.
  - exact H.
Defined.

End SmoothSupport.
